(** * beefree-template-generator: the document model and the asset resolver

    A shallow embedding of [src/template-generator/agent.py] (the pydantic
    document model) and [src/template-generator/asset_manager.py] (providers,
    [AssetManager], the simplified document model and [resolve_assets]).

    Python objects are values of one type [value]; a pydantic class is a table
    of its fields, and validation and [model_dump] interpret that table.
    [resolve_assets] walks a value the way the source does: by class for
    [ImageModule], by [list], and through the attributes of any other object.
    External services (the Unsplash search, the image generation) are oracles
    read through a request counter, and every provider call is recorded in a
    trace. *)

From Stdlib Require Import ZArith List String Ascii Bool Lia DecimalString.
From Stdlib Require Import Floats.SpecFloat.
Import ListNotations.
Open Scope string_scope.

(** ** Python [str]

    A [string] stands for a Python [str] whose code points are below 256. *)
Module PyStr.

(** [s.startswith(p)] *)
Definition startswith (s p : string) : bool := String.prefix p s.

(** [sub in s] *)
Fixpoint contains (sub s : string) : bool :=
  String.prefix sub s ||
  match s with
  | EmptyString => false
  | String _ tl => contains sub tl
  end.

(** [s[:n]] *)
Fixpoint take (n : nat) (s : string) : string :=
  match n, s with
  | S k, String c tl => String c (take k tl)
  | _, _ => EmptyString
  end.

(** The scan of [s.replace(old, new)] for a non-empty [old]: [skip] counts
    the characters of a match that are still to be dropped. *)
Fixpoint replace_from (old new : string) (skip : nat) (s : string) : string :=
  match s with
  | EmptyString => EmptyString
  | String c tl =>
      match skip with
      | S k => replace_from old new k tl
      | O =>
          if String.prefix old s
          then new ++ replace_from old new (String.length old - 1) tl
          else String c (replace_from old new 0 tl)
      end
  end.

Fixpoint intersperse (new s : string) : string :=
  match s with
  | EmptyString => EmptyString
  | String c tl => String c (new ++ intersperse new tl)
  end.

(** [s.replace(old, new)]: every non-overlapping occurrence, left to right;
    an empty [old] matches before every character and at the end. *)
Definition replace (s old new : string) : string :=
  match old with
  | EmptyString => new ++ intersperse new s
  | String _ _ => replace_from old new 0 s
  end.

Definition in_range (lo hi n : nat) : bool := (lo <=? n)%nat && (n <=? hi)%nat.

(** [c.lower()] on the code points below 256: A-Z, and the upper-case
    letters of the Latin-1 block (0xC0-0xDE but 0xD7). *)
Definition lower_char (c : ascii) : ascii :=
  let n := nat_of_ascii c in
  if in_range 65 90 n || (in_range 192 222 n && negb (n =? 215)%nat)
  then ascii_of_nat (n + 32)
  else c.

(** [s.lower()] *)
Fixpoint lower (s : string) : string :=
  match s with
  | EmptyString => EmptyString
  | String c tl => String (lower_char c) (lower tl)
  end.

Definition hex_digit (n : nat) : ascii :=
  if (n <? 10)%nat then ascii_of_nat (48 + n) else ascii_of_nat (55 + n).

(** [%XX] for one byte. *)
Definition percent (byte : nat) (rest : string) : string :=
  String "%" (String (hex_digit (byte / 16)) (String (hex_digit (byte mod 16)) rest)).

(** The characters [urllib.parse.quote] leaves alone with its default
    [safe='/']: letters, digits, [_.-~] and [/]. *)
Definition quote_safe (n : nat) : bool :=
  in_range 65 90 n || in_range 97 122 n || in_range 48 57 n ||
  (n =? 95)%nat || (n =? 46)%nat || (n =? 45)%nat || (n =? 126)%nat ||
  (n =? 47)%nat.

(** [urllib.parse.quote(s)]: the UTF-8 bytes of every other character,
    percent-encoded (two bytes for a code point from 128 to 255). *)
Fixpoint quote (s : string) : string :=
  match s with
  | EmptyString => EmptyString
  | String c tl =>
      let n := nat_of_ascii c in
      if quote_safe n then String c (quote tl)
      else if (n <? 128)%nat then percent n (quote tl)
      else percent (192 + n / 64) (percent (128 + n mod 64) (quote tl))
  end.

(** [str(n)] for an [int], as an f-string formats it. *)
Definition of_int (n : Z) : string := NilZero.string_of_int (Z.to_int n).

End PyStr.

(** ** Python [float] and the true division of two [int]s

    A float is a [spec_float] of binary64.  [int / int] is the correctly
    rounded quotient; it raises when the divisor is zero and when the quotient
    is out of the range of a float. *)
Module PyFloat.

Definition prec : Z := 53.
Definition emax : Z := 1024.

Definition float := spec_float.

(** An [int] as an unnormalised binary number (exact, of any size). *)
Definition of_int_exact (n : Z) : spec_float :=
  match n with
  | Z0 => S754_zero false
  | Zpos p => S754_finite false p 0
  | Zneg p => S754_finite true p 0
  end.

(** The literals [1.5], [0.7], [0.5] and [3] as binary64 values. *)
Definition f_1_5 : float := S754_finite false 6755399441055744 (-52).
Definition f_0_7 : float := S754_finite false 6305039478318694 (-53).
Definition f_0_5 : float := S754_finite false 4503599627370496 (-53).
Definition f_3 : float := S754_finite false 6755399441055744 (-51).

Definition gt (a b : float) : bool := SFltb b a.
Definition lt (a b : float) : bool := SFltb a b.
Definition le (a b : float) : bool := SFleb a b.

End PyFloat.

(** ** Exceptions and outcomes *)

Inductive exn : Type :=
| ZeroDivisionError
| OverflowError
| AttributeError (attr : string)
| KeyError (key : string)
| TypeError.

Inductive outcome (A : Type) : Type :=
| Ok (a : A)
| Raise (e : exn).
Arguments Ok {A} a.
Arguments Raise {A} e.

(** [a / b] for two [int]s. *)
Definition int_truediv (a b : Z) : outcome PyFloat.float :=
  if (b =? 0)%Z then Raise ZeroDivisionError
  else
    match SFdiv PyFloat.prec PyFloat.emax
                (PyFloat.of_int_exact a) (PyFloat.of_int_exact b) with
    | S754_infinity _ => Raise OverflowError
    | q => Ok q
    end.

(** ** Python values

    [VDict] is a [dict] with string keys, in insertion order; [VObj] is an
    instance of a model class with its [__dict__]. *)
#[warnings="-register-all"]
Inductive value : Type :=
| VNone
| VBool (b : bool)
| VInt (n : Z)
| VFloat (f : PyFloat.float)
| VStr (s : string)
| VList (items : list value)
| VDict (entries : list (string * value))
| VObj (cls : string) (attrs : list (string * value)).

(** [d.get(k)] *)
Fixpoint dict_get {A : Type} (k : string) (d : list (string * A)) : option A :=
  match d with
  | [] => None
  | (k', v) :: tl => if String.eqb k k' then Some v else dict_get k tl
  end.

(** [d[k] = v]: an existing key keeps its place. *)
Fixpoint dict_set {A : Type} (k : string) (v : A) (d : list (string * A))
  : list (string * A) :=
  match d with
  | [] => [(k, v)]
  | (k', v') :: tl =>
      if String.eqb k k' then (k, v) :: tl else (k', v') :: dict_set k v tl
  end.

Definition keys {A : Type} (d : list (string * A)) : list string := map fst d.

(** Truth value of an object, as [or] and [if] test it. *)
Definition truthy (v : value) : bool :=
  match v with
  | VNone => false
  | VBool b => b
  | VInt n => negb (n =? 0)%Z
  | VFloat f => match f with S754_zero _ => false | _ => true end
  | VStr s => negb (String.eqb s "")
  | VList l => match l with [] => false | _ => true end
  | VDict d => match d with [] => false | _ => true end
  | VObj _ _ => true
  end.

(** ** Asset providers ([asset_manager.py]) *)
Module Assets.

Inductive strategy : Type := unsplash | dalle | placeholder | mixed.

Inductive dalle_size : Type := s1024x1024 | s1792x1024 | s1024x1792.

(** The outside world of the providers.  [unsplash_api n query] is what the
    [n]-th request to the outside returns when it is a search: [None] when
    the request or the reading of its answer raises, otherwise the
    [urls.regular] of the results, in order.  [images_api n prompt size] is
    the URL of the generated image, [None] when the service raises. *)
Record services : Type := {
  unsplash_access_key : option string;
  unsplash_api : nat -> string -> option (list string);
  images_api : nat -> string -> dalle_size -> option string
}.

(** What is called, in order: the methods of [AssetManager] that the
    resolver calls, and the provider methods behind [get_image]. *)
Inductive event : Type :=
| GetImage (description : string) (width height : Z) (use_ai : bool)
| GetLogo (variant : string)
| GetSocialIcons (platforms : list string)
| UnsplashUrl (description : string) (width height : Z)
| SearchSpecificImage (query : string)
| GenerateImage (description : string) (size : dalle_size)
| PlaceholderUrl (description : string) (width height : Z).

Definition is_manager_call (e : event) : bool :=
  match e with
  | GetImage _ _ _ _ | GetLogo _ | GetSocialIcons _ => true
  | _ => false
  end.

Definition is_generate (e : event) : bool :=
  match e with
  | GenerateImage _ _ => true
  | _ => false
  end.

Record world : Type := {
  requests : nat;
  trace : list event
}.

Definition world0 : world := {| requests := 0; trace := [] |}.

(** Computations that read and extend the world and may raise. *)
Definition M (A : Type) : Type := world -> outcome (A * world).

Definition ret {A} (a : A) : M A := fun w => Ok (a, w).

Definition bind {A B} (m : M A) (k : A -> M B) : M B :=
  fun w => match m w with
           | Ok (a, w') => k a w'
           | Raise e => Raise e
           end.

Definition raise {A} (e : exn) : M A := fun _ => Raise e.

Definition lift {A} (o : outcome A) : M A :=
  fun w => match o with Ok a => Ok (a, w) | Raise e => Raise e end.

Definition log (e : event) : M unit :=
  fun w => Ok (tt, {| requests := requests w; trace := trace w ++ [e] |}).

(** One request to the outside: the oracle is read at the current count. *)
Definition request {A} (oracle : nat -> A) : M A :=
  fun w => Ok (oracle (requests w),
               {| requests := S (requests w); trace := trace w |}).

Declare Scope am_scope.
Delimit Scope am_scope with am.
Notation "x <- m ;; k" := (bind m (fun x => k))
  (at level 61, m at next level, right associativity) : am_scope.
Notation "m ;;; k" := (bind m (fun _ => k))
  (at level 61, right associativity) : am_scope.
Open Scope am_scope.

(** *** UnsplashProvider *)

(** [UnsplashProvider.get_image_url] *)
Definition unsplash_get_image_url (description : string) (width height : Z)
  : string :=
  "https://source.unsplash.com/" ++ PyStr.of_int width ++ "x"
    ++ PyStr.of_int height ++ "/?" ++ PyStr.quote description.

(** [not self.access_key] *)
Definition no_access_key (sv : services) : bool :=
  match unsplash_access_key sv with
  | None => true
  | Some k => String.eqb k ""
  end.

(** [UnsplashProvider.search_specific_image] *)
Definition search_specific_image (sv : services) (query : string)
  : M (option string) :=
  log (SearchSpecificImage query) ;;;
  if no_access_key sv then ret None
  else
    response <- request (fun n => unsplash_api sv n query) ;;
    match response with
    | Some (first :: _) => ret (Some first)
    | Some [] => ret None
    | None => ret None
    end.

(** *** DALLEProvider *)

(** [DALLEProvider._fallback_url] *)
Definition dalle_fallback_url (description : string) : string :=
  "https://placehold.co/800x600/2563eb/white?text="
    ++ PyStr.quote (PyStr.take 30 description).

(** [DALLEProvider.generate_image] *)
Definition generate_image (sv : services) (description : string)
           (size : dalle_size) : M string :=
  log (GenerateImage description size) ;;;
  response <- request (fun n => images_api sv n description size) ;;
  match response with
  | Some url => ret url
  | None => ret (dalle_fallback_url description)
  end.

(** *** PlaceholderProvider *)

(** [PlaceholderProvider.get_image_url] *)
Definition placeholder_get_image_url (description : string)
           (width height : Z) : string :=
  "https://placehold.co/" ++ PyStr.of_int width ++ "x"
    ++ PyStr.of_int height ++ "/e5e7eb/1f2937?text="
    ++ PyStr.quote (PyStr.take 50 description).

(** *** CustomAssetLibrary *)

Record CustomAssetLibrary : Type := { base_url : string }.

Definition default_library : CustomAssetLibrary :=
  {| base_url := "https://your-cdn.com/assets" |}.

Definition logos (lib : CustomAssetLibrary) : list (string * string) :=
  [ ("primary", base_url lib ++ "/logo-primary.png");
    ("white", base_url lib ++ "/logo-white.png");
    ("icon", base_url lib ++ "/logo-icon.png") ].

Definition social (lib : CustomAssetLibrary) : list (string * string) :=
  [ ("facebook", base_url lib ++ "/social/facebook.png");
    ("twitter", base_url lib ++ "/social/twitter.png");
    ("instagram", base_url lib ++ "/social/instagram.png");
    ("linkedin", base_url lib ++ "/social/linkedin.png") ].

Definition banners (lib : CustomAssetLibrary) : list (string * string) :=
  [ ("hero", base_url lib ++ "/banners/hero.jpg");
    ("promo", base_url lib ++ "/banners/promo.jpg") ].

(** [dict.get(key, default)] *)
Definition get_or {A} (d : list (string * A)) (k : string) (default : A) : A :=
  match dict_get k d with
  | Some v => v
  | None => default
  end.

(** [CustomAssetLibrary.get_logo] *)
Definition library_get_logo (lib : CustomAssetLibrary) (variant : string)
  : string :=
  get_or (logos lib) variant (base_url lib ++ "/logo-primary.png").

(** [CustomAssetLibrary.get_social_icon] *)
Definition library_get_social_icon (lib : CustomAssetLibrary)
           (platform : string) : string :=
  get_or (social lib) (PyStr.lower platform) "".

(** [CustomAssetLibrary.get_banner] *)
Definition library_get_banner (lib : CustomAssetLibrary) (type : string)
  : string :=
  get_or (banners lib) type "".

(** *** AssetManager *)

Record AssetManager : Type := {
  outside : services;
  custom : CustomAssetLibrary;
  policy : strategy
}.

(** [AssetManager._get_dalle_size] *)
Definition get_dalle_size (width height : Z) : outcome dalle_size :=
  match int_truediv width height with
  | Raise e => Raise e
  | Ok ratio =>
      if PyFloat.gt ratio PyFloat.f_1_5 then Ok s1792x1024
      else if PyFloat.lt ratio PyFloat.f_0_7 then Ok s1024x1792
      else Ok s1024x1024
  end.

Definition is_dalle_or_mixed (s : strategy) : bool :=
  match s with
  | dalle | mixed => true
  | _ => false
  end.

(** [AssetManager.get_image] *)
Definition get_image (am : AssetManager) (description : string)
           (width height : Z) (use_ai : bool) : M string :=
  log (GetImage description width height use_ai) ;;;
  if use_ai && is_dalle_or_mixed (policy am) then
    size <- lift (get_dalle_size width height) ;;
    generate_image (outside am) description size
  else
    match policy am with
    | unsplash =>
        log (UnsplashUrl description width height) ;;;
        ret (unsplash_get_image_url description width height)
    | placeholder =>
        log (PlaceholderUrl description width height) ;;;
        ret (placeholder_get_image_url description width height)
    | _ =>
        url <- search_specific_image (outside am) description ;;
        match url with
        | Some u =>
            if String.eqb u "" then
              log (PlaceholderUrl description width height) ;;;
              ret (placeholder_get_image_url description width height)
            else ret u
        | None =>
            log (PlaceholderUrl description width height) ;;;
            ret (placeholder_get_image_url description width height)
        end
    end.

(** [AssetManager.get_logo] *)
Definition get_logo (am : AssetManager) (variant : string) : M string :=
  log (GetLogo variant) ;;;
  ret (library_get_logo (custom am) variant).

(** The dict comprehension of [get_social_icons], from the entries made so
    far. *)
Fixpoint social_icons_from (am : AssetManager) (platforms : list string)
         (icons : list (string * string)) : list (string * string) :=
  match platforms with
  | [] => icons
  | platform :: rest =>
      social_icons_from am rest
        (dict_set platform (library_get_social_icon (custom am) platform) icons)
  end.

(** [AssetManager.get_social_icons] *)
Definition get_social_icons (am : AssetManager) (platforms : list string)
  : M (list (string * string)) :=
  log (GetSocialIcons platforms) ;;;
  ret (social_icons_from am platforms []).

End Assets.

(** ** pydantic models

    A model class is the table of its fields ([TModel]); [validate] is
    [model_validate] on a value read from JSON, and [model_dump] is
    [model_dump(by_alias=True, exclude_none=True)]. *)
Module Pydantic.

Record field (T : Type) : Type := Field {
  fname : string;            (* the attribute *)
  falias : option string;    (* [Field(alias=...)] *)
  frequired : bool;          (* no default; otherwise [Optional], default [None] *)
  ftyp : T
}.
Arguments Field {T} fname falias frequired ftyp.
Arguments fname {T} f.
Arguments falias {T} f.
Arguments frequired {T} f.
Arguments ftyp {T} f.

#[warnings="-register-all"]
Inductive ftype : Type :=
| TStr
| TInt (ge le : option Z)
| TFloat (ge le : option PyFloat.float)
| TBool
| TLiteral (choices : list string)
| TDictAny                                       (* [dict[str, Any]] *)
| TList (elem : ftype) (min_length max_length : option nat)
| TModel (name : string) (populate_by_name : bool) (fields : list (field ftype))
| TUnion (members : list ftype).

(** The declarations of a class body. *)
Definition req (name : string) (t : ftype) : field ftype :=
  Field name None true t.
Definition req_as (name alias : string) (t : ftype) : field ftype :=
  Field name (Some alias) true t.
Definition opt (name : string) (t : ftype) : field ftype :=
  Field name None false t.
Definition opt_as (name alias : string) (t : ftype) : field ftype :=
  Field name (Some alias) false t.

Definition Int : ftype := TInt None None.
Definition IntGe (lo : Z) : ftype := TInt (Some lo) None.
Definition IntIn (lo hi : Z) : ftype := TInt (Some lo) (Some hi).
Definition FloatIn (lo hi : PyFloat.float) : ftype := TFloat (Some lo) (Some hi).
Definition List_ (t : ftype) : ftype := TList t None None.

(** The key of a field in the wire form: its alias when it has one. *)
Definition wire_name {T} (f : field T) : string :=
  match falias f with
  | Some a => a
  | None => fname f
  end.

Definition type_name (t : ftype) : string :=
  match t with
  | TStr => "str"
  | TInt _ _ => "int"
  | TFloat _ _ => "float"
  | TBool => "bool"
  | TLiteral _ => "Literal"
  | TDictAny => "dict"
  | TList _ _ _ => "list"
  | TModel name _ _ => name
  | TUnion _ => "Union"
  end.

(** What a validation reports: the first violation in field order (pydantic
    lists every one; whether a value is accepted is the same). *)
#[warnings="-register-all"]
Inductive error : Type :=
| missing
| wrong_type (expected : string)
| greater_than_equal (bound : Z)
| less_than_equal (bound : Z)
| out_of_range
| too_short (min_length : nat)
| too_long (max_length : nat)
| literal_error (expected : list string)
| at_field (name : string) (e : error)
| at_item (index : nat) (e : error)
| no_member (errors : list (string * error)).   (* a union: every member's error *)

Inductive result (A : Type) : Type :=
| Valid (a : A)
| Invalid (e : error).
Arguments Valid {A} a.
Arguments Invalid {A} e.

(** pydantic's lax mode turns some scalars into others (a numeric string or
    a float without fraction into an [int], ...).  These conversions are a
    parameter of the validator: they apply to a scalar of another type
    only. *)
Record lax_mode : Type := {
  lax_int : value -> option Z;
  lax_float : value -> option PyFloat.float;
  lax_bool : value -> option bool
}.

Definition is_scalar (v : value) : bool :=
  match v with
  | VBool _ | VInt _ | VFloat _ | VStr _ => true
  | _ => false
  end.

Definition coerce {A} (conv : value -> option A) (v : value) : option A :=
  if is_scalar v then conv v else None.

(** No conversion at all: strict scalars. *)
Definition strict : lax_mode :=
  {| lax_int := fun _ => None;
     lax_float := fun _ => None;
     lax_bool := fun _ => None |}.

Definition check_int (ge le : option Z) (n : Z) : result value :=
  match ge with
  | Some lo => if (n <? lo)%Z then Invalid (greater_than_equal lo) else
      match le with
      | Some hi => if (hi <? n)%Z then Invalid (less_than_equal hi) else Valid (VInt n)
      | None => Valid (VInt n)
      end
  | None =>
      match le with
      | Some hi => if (hi <? n)%Z then Invalid (less_than_equal hi) else Valid (VInt n)
      | None => Valid (VInt n)
      end
  end.

Definition float_ge (bound : option PyFloat.float) (x : PyFloat.float) : bool :=
  match bound with
  | Some lo => PyFloat.le lo x
  | None => true
  end.

Definition float_le (bound : option PyFloat.float) (x : PyFloat.float) : bool :=
  match bound with
  | Some hi => PyFloat.le x hi
  | None => true
  end.

Definition check_float (ge le : option PyFloat.float) (x : PyFloat.float)
  : result value :=
  if float_ge ge x && float_le le x then Valid (VFloat x) else Invalid out_of_range.

Definition check_length (min_length max_length : option nat) (n : nat)
  : option error :=
  match min_length with
  | Some lo => if (n <? lo)%nat then Some (too_short lo) else
      match max_length with
      | Some hi => if (hi <? n)%nat then Some (too_long hi) else None
      | None => None
      end
  | None =>
      match max_length with
      | Some hi => if (hi <? n)%nat then Some (too_long hi) else None
      | None => None
      end
  end.

(** The value given for a field: by alias, and by name as well under
    [populate_by_name]; a field without alias goes by its name. *)
Definition lookup_field {T} (populate_by_name : bool) (f : field T)
           (entries : list (string * value)) : option value :=
  match falias f with
  | Some a =>
      match dict_get a entries with
      | Some x => Some x
      | None => if populate_by_name then dict_get (fname f) entries else None
      end
  | None => dict_get (fname f) entries
  end.

(** One field of a model: [check] validates a given value. *)
Definition validate_field {T} (check : value -> result value)
           (populate_by_name : bool) (f : field T)
           (entries : list (string * value)) : result value :=
  match lookup_field populate_by_name f entries with
  | Some VNone =>
      if frequired f then Invalid (wrong_type "not None") else Valid VNone
  | Some x => check x
  | None => if frequired f then Invalid missing else Valid VNone
  end.

(** The key that an error of a field is reported under: the key its value
    was found by, and the wire name of a field that is missing. *)
Definition error_key {T} (populate_by_name : bool) (f : field T)
           (entries : list (string * value)) : string :=
  match falias f with
  | Some a =>
      match dict_get a entries with
      | Some _ => a
      | None =>
          if populate_by_name
          then match dict_get (fname f) entries with
               | Some _ => fname f
               | None => a
               end
          else a
      end
  | None => fname f
  end.

(** The attributes of the instance, or the first field's error.  A field
    comes with its attribute name, its key for an error, and its result. *)
Fixpoint collect_fields (rs : list (string * string * result value))
  : result (list (string * value)) :=
  match rs with
  | [] => Valid []
  | (name, key, r) :: rest =>
      match r with
      | Invalid e => Invalid (at_field key e)
      | Valid x =>
          match collect_fields rest with
          | Valid xs => Valid ((name, x) :: xs)
          | Invalid e => Invalid e
          end
      end
  end.

(** The items of the list, or the first item's error. *)
Fixpoint collect_items (index : nat) (rs : list (result value))
  : result (list value) :=
  match rs with
  | [] => Valid []
  | r :: rest =>
      match r with
      | Invalid e => Invalid (at_item index e)
      | Valid x =>
          match collect_items (S index) rest with
          | Valid xs => Valid (x :: xs)
          | Invalid e => Invalid e
          end
      end
  end.

(** A union: the first member, in the order of declaration, that accepts
    the value.  (For the unions of this repository that is pydantic's smart
    mode: no value is accepted by two members that set equally many
    fields.) *)
Fixpoint first_member (rs : list (string * result value)) : result value :=
  match rs with
  | [] => Invalid (no_member [])
  | (name, r) :: rest =>
      match r with
      | Valid x => Valid x
      | Invalid e =>
          match first_member rest with
          | Valid x => Valid x
          | Invalid (no_member es) => Invalid (no_member ((name, e) :: es))
          | Invalid e' => Invalid e'
          end
      end
  end.

Section Validate.

Variable lax : lax_mode.

(** [model_validate]: the instance, or the error. *)
Fixpoint validate (t : ftype) (v : value) {struct t} : result value :=
  match t with
  | TStr =>
      match v with
      | VStr _ => Valid v
      | _ => Invalid (wrong_type "str")
      end
  | TInt ge le =>
      match v with
      | VInt n => check_int ge le n
      | _ =>
          match coerce (lax_int lax) v with
          | Some n => check_int ge le n
          | None => Invalid (wrong_type "int")
          end
      end
  | TFloat ge le =>
      match v with
      | VFloat x => check_float ge le x
      | _ =>
          match coerce (lax_float lax) v with
          | Some x => check_float ge le x
          | None => Invalid (wrong_type "float")
          end
      end
  | TBool =>
      match v with
      | VBool _ => Valid v
      | _ =>
          match coerce (lax_bool lax) v with
          | Some b => Valid (VBool b)
          | None => Invalid (wrong_type "bool")
          end
      end
  | TLiteral choices =>
      match v with
      | VStr s =>
          if existsb (String.eqb s) choices then Valid v
          else Invalid (literal_error choices)
      | _ => Invalid (literal_error choices)
      end
  | TDictAny =>
      match v with
      | VDict _ => Valid v
      | _ => Invalid (wrong_type "dict")
      end
  | TList elem min_length max_length =>
      match v with
      | VList items =>
          match check_length min_length max_length (List.length items) with
          | Some e => Invalid e
          | None =>
              match collect_items 0 (map (validate elem) items) with
              | Valid xs => Valid (VList xs)
              | Invalid e => Invalid e
              end
          end
      | _ => Invalid (wrong_type "list")
      end
  | TModel name populate_by_name fields =>
      match v with
      | VDict entries =>
          match collect_fields
                  (map (fun f => (fname f,
                                  error_key populate_by_name f entries,
                                  validate_field (validate (ftyp f))
                                                 populate_by_name f entries))
                       fields) with
          | Valid attrs => Valid (VObj name attrs)
          | Invalid e => Invalid e
          end
      | _ => Invalid (wrong_type name)
      end
  | TUnion members =>
      first_member (map (fun m => (type_name m, validate m v)) members)
  end.

End Validate.

(** [model_dump(by_alias=True, exclude_none=True)]: the wire form.  A field
    that is [None] is left out; the entries of a [dict[str, Any]] are kept
    as they are. *)
Fixpoint model_dump (t : ftype) (v : value) {struct t} : value :=
  match t with
  | TList elem _ _ =>
      match v with
      | VList items => VList (map (model_dump elem) items)
      | _ => v
      end
  | TModel _ _ fields =>
      match v with
      | VObj _ attrs =>
          VDict (flat_map
                   (fun f =>
                      match dict_get (fname f) attrs with
                      | Some VNone => []
                      | Some x => [(wire_name f, model_dump (ftyp f) x)]
                      | None => []
                      end)
                   fields)
      | _ => v
      end
  | TUnion members =>
      match v with
      | VObj cls _ =>
          (fix by_class (ms : list ftype) : value :=
             match ms with
             | [] => v
             | m :: rest =>
                 if String.eqb (type_name m) cls then model_dump m v
                 else by_class rest
             end) members
      | _ => v
      end
  | _ => v
  end.

(** [obj.name] *)
Definition getattr (obj : value) (name : string) : option value :=
  match obj with
  | VObj _ attrs => dict_get name attrs
  | _ => None
  end.

(** The items of a list attribute ([[]] when there is none). *)
Definition items_of (obj : option value) : list value :=
  match obj with
  | Some (VList items) => items
  | _ => []
  end.

End Pydantic.

(** ** The document model of [agent.py] *)
Module Agent.
Import Pydantic.

Definition Target : ftype := TLiteral ["_blank"; "_self"; "_top"].
Definition Padding : ftype := IntIn 0 60.
Definition CustomFields : field ftype := opt_as "custom_fields" "customFields" TDictAny.

Definition ButtonModule : ftype := TModel "ButtonModule" true
  [ req "type" (TLiteral ["button"]);
    opt "label" TStr;
    opt "text" TStr;
    opt "align" (TLiteral ["left"; "center"; "right"]);
    opt "href" TStr;
    opt "target" Target;
    opt "size" (IntGe 1);
    opt "color" TStr;
    opt_as "background_color" "background-color" TStr;
    opt_as "padding_top" "padding-top" Padding;
    opt_as "padding_right" "padding-right" Padding;
    opt_as "padding_bottom" "padding-bottom" Padding;
    opt_as "padding_left" "padding-left" Padding;
    opt_as "content_padding_top" "contentPaddingTop" Padding;
    opt_as "content_padding_right" "contentPaddingRight" Padding;
    opt_as "content_padding_bottom" "contentPaddingBottom" Padding;
    opt_as "content_padding_left" "contentPaddingLeft" Padding;
    opt_as "hover_background_color" "hoverBackgroundColor" TStr;
    opt_as "hover_color" "hoverColor" TStr;
    opt_as "hover_border_color" "hoverBorderColor" TStr;
    opt_as "hover_border_width" "hoverBorderWidth" (IntIn 0 30);
    opt_as "border_radius" "border-radius" (IntIn 0 60);
    opt_as "border_color" "border-color" TStr;
    opt_as "border_width" "border-width" (IntIn 0 30);
    opt "locked" TBool;
    CustomFields ].

Definition DividerModule : ftype := TModel "DividerModule" true
  [ req "type" (TLiteral ["divider"]);
    opt "color" TStr;
    opt "height" (IntIn 1 30);
    opt "width" (IntIn 1 100);
    opt_as "padding_top" "padding-top" Padding;
    opt_as "padding_right" "padding-right" Padding;
    opt_as "padding_bottom" "padding-bottom" Padding;
    opt_as "padding_left" "padding-left" Padding;
    opt "locked" TBool;
    CustomFields ].

Definition HtmlModule : ftype := TModel "HtmlModule" true
  [ req "type" (TLiteral ["html"]);
    opt "html" TStr;
    opt "locked" TBool;
    CustomFields ].

Definition Icon : ftype := TModel "Icon" true
  [ opt "alt" TStr;
    opt "text" TStr;
    opt "title" TStr;
    req "image" TStr;
    opt "href" TStr;
    req "height" TStr;
    req "width" TStr;
    opt "target" Target;
    req_as "text_position" "textPosition"
           (TLiteral ["left"; "right"; "top"; "bottom"]) ].

Definition IconsModule : ftype := TModel "IconsModule" true
  [ req "type" (TLiteral ["icons"]);
    opt "icons" (List_ Icon);
    opt_as "padding_top" "padding-top" Padding;
    opt_as "padding_right" "padding-right" Padding;
    opt_as "padding_bottom" "padding-bottom" Padding;
    opt_as "padding_left" "padding-left" Padding;
    opt "locked" TBool;
    CustomFields ].

Definition ImageModule : ftype := TModel "ImageModule" true
  [ req "type" (TLiteral ["image"]);
    opt "alt" TStr;
    opt "href" TStr;
    opt "src" TStr;
    opt_as "dynamic_src" "dynamicSrc" TStr;
    opt "target" Target;
    opt_as "padding_top" "padding-top" Padding;
    opt_as "padding_right" "padding-right" Padding;
    opt_as "padding_bottom" "padding-bottom" Padding;
    opt_as "padding_left" "padding-left" Padding;
    opt "locked" TBool;
    CustomFields ].

Definition LineHeight : ftype := FloatIn PyFloat.f_0_5 PyFloat.f_3.

Definition ListModule : ftype := TModel "ListModule" true
  [ req "type" (TLiteral ["list"]);
    opt "underline" TBool;
    opt "italic" TBool;
    opt "bold" TBool;
    opt "html" TStr;
    opt "text" TStr;
    opt "align" (TLiteral ["left"; "center"; "right"]);
    opt "tag" (TLiteral ["ol"; "ul"]);
    opt "size" (IntGe 1);
    opt "color" TStr;
    opt_as "link_color" "linkColor" TStr;
    opt_as "letter_spacing" "letter-spacing" (IntIn (-99) 99);
    opt_as "line_height" "line-height" LineHeight;
    opt "direction" (TLiteral ["ltr"; "rtl"]);
    opt_as "padding_top" "padding-top" Padding;
    opt_as "padding_right" "padding-right" Padding;
    opt_as "padding_bottom" "padding-bottom" Padding;
    opt_as "padding_left" "padding-left" Padding;
    opt "locked" TBool;
    CustomFields ].

Definition MenuLink : ftype := TModel "MenuLink" false
  [ opt "title" TStr;
    opt "href" TStr;
    opt "target" Target ].

Definition MenuItem : ftype := TModel "MenuItem" false
  [ req "type" (TLiteral ["menu-item"]);
    opt "text" TStr;
    opt "link" MenuLink ].

Definition MenuModule : ftype := TModel "MenuModule" true
  [ req "type" (TLiteral ["menu"]);
    opt "items" (List_ MenuItem);
    opt_as "padding_top" "padding-top" Padding;
    opt_as "padding_right" "padding-right" Padding;
    opt_as "padding_bottom" "padding-bottom" Padding;
    opt_as "padding_left" "padding-left" Padding;
    opt "locked" TBool;
    CustomFields ].

Definition ParagraphModule : ftype := TModel "ParagraphModule" true
  [ req "type" (TLiteral ["paragraph"]);
    opt "underline" TBool;
    opt "italic" TBool;
    opt "bold" TBool;
    opt "html" TStr;
    opt "text" TStr;
    opt "align" (TLiteral ["left"; "center"; "right"; "justify"]);
    opt "size" (IntGe 1);
    opt "color" TStr;
    opt_as "link_color" "linkColor" TStr;
    opt_as "letter_spacing" "letter-spacing" (IntIn (-99) 99);
    opt_as "line_height" "line-height" LineHeight;
    opt "direction" (TLiteral ["ltr"; "rtl"]);
    opt_as "padding_top" "padding-top" Padding;
    opt_as "padding_right" "padding-right" Padding;
    opt_as "padding_bottom" "padding-bottom" Padding;
    opt_as "padding_left" "padding-left" Padding;
    opt "locked" TBool;
    CustomFields ].

Definition TitleModule : ftype := TModel "TitleModule" true
  [ req "type" (TLiteral ["title"; "heading"]);
    opt "underline" TBool;
    opt "italic" TBool;
    opt "bold" TBool;
    opt "html" TStr;
    opt "text" TStr;
    opt "align" (TLiteral ["left"; "center"; "right"; "justify"]);
    opt "title" (TLiteral ["h1"; "h2"; "h3"]);
    opt "size" (IntGe 1);
    opt "color" TStr;
    opt_as "link_color" "linkColor" TStr;
    opt_as "letter_spacing" "letter-spacing" (IntIn (-99) 99);
    opt_as "line_height" "line-height" LineHeight;
    opt "direction" (TLiteral ["ltr"; "rtl"]);
    opt_as "padding_top" "padding-top" Padding;
    opt_as "padding_right" "padding-right" Padding;
    opt_as "padding_bottom" "padding-bottom" Padding;
    opt_as "padding_left" "padding-left" Padding;
    opt "locked" TBool;
    CustomFields ].

(** [Module = Union[...]] *)
Definition Module_ : ftype := TUnion
  [ ButtonModule; DividerModule; HtmlModule; IconsModule; ImageModule;
    ListModule; MenuModule; ParagraphModule; TitleModule ].

(** The type tags of the closed set of module variants. *)
Definition module_tags : list string :=
  [ "button"; "divider"; "html"; "icons"; "image"; "list"; "menu";
    "paragraph"; "title"; "heading" ].

Definition Column : ftype := TModel "Column" true
  [ req "weight" (IntIn 1 12);
    req "modules" (List_ Module_);
    opt_as "background_color" "background-color" TStr;
    opt_as "padding_top" "padding-top" Padding;
    opt_as "padding_right" "padding-right" Padding;
    opt_as "padding_bottom" "padding-bottom" Padding;
    opt_as "padding_left" "padding-left" Padding;
    opt_as "border_color" "border-color" TStr;
    opt_as "border_width" "border-width" (IntIn 0 30);
    CustomFields ].

Definition DisplayCondition : ftype := TModel "DisplayCondition" false
  [ req "type" TStr;
    opt "label" TStr;
    opt "description" TStr;
    opt "before" TStr;
    opt "after" TStr ].

Definition Row : ftype := TModel "Row" true
  [ req "name" TStr;
    req "columns" (TList Column (Some 1%nat) (Some 12%nat));
    opt "locked" TBool;
    opt_as "col_stack_on_mobile" "colStackOnMobile" TBool;
    opt_as "row_reverse_col_stack_on_mobile" "rowReverseColStackOnMobile" TBool;
    opt_as "content_area_background_color" "contentAreaBackgroundColor" TStr;
    opt_as "background_color" "background-color" TStr;
    opt_as "background_image" "background-image" TStr;
    opt_as "background_position" "background-position" TStr;
    opt_as "background_repeat" "background-repeat" TStr;
    opt_as "border_radius" "border-radius" (IntIn 0 60);
    opt_as "border_color" "border-color" TStr;
    opt_as "border_width" "border-width" (IntIn 0 30);
    opt_as "columns_border_radius" "columnsBorderRadius" (IntIn 0 60);
    opt_as "columns_spacing" "columnsSpacing" (IntIn 0 99);
    opt_as "vertical_align" "vertical-align" (TLiteral ["top"; "middle"; "bottom"]);
    opt_as "display_condition" "display-condition" DisplayCondition;
    opt "metadata" TDictAny;
    opt_as "padding_top" "padding-top" Padding;
    opt_as "padding_right" "padding-right" Padding;
    opt_as "padding_bottom" "padding-bottom" Padding;
    opt_as "padding_left" "padding-left" Padding;
    CustomFields ].

Definition Settings : ftype := TModel "Settings" true
  [ opt_as "link_color" "linkColor" TStr;
    opt_as "background_color" "background-color" TStr;
    opt_as "content_area_background_color" "contentAreaBackgroundColor" TStr;
    opt "width" (IntIn 320 1440) ].

Definition Metadata : ftype := TModel "Metadata" false
  [ opt "lang" TStr;
    opt "title" TStr;
    opt "description" TStr;
    opt "subject" TStr;
    opt "preheader" TStr ].

Definition Template : ftype := TModel "Template" false
  [ req "type" (TLiteral ["email"; "page"; "popup"]);
    req "rows" (TList Row (Some 1%nat) None);
    opt "settings" Settings;
    opt "metadata" Metadata ].

Definition EmailTemplate : ftype := TModel "EmailTemplate" false
  [ req "template" Template ].

(** The rows, columns and modules of a document, as
    [print_template_summary] reads them. *)
Definition rows_of (doc : value) : list value :=
  match getattr doc "template" with
  | Some t => items_of (getattr t "rows")
  | None => []
  end.
Definition columns_of (row : value) : list value := items_of (getattr row "columns").
Definition modules_of (column : value) : list value := items_of (getattr column "modules").

End Agent.

(** ** The simplified document model of [asset_manager.py] and the resolver *)
Module Resolver.
Import Pydantic Assets.

(** [class Module(BaseModel): type: str] *)
Definition Module_ : ftype := TModel "Module" false
  [ req "type" TStr ].

(** [class ImageModule(Module)] *)
Definition ImageModule : ftype := TModel "ImageModule" false
  [ req "type" (TLiteral ["image"]);
    req "src" TStr;
    req "alt" TStr;
    opt "href" TStr;
    opt "target" (TLiteral ["_blank"; "_self"; "_top"]) ].

(** [class ButtonModule(Module)] *)
Definition ButtonModule : ftype := TModel "ButtonModule" false
  [ req "type" (TLiteral ["button"]);
    req "text" TStr;
    req "href" TStr;
    opt_as "background_color" "background-color" TStr ].

Definition Column : ftype := TModel "Column" false
  [ req "weight" Int;
    req "modules" (List_ (TUnion [ImageModule; ButtonModule; Module_])) ].

Definition Row : ftype := TModel "Row" false
  [ req "name" TStr;
    req "columns" (List_ Column) ].

Definition Template : ftype := TModel "Template" false
  [ req "type" (TLiteral ["email"; "page"; "popup"]);
    req "rows" (List_ Row) ].

Definition EmailTemplate : ftype := TModel "EmailTemplate" false
  [ req "template" Template ].

(** The local [asset_map] of [generate_template_with_assets]. *)
Definition asset_map : Type := list (string * string).

(** [obj.alt or description], the first argument of [get_image]. *)
Definition alt_or (attrs : list (string * value)) (description : string)
  : outcome string :=
  match dict_get "alt" attrs with
  | None => Raise (AttributeError "alt")
  | Some alt =>
      if truthy alt then
        match alt with
        | VStr a => Ok a
        | _ => Raise TypeError
        end
      else Ok description
  end.

(** [use_ai = "custom" in description or "generate" in description.lower()] *)
Definition use_ai_of (description : string) : bool :=
  PyStr.contains "custom" description
  || PyStr.contains "generate" (PyStr.lower description).

(** The URL for one reference: the three branches on [description]. *)
Definition resolve_description (am : AssetManager)
           (attrs : list (string * value)) (description : string) : M string :=
  if PyStr.startswith description "logo-" then
    let variant := PyStr.replace description "logo-" "" in
    get_logo am variant
  else if PyStr.startswith description "social-" then
    let platform := PyStr.replace description "social-" "" in
    icons <- get_social_icons am [platform] ;;
    match dict_get platform icons with
    | Some url => ret url
    | None => raise (KeyError platform)
    end
  else
    let use_ai := use_ai_of description in
    query <- lift (alt_or attrs description) ;;
    get_image am query 800 600 use_ai.

(** The [isinstance(obj, ImageModule)] branch of [resolve_assets], on the
    attributes of [obj]: the new attributes and the new [asset_map]. *)
Definition resolve_image (am : AssetManager) (attrs : list (string * value))
           (assets : asset_map) : M (list (string * value) * asset_map) :=
  match dict_get "src" attrs with
  | None => raise (AttributeError "src")
  | Some (VStr description) =>
      url <- resolve_description am attrs description ;;
      let assets' := dict_set description url assets in
      match dict_get description assets' with
      | Some resolved => ret (dict_set "src" (VStr resolved) attrs, assets')
      | None => raise (KeyError description)
      end
  | Some _ => raise (AttributeError "startswith")
  end.

Definition is_image_class (cls : string) : bool := String.eqb cls "ImageModule".

(** [resolve_assets(obj)]: the object after the pass (the source updates it
    in place) and the [asset_map]. *)
Fixpoint resolve_assets (am : AssetManager) (obj : value) (assets : asset_map)
         {struct obj} : M (value * asset_map) :=
  match obj with
  | VObj cls attrs =>
      if is_image_class cls then
        r <- resolve_image am attrs assets ;;
        ret (VObj cls (fst r), snd r)
      else
        (* for value in obj.__dict__.values(): resolve_assets(value) *)
        r <- (fix over_attrs (l : list (string * value)) (assets : asset_map)
                : M (list (string * value) * asset_map) :=
                match l with
                | [] => ret ([], assets)
                | (k, v) :: rest =>
                    r1 <- resolve_assets am v assets ;;
                    r2 <- over_attrs rest (snd r1) ;;
                    ret ((k, fst r1) :: fst r2, snd r2)
                end) attrs assets ;;
        ret (VObj cls (fst r), snd r)
  | VList items =>
      (* for item in obj: resolve_assets(item) *)
      r <- (fix over_items (l : list value) (assets : asset_map)
              : M (list value * asset_map) :=
              match l with
              | [] => ret ([], assets)
              | item :: rest =>
                  r1 <- resolve_assets am item assets ;;
                  r2 <- over_items rest (snd r1) ;;
                  ret (fst r1 :: fst r2, snd r2)
              end) items assets ;;
      ret (VList (fst r), snd r)
  | _ => ret (obj, assets)
  end.

(** The second step of [generate_template_with_assets], from the parsed
    template on: [(template, asset_map)]. *)
Definition resolve_template (am : AssetManager) (template : value)
  : M (value * asset_map) :=
  resolve_assets am template [].

(** The attributes of the [ImageModule] objects the walk reaches, in the
    order of the walk. *)
Fixpoint images (obj : value) : list (list (string * value)) :=
  match obj with
  | VObj cls attrs =>
      if is_image_class cls then [attrs]
      else flat_map (fun kv => images (snd kv)) attrs
  | VList items => flat_map images items
  | _ => []
  end.

(** The reference string of an image module. *)
Definition src_of (attrs : list (string * value)) : option string :=
  match dict_get "src" attrs with
  | Some (VStr s) => Some s
  | _ => None
  end.

Definition alt_of (attrs : list (string * value)) : option string :=
  match dict_get "alt" attrs with
  | Some (VStr s) => Some s
  | _ => None
  end.

(** The reference strings of a document, an entry per image module. *)
Definition references (obj : value) : list string :=
  flat_map (fun attrs => match src_of attrs with Some s => [s] | None => [] end)
           (images obj).

(** An object with the [src] of every image module blanked: all that the
    pass is not meant to touch. *)
Fixpoint without_src (obj : value) : value :=
  match obj with
  | VObj cls attrs =>
      if is_image_class cls then VObj cls (dict_set "src" VNone attrs)
      else VObj cls (map (fun kv => (fst kv, without_src (snd kv))) attrs)
  | VList items => VList (map without_src items)
  | _ => obj
  end.

End Resolver.

(** ** [generate_template_with_assets] and [save_with_asset_metadata] *)
Module Pipeline.
Import Pydantic Assets Resolver.

(** How a call of [generate_template_with_assets] ends. *)
Inductive generated : Type :=
| Returned (template : value) (assets : asset_map) (w : world)
| ValueError (message : string)
| Raised (e : exn).

(** [generate_template_with_assets], from the answer of the completion on:
    [parsed] is [completion.choices[0].message.parsed], an instance of
    [EmailTemplate] or [None]. *)
Definition generate_template_with_assets (parsed : value) (am : AssetManager)
           (w : world) : generated :=
  if negb (truthy parsed) then ValueError "Template konnte nicht generiert werden"
  else
    match resolve_assets am parsed [] w with
    | Ok ((template, assets), w') => Returned template assets w'
    | Raise e => Raised e
    end.

(** The [output] that [save_with_asset_metadata] writes to the file. *)
Definition save_with_asset_metadata (template : value) (assets : asset_map)
  : value :=
  VDict
    [ ("template", model_dump EmailTemplate template);
      ("assets",
       VDict
         [ ("count", VInt (Z.of_nat (List.length assets)));
           ("urls", VDict (map (fun kv => (fst kv, VStr (snd kv))) assets));
           ("generated_at", VStr "2025-01-10T12:00:00Z") ]) ].

End Pipeline.

(** ** [print_template_summary] and the accesses of [main] ([agent.py]) *)
Module Summary.
Import Pydantic Agent.

(** A line of the summary: the text given to one [print].  [Heading] is
    the title line, whose first character is outside the strings of this
    model. *)
Inductive line : Type :=
| Heading
| Text (s : string).

Definition newline : string := String (ascii_of_nat 10) "".

(** [s * n] *)
Fixpoint times (s : string) (n : nat) : string :=
  match n with
  | O => ""
  | S k => s ++ times s k
  end.

Definition rule : string := times "=" 60.

(** [sep.join(parts)] *)
Definition join (sep : string) (parts : list string) : string :=
  String.concat sep parts.

Definition and_then {A B} (o : outcome A) (k : A -> outcome B) : outcome B :=
  match o with
  | Ok a => k a
  | Raise e => Raise e
  end.

Notation "'let*' x ':=' o 'in' k" := (and_then o (fun x => k))
  (at level 10, x name, o at level 100, k at level 200).

(** [obj.name] *)
Definition attr (obj : value) (name : string) : outcome value :=
  match getattr obj name with
  | Some x => Ok x
  | None => Raise (AttributeError name)
  end.

(** The attributes that the summary reads, at the type the model gives
    them.  A value of another type is a [TypeError] here; in an instance
    of the model there is none. *)
Definition str_attr (obj : value) (name : string) : outcome string :=
  let* x := attr obj name in
  match x with
  | VStr s => Ok s
  | _ => Raise TypeError
  end.

Definition int_attr (obj : value) (name : string) : outcome Z :=
  let* x := attr obj name in
  match x with
  | VInt n => Ok n
  | _ => Raise TypeError
  end.

Definition list_attr (obj : value) (name : string) : outcome (list value) :=
  let* x := attr obj name in
  match x with
  | VList items => Ok items
  | _ => Raise TypeError
  end.

Fixpoint for_each {A B} (f : A -> outcome B) (l : list A) : outcome (list B) :=
  match l with
  | [] => Ok []
  | x :: rest =>
      let* y := f x in
      let* ys := for_each f rest in
      Ok (y :: ys)
  end.

(** [sum(len(col.modules) for row in t.rows for col in row.columns)] *)
Definition total_modules (rows : list value) : outcome nat :=
  let* per_row :=
    for_each (fun row =>
                let* columns := list_attr row "columns" in
                for_each (fun col =>
                            let* modules := list_attr col "modules" in
                            Ok (List.length modules))
                         columns)
             rows in
  Ok (list_sum (List.concat per_row)).

(** [f"{col.weight}/12"] *)
Definition column_weight (col : value) : outcome string :=
  let* weight := int_attr col "weight" in
  Ok (PyStr.of_int weight ++ "/12").

(** [", ".join(m.type for m in col.modules)] *)
Definition module_types (col : value) : outcome string :=
  let* modules := list_attr col "modules" in
  let* types := for_each (fun m => str_attr m "type") modules in
  Ok (join ", " types).

(** [for j, col in enumerate(row.columns, 1)] *)
Fixpoint column_lines (j : nat) (columns : list value) : outcome (list line) :=
  match columns with
  | [] => Ok []
  | col :: rest =>
      let* types := module_types col in
      let* lines := column_lines (S j) rest in
      Ok (Text ("     Col " ++ PyStr.of_int (Z.of_nat j) ++ ": " ++ types) :: lines)
  end.

(** [for i, row in enumerate(t.rows, 1)] *)
Fixpoint row_lines (i : nat) (rows : list value) : outcome (list line) :=
  match rows with
  | [] => Ok []
  | row :: rest =>
      let* columns := list_attr row "columns" in
      let* weights := for_each column_weight columns in
      let* name := str_attr row "name" in
      let* cols := column_lines 1 columns in
      let* lines := row_lines (S i) rest in
      Ok ((Text ("  " ++ PyStr.of_int (Z.of_nat i) ++ ". " ++ name ++ ": ["
                      ++ join ", " weights ++ "]") :: cols) ++ lines)%list
  end.

(** [if obj.name: print(...)] *)
Definition optional_line (obj : value) (name : string)
           (text : value -> outcome string) : outcome (list line) :=
  let* x := attr obj name in
  if truthy x then
    let* s := text x in
    Ok [Text s]
  else Ok [].

Definition width_text (x : value) : outcome string :=
  match x with
  | VInt n => Ok ("  Width: " ++ PyStr.of_int n ++ "px")
  | _ => Raise TypeError
  end.

Definition labelled (label : string) (x : value) : outcome string :=
  match x with
  | VStr s => Ok (label ++ s)
  | _ => Raise TypeError
  end.

(** [if t.settings: ...] *)
Definition settings_lines (t : value) : outcome (list line) :=
  let* settings := attr t "settings" in
  if truthy settings then
    let* width := optional_line settings "width" width_text in
    let* background :=
      optional_line settings "background_color" (labelled "  Background: ") in
    Ok (Text (newline ++ "Settings:") :: width ++ background)%list
  else Ok [].

(** [if t.metadata: ...] *)
Definition metadata_lines (t : value) : outcome (list line) :=
  let* metadata := attr t "metadata" in
  if truthy metadata then
    let* title := optional_line metadata "title" (labelled "  Title: ") in
    let* subject := optional_line metadata "subject" (labelled "  Subject: ") in
    Ok (Text (newline ++ "Metadata:") :: title ++ subject)%list
  else Ok [].

(** [print_template_summary]: the lines of a call that returns. *)
Definition print_template_summary (template : value) : outcome (list line) :=
  let* t := attr template "template" in
  let* type := str_attr t "type" in
  let* rows := list_attr t "rows" in
  let* total := total_modules rows in
  let* structure := row_lines 1 rows in
  let* settings := settings_lines t in
  let* metadata := metadata_lines t in
  Ok ([ Text (newline ++ rule); Heading; Text rule;
        Text ("Typ: " ++ type);
        Text ("Anzahl Rows: " ++ PyStr.of_int (Z.of_nat (List.length rows)));
        Text ("Anzahl Module: " ++ PyStr.of_int (Z.of_nat total));
        Text (newline ++ "Row Struktur:") ]
        ++ structure ++ settings ++ metadata ++ [Text (rule ++ newline)])%list.

(** How an access of [main] ends. *)
Inductive access (A : Type) : Type :=
| Found (a : A)
| IndexError
| Failed (e : exn).
Arguments Found {A} a.
Arguments IndexError {A}.
Arguments Failed {A} e.

Definition after {A B} (o : outcome A) (k : A -> access B) : access B :=
  match o with
  | Ok a => k a
  | Raise e => Failed e
  end.

(** [l[0]] *)
Definition first {B} (l : list value) (k : value -> access B) : access B :=
  match l with
  | x :: _ => k x
  | [] => IndexError
  end.

Definition reached {A} (o : outcome A) : access A := after o Found.

(** [template.template.rows[0].name] *)
Definition first_row_name (template : value) : access string :=
  after (attr template "template") (fun t =>
  after (list_attr t "rows") (fun rows =>
  first rows (fun row => reached (str_attr row "name")))).

(** [template.template.rows[0].columns[0].modules[0].type] *)
Definition first_module_type (template : value) : access string :=
  after (attr template "template") (fun t =>
  after (list_attr t "rows") (fun rows =>
  first rows (fun row =>
  after (list_attr row "columns") (fun columns =>
  first columns (fun column =>
  after (list_attr column "modules") (fun modules =>
  first modules (fun module => reached (str_attr module "type")))))))).

End Summary.

(** * Properties *)

(** ** Dictionaries *)

Lemma dict_get_set_same {A} (k : string) (v : A) (d : list (string * A)) :
  dict_get k (dict_set k v d) = Some v.
Proof.
  induction d as [|[k' v'] tl IH]; simpl.
  - now rewrite String.eqb_refl.
  - destruct (String.eqb k k') eqn:E; simpl; rewrite ?String.eqb_refl, ?E; auto.
Qed.

Lemma dict_get_set_other {A} (k k0 : string) (v : A) (d : list (string * A)) :
  k0 <> k -> dict_get k0 (dict_set k v d) = dict_get k0 d.
Proof.
  intros Hne. induction d as [|[k' v'] tl IH]; simpl.
  - apply String.eqb_neq in Hne. now rewrite Hne.
  - destruct (String.eqb k k') eqn:E; simpl.
    + apply String.eqb_eq in E. subst k'.
      apply String.eqb_neq in Hne. now rewrite Hne.
    + destruct (String.eqb k0 k'); auto.
Qed.

Lemma dict_set_set {A} (k : string) (v v' : A) (d : list (string * A)) :
  dict_set k v' (dict_set k v d) = dict_set k v' d.
Proof.
  induction d as [|[k' x] tl IH]; simpl.
  - now rewrite String.eqb_refl.
  - destruct (String.eqb k k') eqn:E; simpl; rewrite ?String.eqb_refl, ?E; auto.
    now rewrite IH.
Qed.

Lemma keys_dict_set_in {A} (k : string) (v : A) (d : list (string * A)) :
  In k (keys d) -> keys (dict_set k v d) = keys d.
Proof.
  unfold keys. induction d as [|[k' x] tl IH]; simpl; [tauto|].
  intros H. destruct (String.eqb k k') eqn:E; simpl.
  - apply String.eqb_eq in E. now subst.
  - f_equal. apply IH. destruct H as [H|H]; auto.
    subst. now rewrite String.eqb_refl in E.
Qed.

Lemma keys_dict_set_notin {A} (k : string) (v : A) (d : list (string * A)) :
  ~ In k (keys d) -> keys (dict_set k v d) = (keys d ++ [k])%list.
Proof.
  unfold keys. induction d as [|[k' x] tl IH]; simpl; auto.
  intros H. destruct (String.eqb k k') eqn:E; simpl.
  - apply String.eqb_eq in E. subst. tauto.
  - f_equal. apply IH. tauto.
Qed.

Lemma in_keys_dict_set {A} (k k0 : string) (v : A) (d : list (string * A)) :
  In k0 (keys (dict_set k v d)) <-> k0 = k \/ In k0 (keys d).
Proof.
  destruct (List.in_dec String.string_dec k (keys d)) as [Hin|Hout].
  - rewrite keys_dict_set_in by assumption. split; [tauto|].
    intros [->|]; auto.
  - rewrite keys_dict_set_notin, in_app_iff by assumption. simpl.
    split; intros H; intuition auto.
Qed.

Lemma NoDup_keys_dict_set {A} (k : string) (v : A) (d : list (string * A)) :
  NoDup (keys d) -> NoDup (keys (dict_set k v d)).
Proof.
  intros Hnd. destruct (List.in_dec String.string_dec k (keys d)) as [Hin|Hout].
  - now rewrite keys_dict_set_in.
  - rewrite keys_dict_set_notin by assumption.
    apply NoDup_app; auto.
    + constructor; [simpl; tauto | constructor].
    + intros x Hx [Hk|[]]. subst. tauto.
Qed.

Lemma dict_get_none_iff {A} (k : string) (d : list (string * A)) :
  dict_get k d = None <-> ~ In k (keys d).
Proof.
  unfold keys. induction d as [|[k' x] tl IH]; simpl; [tauto|].
  destruct (String.eqb k k') eqn:E.
  - apply String.eqb_eq in E. subst. split; [discriminate | tauto].
  - apply String.eqb_neq in E. rewrite IH. split; intros H; [intros [?|?]|]; auto.
Qed.

(** ** Induction over values and over types *)

Section value_induction.
Variable P : value -> Prop.
Hypothesis HNone : P VNone.
Hypothesis HBool : forall b, P (VBool b).
Hypothesis HInt : forall n, P (VInt n).
Hypothesis HFloat : forall f, P (VFloat f).
Hypothesis HStr : forall s, P (VStr s).
Hypothesis HList : forall items, Forall P items -> P (VList items).
Hypothesis HDict : forall entries, P (VDict entries).
Hypothesis HObj :
  forall cls attrs, Forall (fun kv => P (snd kv)) attrs -> P (VObj cls attrs).

Fixpoint value_walk_ind (v : value) : P v :=
  match v with
  | VNone => HNone
  | VBool b => HBool b
  | VInt n => HInt n
  | VFloat f => HFloat f
  | VStr s => HStr s
  | VList items =>
      HList items
        ((fix go (l : list value) : Forall P l :=
            match l with
            | [] => Forall_nil _
            | x :: tl => Forall_cons x (value_walk_ind x) (go tl)
            end) items)
  | VDict entries => HDict entries
  | VObj cls attrs =>
      HObj cls attrs
        ((fix go (l : list (string * value)) : Forall (fun kv => P (snd kv)) l :=
            match l with
            | [] => Forall_nil _
            | kv :: tl =>
                Forall_cons kv
                  (match kv return P (snd kv) with (_, x) => value_walk_ind x end)
                  (go tl)
            end) attrs)
  end.
End value_induction.

Section ftype_induction.
Import Pydantic.
Variable P : ftype -> Prop.
Hypothesis HStr : P TStr.
Hypothesis HInt : forall ge le, P (TInt ge le).
Hypothesis HFloat : forall ge le, P (TFloat ge le).
Hypothesis HBool : P TBool.
Hypothesis HLiteral : forall choices, P (TLiteral choices).
Hypothesis HDict : P TDictAny.
Hypothesis HList : forall elem mn mx, P elem -> P (TList elem mn mx).
Hypothesis HModel :
  forall name pbn fields,
    Forall (fun f => P (ftyp f)) fields -> P (TModel name pbn fields).
Hypothesis HUnion : forall members, Forall P members -> P (TUnion members).

Fixpoint ftype_nested_ind (t : ftype) : P t :=
  match t with
  | TStr => HStr
  | TInt ge le => HInt ge le
  | TFloat ge le => HFloat ge le
  | TBool => HBool
  | TLiteral choices => HLiteral choices
  | TDictAny => HDict
  | TList elem mn mx => HList elem mn mx (ftype_nested_ind elem)
  | TModel name pbn fields =>
      HModel name pbn fields
        ((fix go (l : list (field ftype)) : Forall (fun f => P (ftyp f)) l :=
            match l with
            | [] => Forall_nil _
            | f :: tl =>
                Forall_cons f
                  (match f return P (ftyp f) with
                   | Field _ _ _ t' => ftype_nested_ind t'
                   end)
                  (go tl)
            end) fields)
  | TUnion members =>
      HUnion members
        ((fix go (l : list ftype) : Forall P l :=
            match l with
            | [] => Forall_nil _
            | m :: tl => Forall_cons m (ftype_nested_ind m) (go tl)
            end) members)
  end.
End ftype_induction.

(** ** The range of the true division *)
Module FloatFacts.
Local Open Scope Z_scope.

(** The value of a mantissa at an exponent, scaled to an integer. *)
Definition scaled (m e : Z) : Z := m * 2 ^ (e + 1074).

Lemma digits_bound (m k : Z) : 0 <= m -> 0 <= k -> m < 2 ^ k -> Zdigits2 m <= k.
Proof.
  intros Hm Hk. destruct m as [|p|p]; simpl; [lia| |lia]. clear Hm.
  revert k Hk. induction p as [p IH|p IH|]; intros k Hk Hlt; simpl.
  - destruct (Z.eq_dec k 0) as [->|Hne]; [simpl in Hlt; lia|].
    replace k with (Z.succ (k - 1)) in Hlt by lia.
    rewrite Z.pow_succ_r in Hlt by lia.
    specialize (IH (k - 1) ltac:(lia) ltac:(lia)). lia.
  - destruct (Z.eq_dec k 0) as [->|Hne]; [simpl in Hlt; lia|].
    replace k with (Z.succ (k - 1)) in Hlt by lia.
    rewrite Z.pow_succ_r in Hlt by lia.
    specialize (IH (k - 1) ltac:(lia) ltac:(lia)). lia.
  - destruct (Z.eq_dec k 0) as [->|Hne]; [simpl in Hlt; lia|]. lia.
Qed.

Lemma pow_cancel (m a b : Z) :
  0 <= a -> 0 <= b -> m * 2 ^ a < 2 ^ (b + a) -> m < 2 ^ b.
Proof.
  intros Ha Hb H. rewrite Z.pow_add_r in H by lia.
  assert (0 < 2 ^ a) by (apply Z.pow_pos_nonneg; lia).
  nia.
Qed.

Lemma scaled_digits (m e K : Z) :
  0 <= m -> -1074 <= e <= K -> scaled m e < 2 ^ (K + 1074) ->
  Zdigits2 m + e <= K.
Proof.
  intros Hm He H. unfold scaled in H.
  assert (m < 2 ^ (K - e)).
  { apply (pow_cancel m (e + 1074) (K - e)); try lia.
    now replace (K - e + (e + 1074)) with (K + 1074) by lia. }
  pose proof (digits_bound m (K - e) Hm ltac:(lia) H0). lia.
Qed.

Lemma shr_1_bound (mrs : shr_record) :
  0 <= shr_m mrs -> 0 <= shr_m (shr_1 mrs) /\ 2 * shr_m (shr_1 mrs) <= shr_m mrs.
Proof.
  destruct mrs as [m r s]. simpl.
  destruct m as [|[p|p|]|p]; simpl; lia.
Qed.

Lemma iter_shr_bound (n : positive) (mrs : shr_record) :
  0 <= shr_m mrs ->
  0 <= shr_m (iter_pos shr_1 n mrs)
  /\ 2 ^ Zpos n * shr_m (iter_pos shr_1 n mrs) <= shr_m mrs.
Proof.
  revert mrs. induction n as [n IH|n IH|]; intros mrs Hm; simpl iter_pos.
  - destruct (shr_1_bound mrs Hm) as [H0 H1].
    destruct (IH _ H0) as [H2 H3]. destruct (IH _ H2) as [H4 H5].
    split; [assumption|].
    assert (E : Zpos n~1 = Zpos n + Zpos n + 1) by lia. rewrite E.
    rewrite !Z.pow_add_r by lia.
    assert (0 < 2 ^ Zpos n) by (apply Z.pow_pos_nonneg; lia).
    change (2 ^ 1) with 2. nia.
  - destruct (IH _ Hm) as [H2 H3]. destruct (IH _ H2) as [H4 H5].
    split; [assumption|].
    assert (E : Zpos n~0 = Zpos n + Zpos n) by lia. rewrite E.
    rewrite !Z.pow_add_r by lia.
    assert (0 < 2 ^ Zpos n) by (apply Z.pow_pos_nonneg; lia).
    nia.
  - destruct (shr_1_bound mrs Hm) as [H0 H1]. split; [assumption|].
    change (2 ^ 1) with 2. lia.
Qed.

Lemma shr_record_m (m : Z) (l : location) : shr_m (shr_record_of_loc m l) = m.
Proof. destruct l as [|[]]; reflexivity. Qed.

Lemma shr_fexp_bound (prec emax m e : Z) (l : location) (mrs : shr_record) (e' : Z) :
  0 <= m ->
  shr_fexp prec emax m e l = (mrs, e') ->
  0 <= shr_m mrs
  /\ (e' = e \/ (e < e' /\ e' = fexp prec emax (Zdigits2 m + e)))
  /\ 2 ^ (e' - e) * shr_m mrs <= m.
Proof.
  intros Hm. unfold shr_fexp, shr.
  destruct (fexp prec emax (Zdigits2 m + e) - e) as [|n|n] eqn:En;
    intros H; injection H as <- <-.
  - rewrite shr_record_m, Z.sub_diag. change (2 ^ 0) with 1.
    split; [lia|]. split; [now left | lia].
  - destruct (iter_shr_bound n (shr_record_of_loc m l)) as [H0 H1];
      [now rewrite shr_record_m|].
    rewrite shr_record_m in H1.
    split; [assumption|]. split; [right; lia|].
    now replace (e + Zpos n - e) with (Zpos n) by lia.
  - rewrite shr_record_m, Z.sub_diag. change (2 ^ 0) with 1.
    split; [lia|]. split; [now left | lia].
Qed.

Lemma round_bounds (m : Z) (l : location) :
  m <= round_nearest_even m l <= m + 1.
Proof.
  destruct l as [|[]]; simpl; try lia. destruct (Z.even m); lia.
Qed.

Lemma fexp_le (x K : Z) : x <= K + 53 -> -1074 <= K -> fexp 53 1024 x <= K.
Proof. unfold fexp, emin. lia. Qed.

Lemma fexp_ge (x : Z) : -1074 <= fexp 53 1024 x.
Proof. unfold fexp, emin. lia. Qed.

(** A value below [2^1023] is rounded to a finite float or to zero. *)
Lemma round_aux_not_infinite (s s' : bool) (m e : Z) (l : location) :
  0 <= m -> -1074 <= e <= 970 -> scaled m e < 2 ^ 2097 ->
  binary_round_aux 53 1024 s m e l <> S754_infinity s'.
Proof.
  intros Hm He Hv. unfold binary_round_aux.
  destruct (shr_fexp 53 1024 m e l) as [mrs1 e1] eqn:E1.
  destruct (shr_fexp_bound _ _ _ _ _ _ _ Hm E1) as [Hm1 [He1 Hv1]].
  pose proof (scaled_digits m e 1023 Hm ltac:(lia) Hv) as Hd.
  assert (He1' : -1074 <= e1 <= 970).
  { destruct He1 as [->|[Hlt ->]]; [lia|].
    split; [apply fexp_ge | apply fexp_le; lia]. }
  assert (He1e : e <= e1) by (destruct He1 as [->|[Hlt _]]; lia).
  assert (Hv1' : scaled (shr_m mrs1) e1 < 2 ^ 2097).
  { unfold scaled in *.
    replace (e1 + 1074) with ((e1 - e) + (e + 1074)) by lia.
    rewrite Z.pow_add_r by lia.
    assert (0 < 2 ^ (e + 1074)) by (apply Z.pow_pos_nonneg; lia).
    assert (0 <= 2 ^ (e1 - e)) by (apply Z.pow_nonneg; lia).
    nia. }
  set (m1 := round_nearest_even (shr_m mrs1) (loc_of_shr_record mrs1)) in *.
  pose proof (round_bounds (shr_m mrs1) (loc_of_shr_record mrs1)) as Hr.
  fold m1 in Hr. clearbody m1.
  assert (Hm1' : 0 <= m1) by lia.
  destruct (shr_fexp 53 1024 m1 e1 loc_Exact) as [mrs2 e2] eqn:E2.
  destruct (shr_fexp_bound _ _ _ _ _ _ _ Hm1' E2) as [Hm2 [He2 _]].
  assert (Hv2 : scaled m1 e1 < 2 ^ 2098).
  { unfold scaled in *.
    assert (Hp : 2 ^ (e1 + 1074) <= 2 ^ 2044) by (apply Z.pow_le_mono_r; lia).
    assert (0 < 2 ^ (e1 + 1074)) by (apply Z.pow_pos_nonneg; lia).
    assert (m1 * 2 ^ (e1 + 1074)
            <= shr_m mrs1 * 2 ^ (e1 + 1074) + 2 ^ (e1 + 1074)) by nia.
    assert (2 ^ 2097 + 2 ^ 2044 < 2 ^ 2098) by (vm_compute; reflexivity).
    lia. }
  pose proof (scaled_digits m1 e1 1024 ltac:(lia) ltac:(lia) Hv2) as Hd1.
  assert (He2' : e2 <= 971).
  { destruct He2 as [->|[_ ->]]; [lia | apply fexp_le; lia]. }
  destruct (shr_m mrs2); try discriminate.
  apply Z.leb_le in He2'. change (1024 - 53) with 971. rewrite He2'. discriminate.
Qed.

Lemma div_core_bound (mx my : positive) (q e : Z) (l : location) :
  Zpos mx < 2 ^ 1023 ->
  SFdiv_core_binary 53 1024 (Zpos mx) 0 (Zpos my) 0 = (q, e, l) ->
  0 <= q /\ -1074 <= e <= 0 /\ scaled q e < 2 ^ 2097.
Proof.
  intros Hmx. unfold SFdiv_core_binary.
  set (e' := Z.min (fexp 53 1024 (Zdigits2 (Zpos mx) + 0 - (Zdigits2 (Zpos my) + 0)))
                   (0 - 0)).
  assert (He' : -1074 <= e' <= 0).
  { unfold e'. pose proof (fexp_ge (Zdigits2 (Zpos mx) + 0 - (Zdigits2 (Zpos my) + 0))).
    lia. }
  set (m' := match 0 - 0 - e' with
             | Zpos _ => Z.shiftl (Zpos mx) (0 - 0 - e')
             | Z0 => Zpos mx
             | Zneg _ => 0
             end).
  assert (Hm' : m' = Zpos mx * 2 ^ (- e')).
  { unfold m'. replace (0 - 0 - e') with (- e') by lia.
    destruct (- e') as [|n|n] eqn:En.
    - simpl. lia.
    - rewrite Z.shiftl_mul_pow2 by lia. reflexivity.
    - lia. }
  pose proof (Z.div_eucl_eq m' (Zpos my) ltac:(lia)) as Heq.
  pose proof (Z.mod_pos_bound m' (Zpos my) ltac:(lia)) as Hmod.
  unfold Z.modulo in Hmod.
  destruct (Z.div_eucl m' (Zpos my)) as [q0 r0].
  intros H. injection H as <- <- _.
  assert (Hpow : 0 < 2 ^ (- e')) by (apply Z.pow_pos_nonneg; lia).
  assert (Hm0 : 0 <= m') by (rewrite Hm'; nia).
  assert (Hq : 0 <= q0 <= m') by nia.
  split; [lia|]. split; [lia|].
  unfold scaled.
  assert (Hp2 : 0 < 2 ^ (e' + 1074)) by (apply Z.pow_pos_nonneg; lia).
  assert (Hle : q0 * 2 ^ (e' + 1074) <= m' * 2 ^ (e' + 1074)) by nia.
  rewrite Hm' in Hle.
  rewrite <- Z.mul_assoc, <- Z.pow_add_r in Hle by lia.
  replace (- e' + (e' + 1074)) with 1074 in Hle by lia.
  assert (Zpos mx * 2 ^ 1074 < 2 ^ 2097).
  { change (2 ^ 2097) with (2 ^ 1023 * 2 ^ 1074).
    apply Z.mul_lt_mono_pos_r; [vm_compute; reflexivity | exact Hmx]. }
  lia.
Qed.

(** [a / b] returns when [b] is not zero and [a] is below [2^1023] in
    absolute value. *)
Lemma truediv_in_range (a b : Z) :
  b <> 0 -> Z.abs a < 2 ^ 1023 -> exists q, int_truediv a b = Ok q.
Proof.
  intros Hb Ha. unfold int_truediv. apply Z.eqb_neq in Hb. rewrite Hb.
  apply Z.eqb_neq in Hb.
  unfold PyFloat.prec, PyFloat.emax.
  destruct a as [|mx|mx]; destruct b as [|my|my]; try congruence;
    unfold PyFloat.of_int_exact, SFdiv; eauto;
    destruct (SFdiv_core_binary 53 1024 (Zpos mx) 0 (Zpos my) 0) as [[q e] l] eqn:E;
    destruct (div_core_bound mx my q e l Ha E) as [Hq [He Hv]];
    match goal with
    | |- context [binary_round_aux 53 1024 ?s q e l] =>
        pose proof (fun s' => round_aux_not_infinite s s' q e l Hq ltac:(lia) Hv) as Hfin;
        destruct (binary_round_aux 53 1024 s q e l) as [| s0 | |]; eauto;
        elim (Hfin s0); reflexivity
    end.
Qed.

End FloatFacts.

(** ** Sample configurations *)
Module Samples.
Import Assets.

(** No access key; the image service raises. *)
Definition offline : services :=
  {| unsplash_access_key := None;
     unsplash_api := fun _ _ => None;
     images_api := fun _ _ _ => None |}.

(** An access key; the search finds nothing; every generated image has a
    URL of its own. *)
Definition online : services :=
  {| unsplash_access_key := Some "key";
     unsplash_api := fun _ _ => Some [];
     images_api := fun n _ _ => Some ("https://images.example/" ++ PyStr.of_int (Z.of_nat n)) |}.

Definition manager (sv : services) (p : strategy) : AssetManager :=
  {| outside := sv; custom := default_library; policy := p |}.

End Samples.

(** ** Providers and [AssetManager] *)
Module ProviderFacts.
Import Assets Samples FloatFacts.

(** What [search_specific_image] returns at request [n], when it is a URL
    that [get_image] takes ([url or ...]). *)
Definition found (sv : services) (n : nat) (query : string) : option string :=
  if no_access_key sv then None
  else
    match unsplash_api sv n query with
    | Some (u :: _) => if String.eqb u "" then None else Some u
    | _ => None
    end.

(** The world after [search_specific_image]. *)
Definition searched (sv : services) (query : string) (w : world) (after : list event)
  : world :=
  {| requests := if no_access_key sv then requests w else S (requests w);
     trace := trace w ++ SearchSpecificImage query :: after |}.

Lemma unknown_key_default {A} (d : list (string * A)) (k : string) (x : A) :
  ~ In k (keys d) -> get_or d k x = x.
Proof.
  intros H. unfold get_or. apply dict_get_none_iff in H. now rewrite H.
Qed.

(** C5, as amended: for an unknown key no lookup of the library fails; the
    social-icon and the banner lookups return the empty string, and the
    logo lookup returns the URL of the primary logo, which is not empty. *)
Theorem library_unknown_key (lib : CustomAssetLibrary) (key : string) :
  (~ In key (keys (logos lib)) ->
     library_get_logo lib key = library_get_logo lib "primary"
     /\ library_get_logo lib key <> "") /\
  (~ In (PyStr.lower key) (keys (social lib)) ->
     library_get_social_icon lib key = "") /\
  (~ In key (keys (banners lib)) -> library_get_banner lib key = "").
Proof.
  repeat split.
  - unfold library_get_logo. now rewrite unknown_key_default.
  - unfold library_get_logo. rewrite unknown_key_default by assumption.
    destruct (base_url lib); discriminate.
  - intros H. unfold library_get_social_icon. now apply unknown_key_default.
  - intros H. unfold library_get_banner. now apply unknown_key_default.
Qed.

Lemma library_unknown_key_witness :
  (library_get_logo default_library "seasonal"
     = library_get_logo default_library "primary"
   /\ library_get_logo default_library "seasonal" <> "")
  /\ library_get_social_icon default_library "Mastodon" = ""
  /\ library_get_banner default_library "footer" = "".
Proof.
  destruct (library_unknown_key default_library "seasonal") as [Hlogo _].
  destruct (library_unknown_key default_library "Mastodon") as [_ [Hsocial _]].
  destruct (library_unknown_key default_library "footer") as [_ [_ Hbanner]].
  split; [|split].
  - apply Hlogo. simpl. intuition discriminate.
  - apply Hsocial. simpl. intuition discriminate.
  - apply Hbanner. simpl. intuition discriminate.
Defined.

(** C5, as stated, fails: the logo lookup of an unknown variant is not
    empty. *)
Lemma logo_unknown_variant_not_empty :
  ~ In "seasonal" (keys (logos default_library))
  /\ library_get_logo default_library "seasonal"
     = "https://your-cdn.com/assets/logo-primary.png".
Proof.
  split; [simpl; intuition discriminate | reflexivity].
Qed.

Lemma truediv_zero (a : Z) : int_truediv a 0 = Raise ZeroDivisionError.
Proof. reflexivity. Qed.

Lemma truediv_nonzero (a b : Z) :
  b <> 0%Z ->
  (exists q, int_truediv a b = Ok q) \/ int_truediv a b = Raise OverflowError.
Proof.
  intros Hb. unfold int_truediv. apply Z.eqb_neq in Hb. rewrite Hb.
  destruct (SFdiv _ _ _ _); eauto.
Qed.

Lemma dalle_size_of_ratio (width height : Z) (q : PyFloat.float) :
  int_truediv width height = Ok q ->
  exists size, get_dalle_size width height = Ok size.
Proof.
  intros H. unfold get_dalle_size. rewrite H.
  destruct (PyFloat.gt q PyFloat.f_1_5); [eauto|].
  destruct (PyFloat.lt q PyFloat.f_0_7); eauto.
Qed.

Lemma dalle_size_raises (width height : Z) (e : exn) :
  int_truediv width height = Raise e -> get_dalle_size width height = Raise e.
Proof. intros H. unfold get_dalle_size. now rewrite H. Qed.

Lemma generate_image_returns (sv : services) (description : string)
      (size : dalle_size) (w : world) :
  exists url,
    generate_image sv description size w
    = Ok (url, {| requests := S (requests w);
                  trace := trace w ++ [GenerateImage description size] |}).
Proof.
  unfold generate_image, bind, log, request, ret. simpl.
  destruct (images_api sv (requests w) description size); eauto.
Qed.

Lemma get_image_ai (am : AssetManager) (description : string)
      (width height : Z) (w : world) :
  is_dalle_or_mixed (policy am) = true ->
  get_image am description width height true w
  = match get_dalle_size width height with
    | Ok size =>
        generate_image (outside am) description size
          {| requests := requests w;
             trace := trace w ++ [GetImage description width height true] |}
    | Raise e => Raise e
    end.
Proof.
  intros Hp. unfold get_image. rewrite Hp. simpl.
  unfold bind, log, lift. simpl.
  destruct (get_dalle_size width height); reflexivity.
Qed.

(** C10, as amended: with [use_ai] and the policy dalle or mixed, a call
    with height 0 fails with a division error; with another height it
    returns a URL whenever the width is below [2^1023] in absolute value,
    and in general whenever the quotient of width by height is in the range
    of a float; otherwise it fails with an overflow error. *)
Theorem get_image_ai_division (am : AssetManager) (description : string)
        (width height : Z) (w : world) :
  is_dalle_or_mixed (policy am) = true ->
  (height = 0%Z ->
     get_image am description width height true w = Raise ZeroDivisionError) /\
  (height <> 0%Z -> (Z.abs width < 2 ^ 1023)%Z ->
     exists url w', get_image am description width height true w = Ok (url, w')) /\
  (height <> 0%Z ->
     match int_truediv width height with
     | Ok _ =>
         exists url w', get_image am description width height true w = Ok (url, w')
     | Raise e =>
         e = OverflowError
         /\ get_image am description width height true w = Raise OverflowError
     end).
Proof.
  intros Hp. rewrite get_image_ai by assumption.
  assert (Hreturns :
    forall q, int_truediv width height = Ok q ->
    exists url w',
      match get_dalle_size width height with
      | Ok size =>
          generate_image (outside am) description size
            {| requests := requests w;
               trace := trace w ++ [GetImage description width height true] |}
      | Raise e => Raise e
      end = Ok (url, w')).
  { intros q Hq. destruct (dalle_size_of_ratio _ _ _ Hq) as [size Hs]. rewrite Hs.
    destruct (generate_image_returns (outside am) description size
                {| requests := requests w;
                   trace := trace w ++ [GetImage description width height true] |})
      as [url Hg].
    rewrite Hg. eauto. }
  split; [|split].
  - intros ->. reflexivity.
  - intros Hh Hw. destruct (truediv_in_range width height Hh Hw) as [q Hq].
    exact (Hreturns q Hq).
  - intros Hh. destruct (truediv_nonzero width height Hh) as [[q Hq]|Hq]; rewrite Hq.
    + exact (Hreturns q Hq).
    + split; [reflexivity|]. now rewrite (dalle_size_raises _ _ _ Hq).
Qed.

Lemma get_image_ai_division_witness :
  get_image (manager offline dalle) "hero" 800 0 true world0
    = Raise ZeroDivisionError
  /\ (exists url w',
        get_image (manager offline dalle) "hero" 800 600 true world0 = Ok (url, w'))
  /\ (exists url w',
        get_image (manager offline mixed) "hero" (-300) 1000 true world0
        = Ok (url, w')).
Proof.
  split; [|split].
  - apply (get_image_ai_division (manager offline dalle) "hero" 800 0 world0);
      reflexivity.
  - destruct (get_image_ai_division (manager offline dalle) "hero" 800 600 world0
                eq_refl) as [_ [Hrange _]].
    apply Hrange; [discriminate | reflexivity].
  - destruct (get_image_ai_division (manager offline mixed) "hero" (-300) 1000 world0
                eq_refl) as [_ [Hrange _]].
    apply Hrange; [discriminate | reflexivity].
Defined.

(** C10, as stated, fails: a height other than 0 does not make the call
    total.  The quotient of [2^1024] by 1 is too large for a float. *)
Lemma get_image_ai_overflow :
  (1 <> 0)%Z
  /\ get_image (manager offline dalle) "hero" (2 ^ 1024) 1 true world0
     = Raise OverflowError.
Proof.
  split; [discriminate | vm_compute; reflexivity].
Qed.

End ProviderFacts.

(** ** Strategy selection in [get_image] *)
Module StrategyFacts.
Import Assets Samples ProviderFacts.

Lemma search_specific_image_spec (sv : services) (query : string) (w : world) :
  exists r,
    search_specific_image sv query w = Ok (r, searched sv query w [])
    /\ match r with
       | Some u => if String.eqb u "" then found sv (requests w) query = None
                   else found sv (requests w) query = Some u
       | None => found sv (requests w) query = None
       end.
Proof.
  unfold search_specific_image, searched, found, bind, log, request, ret. simpl.
  destruct (no_access_key sv); simpl.
  - eexists; split; [reflexivity|reflexivity].
  - destruct (unsplash_api sv (requests w) query) as [[|u rest]|]; simpl.
    + eexists; split; [reflexivity|reflexivity].
    + exists (Some u). split; [reflexivity|]. destruct (String.eqb u ""); reflexivity.
    + eexists; split; [reflexivity|reflexivity].
Qed.

Definition logged (w : world) (e : event) : world :=
  {| requests := requests w; trace := trace w ++ [e] |}.

Lemma get_image_search (am : AssetManager) (description : string)
      (width height : Z) (w : world) :
  policy am = mixed \/ policy am = dalle ->
  get_image am description width height false w
  = match found (outside am) (requests w) description with
    | Some u =>
        Ok (u, searched (outside am) description
                 (logged w (GetImage description width height false)) [])
    | None =>
        Ok (placeholder_get_image_url description width height,
            searched (outside am) description
              (logged w (GetImage description width height false))
              [PlaceholderUrl description width height])
    end.
Proof.
  intros Hp. unfold get_image. simpl.
  assert (Hsel :
    forall (X : Type) (a b c : X),
      match policy am with unsplash => a | placeholder => b | _ => c end = c)
    by (intros; destruct Hp as [-> | ->]; reflexivity).
  rewrite Hsel. unfold bind at 1. unfold log at 1. simpl.
  unfold bind at 1.
  destruct (search_specific_image_spec (outside am) description
              (logged w (GetImage description width height false)))
    as [r [Hr Hfound]].
  unfold logged in Hr at 1. simpl in Hr. rewrite Hr.
  simpl in Hfound.
  destruct r as [u|].
  - destruct (String.eqb u "") eqn:Eu; rewrite Hfound.
    + unfold bind, log, ret, searched, logged. simpl.
      now rewrite <- !app_assoc.
    + reflexivity.
  - rewrite Hfound. unfold bind, log, ret, searched, logged. simpl.
    now rewrite <- !app_assoc.
Qed.

Lemma get_image_generates (am : AssetManager) (description : string)
      (width height : Z) (w : world) (size : dalle_size) :
  is_dalle_or_mixed (policy am) = true ->
  get_dalle_size width height = Ok size ->
  exists url,
    get_image am description width height true w
    = Ok (url, {| requests := S (requests w);
                  trace := trace w ++ [GetImage description width height true;
                                       GenerateImage description size] |}).
Proof.
  intros Hp Hsize. rewrite get_image_ai, Hsize by assumption.
  destruct (generate_image_returns (outside am) description size
              {| requests := requests w;
                 trace := trace w ++ [GetImage description width height true] |})
    as [url Hg].
  exists url. rewrite Hg. simpl. now rewrite <- app_assoc.
Qed.

Lemma get_image_unsplash (am : AssetManager) (description : string)
      (width height : Z) (use_ai : bool) (w : world) :
  policy am = unsplash ->
  get_image am description width height use_ai w
  = Ok (unsplash_get_image_url description width height,
        {| requests := requests w;
           trace := trace w ++ [GetImage description width height use_ai;
                                UnsplashUrl description width height] |}).
Proof.
  intros Hp. unfold get_image. rewrite Hp. simpl. rewrite andb_false_r.
  unfold bind, log, ret. simpl. now rewrite <- app_assoc.
Qed.

Lemma get_image_placeholder (am : AssetManager) (description : string)
      (width height : Z) (use_ai : bool) (w : world) :
  policy am = placeholder ->
  get_image am description width height use_ai w
  = Ok (placeholder_get_image_url description width height,
        {| requests := requests w;
           trace := trace w ++ [GetImage description width height use_ai;
                                PlaceholderUrl description width height] |}).
Proof.
  intros Hp. unfold get_image. rewrite Hp. simpl. rewrite andb_false_r.
  unfold bind, log, ret. simpl. now rewrite <- app_assoc.
Qed.

(** C2, as amended: [get_image] consults the generation service when
    [use_ai] is set and the policy is dalle or mixed; under the policies
    unsplash and placeholder [use_ai] changes nothing and the generation
    service is not consulted; under mixed without [use_ai] the search is
    tried first and the placeholder is the fallback. *)
Theorem get_image_strategy (am : AssetManager) (description : string)
        (width height : Z) (use_ai : bool) (w : world) :
  (is_dalle_or_mixed (policy am) = true ->
     forall size, get_dalle_size width height = Ok size ->
     exists url,
       get_image am description width height true w
       = Ok (url, {| requests := S (requests w);
                     trace := trace w ++ [GetImage description width height true;
                                          GenerateImage description size] |})) /\
  (policy am = unsplash ->
     get_image am description width height use_ai w
     = Ok (unsplash_get_image_url description width height,
           {| requests := requests w;
              trace := trace w ++ [GetImage description width height use_ai;
                                   UnsplashUrl description width height] |})) /\
  (policy am = placeholder ->
     get_image am description width height use_ai w
     = Ok (placeholder_get_image_url description width height,
           {| requests := requests w;
              trace := trace w ++ [GetImage description width height use_ai;
                                   PlaceholderUrl description width height] |})) /\
  (policy am = mixed ->
     get_image am description width height false w
     = match found (outside am) (requests w) description with
       | Some u =>
           Ok (u, searched (outside am) description
                    (logged w (GetImage description width height false)) [])
       | None =>
           Ok (placeholder_get_image_url description width height,
               searched (outside am) description
                 (logged w (GetImage description width height false))
                 [PlaceholderUrl description width height])
       end).
Proof.
  repeat split.
  - intros Hp size Hsize. now apply get_image_generates.
  - intros Hp. now apply get_image_unsplash.
  - intros Hp. now apply get_image_placeholder.
  - intros Hp. apply get_image_search. now left.
Qed.

Lemma get_image_strategy_witness :
  (exists url,
     get_image (manager online mixed) "custom art" 800 600 true world0
     = Ok (url, {| requests := 1;
                   trace := [GetImage "custom art" 800 600 true;
                             GenerateImage "custom art" s1024x1024] |})) /\
  get_image (manager online unsplash) "custom art" 800 600 true world0
  = Ok ("https://source.unsplash.com/800x600/?custom%20art",
        {| requests := 0;
           trace := [GetImage "custom art" 800 600 true;
                     UnsplashUrl "custom art" 800 600] |}) /\
  get_image (manager online mixed) "team-office" 800 600 false world0
  = Ok ("https://placehold.co/800x600/e5e7eb/1f2937?text=team-office",
        {| requests := 1;
           trace := [GetImage "team-office" 800 600 false;
                     SearchSpecificImage "team-office";
                     PlaceholderUrl "team-office" 800 600] |}).
Proof.
  split; [|split].
  - apply (get_image_strategy (manager online mixed) "custom art" 800 600 true world0);
      reflexivity.
  - apply (get_image_strategy (manager online unsplash) "custom art" 800 600 true world0).
    reflexivity.
  - apply (get_image_strategy (manager online mixed) "team-office" 800 600 false world0).
    reflexivity.
Defined.

(** C2, as stated, fails: under the policy unsplash a request for AI
    generation is answered by the URL template of the stock photos, and the
    generation service is not consulted. *)
Lemma use_ai_ignored_under_unsplash :
  exists url w',
    get_image (manager online unsplash) "custom art" 800 600 true world0
    = Ok (url, w')
    /\ url = "https://source.unsplash.com/800x600/?custom%20art"
    /\ existsb is_generate (trace w') = false.
Proof.
  eexists. eexists. split; [reflexivity|]. split; reflexivity.
Qed.

End StrategyFacts.

(** ** Validation: what an accepted value looks like *)
Module ValidateFacts.
Import Pydantic.

(** The attribute that validation makes of a field. *)
Definition field_valid (lax : lax_mode) (populate_by_name : bool)
           (entries : list (string * value)) (f : field ftype)
           (a : string * value) : Prop :=
  fst a = fname f
  /\ validate_field (validate lax (ftyp f)) populate_by_name f entries
     = Valid (snd a).

Lemma collect_fields_valid (rs : list (string * string * result value))
      (attrs : list (string * value)) :
  collect_fields rs = Valid attrs <->
  Forall2 (fun r a => fst a = fst (fst r) /\ snd r = Valid (snd a)) rs attrs.
Proof.
  revert attrs. induction rs as [|[[n k] r] rest IH]; intros attrs; simpl.
  - split.
    + intros H. injection H as <-. constructor.
    + intros H. inversion H. reflexivity.
  - destruct r as [x|e].
    + destruct (collect_fields rest) as [xs|e] eqn:E.
      * split.
        -- intros H. injection H as <-. constructor; [now split|]. now apply IH.
        -- intros H. inversion H as [|? [n' x'] ? ? [Hn Hx] Hrest]; subst.
           simpl in Hn, Hx. subst n'. apply IH in Hrest. congruence.
      * split; [discriminate|].
        intros H. inversion H as [|? ? ? ? _ Hrest]; subst.
        apply IH in Hrest. congruence.
    + split; [discriminate|].
      intros H. inversion H as [|? ? ? ? [_ Hx] _]; subst. discriminate.
Qed.

Lemma collect_items_valid (i : nat) (rs : list (result value)) (xs : list value) :
  collect_items i rs = Valid xs <-> Forall2 (fun r x => r = Valid x) rs xs.
Proof.
  revert i xs. induction rs as [|r rest IH]; intros i xs; simpl.
  - split.
    + intros H. injection H as <-. constructor.
    + intros H. inversion H. reflexivity.
  - destruct r as [x|e].
    + destruct (collect_items (S i) rest) as [ys|e] eqn:E.
      * split.
        -- intros H. injection H as <-. constructor; [reflexivity|]. now apply (IH (S i)).
        -- intros H. inversion H as [|? x' ? ? Hx Hrest]; subst.
           apply (IH (S i)) in Hrest. congruence.
      * split; [discriminate|].
        intros H. inversion H as [|? ? ? ? _ Hrest]; subst.
        apply (IH (S i)) in Hrest. congruence.
    + split; [discriminate|].
      intros H. inversion H as [|? ? ? ? Hx _]; subst. discriminate.
Qed.

Lemma first_member_valid (rs : list (string * result value)) (x : value) :
  first_member rs = Valid x -> exists n, In (n, Valid x) rs.
Proof.
  induction rs as [|[n r] rest IH]; simpl; [discriminate|].
  destruct r as [y|e].
  - intros H. injection H as <-. exists n. now left.
  - destruct (first_member rest) as [y|e'] eqn:E.
    + intros H. injection H as <-. destruct (IH eq_refl) as [n' Hn'].
      exists n'. now right.
    + destruct e'; discriminate.
Qed.

Lemma first_member_all_invalid (rs : list (string * result value))
      (es : list (string * error)) :
  Forall2 (fun r e => fst r = fst e /\ snd r = Invalid (snd e)) rs es ->
  first_member rs = Invalid (no_member es).
Proof.
  intros H. induction H as [|[n r] [n' e] rest es' [Hn Hr] _ IH]; simpl in *.
  - reflexivity.
  - subst. now rewrite IH.
Qed.

Lemma first_member_first (rs : list (string * result value)) (n : string)
      (x : value) (rest : list (string * result value)) :
  Forall (fun r => exists e, snd r = Invalid e) rs ->
  first_member (rs ++ (n, Valid x) :: rest) = Valid x.
Proof.
  induction 1 as [|[n' r] tl [e He] _ IH]; simpl in *.
  - reflexivity.
  - subst. now rewrite IH.
Qed.

Section Inversion.
Variable lax : lax_mode.

Lemma validate_model_inv (name : string) (pbn : bool)
      (fields : list (field ftype)) (v d : value) :
  validate lax (TModel name pbn fields) v = Valid d ->
  exists entries attrs,
    v = VDict entries /\ d = VObj name attrs
    /\ Forall2 (field_valid lax pbn entries) fields attrs.
Proof.
  simpl. destruct v; try discriminate.
  destruct (collect_fields _) as [attrs|e] eqn:E; [|discriminate].
  intros H. injection H as <-. exists entries, attrs.
  split; [reflexivity|]. split; [reflexivity|].
  apply collect_fields_valid in E. clear -E.
  remember (map _ fields) as rs eqn:Hrs. revert fields Hrs.
  induction E as [|r a rs' attrs' [Hn Hr] _ IH]; intros fields Hrs.
  - destruct fields; [constructor | discriminate].
  - destruct fields as [|f fs]; [discriminate|].
    simpl in Hrs. injection Hrs as -> ->. simpl in *.
    constructor; [now split | now apply IH].
Qed.

Lemma validate_model_intro (name : string) (pbn : bool)
      (fields : list (field ftype)) (entries attrs : list (string * value)) :
  Forall2 (field_valid lax pbn entries) fields attrs ->
  validate lax (TModel name pbn fields) (VDict entries) = Valid (VObj name attrs).
Proof.
  intros H. simpl.
  assert (E : collect_fields
            (map (fun f => (fname f, error_key pbn f entries,
                            validate_field (validate lax (ftyp f)) pbn f entries))
                 fields) = Valid attrs).
  { apply collect_fields_valid.
    induction H as [|f a fs attrs' [Hn Hr] _ IH]; simpl; constructor; auto. }
  now rewrite E.
Qed.

Lemma validate_list_inv (elem : ftype) (mn mx : option nat) (v d : value) :
  validate lax (TList elem mn mx) v = Valid d ->
  exists items xs,
    v = VList items /\ d = VList xs
    /\ check_length mn mx (List.length items) = None
    /\ Forall2 (fun i x => validate lax elem i = Valid x) items xs.
Proof.
  simpl. destruct v; try discriminate.
  destruct (check_length mn mx (List.length items)) eqn:Hlen; [discriminate|].
  destruct (collect_items 0 _) as [xs|e] eqn:E; [|discriminate].
  intros H. injection H as <-. exists items, xs.
  repeat split; auto.
  apply collect_items_valid in E. clear -E.
  remember (map _ items) as rs eqn:Hrs. revert items Hrs.
  induction E as [|r x rs' xs' Hr _ IH]; intros items Hrs.
  - destruct items; [constructor | discriminate].
  - destruct items as [|i is']; [discriminate|].
    simpl in Hrs. injection Hrs as -> ->. constructor; auto.
Qed.

Lemma validate_list_intro (elem : ftype) (mn mx : option nat)
      (items xs : list value) :
  check_length mn mx (List.length items) = None ->
  Forall2 (fun i x => validate lax elem i = Valid x) items xs ->
  validate lax (TList elem mn mx) (VList items) = Valid (VList xs).
Proof.
  intros Hlen H. simpl. rewrite Hlen.
  assert (E : collect_items 0 (map (validate lax elem) items) = Valid xs).
  { apply collect_items_valid. clear Hlen.
    induction H; simpl; constructor; auto. }
  now rewrite E.
Qed.

Lemma validate_union_inv (members : list ftype) (v d : value) :
  validate lax (TUnion members) v = Valid d ->
  exists m, In m members /\ validate lax m v = Valid d.
Proof.
  simpl. intros H. apply first_member_valid in H. destruct H as [n H].
  apply in_map_iff in H. destruct H as [m [Hm Hin]].
  injection Hm as _ Hv. eauto.
Qed.

(** No instance is [None]. *)
Lemma validate_not_none (t : ftype) (v : value) :
  validate lax t v <> Valid VNone.
Proof.
  revert v. induction t using ftype_nested_ind; intros v; simpl.
  - destruct v; discriminate.
  - destruct v; try (unfold coerce; simpl; discriminate);
      try (destruct (coerce _ _); [|discriminate]);
      unfold check_int;
      repeat match goal with
             | |- context [match ?o with Some _ => _ | None => _ end] => destruct o
             | |- context [if ?b then _ else _] => destruct b
             end; discriminate.
  - destruct v; try (unfold coerce; simpl; discriminate);
      try (destruct (coerce _ _); [|discriminate]);
      unfold check_float;
      repeat match goal with
             | |- context [if ?b then _ else _] => destruct b
             end; discriminate.
  - destruct v; try (unfold coerce; simpl; discriminate);
      try (destruct (coerce _ _); discriminate).
  - destruct v; try discriminate. destruct (existsb _ _); discriminate.
  - destruct v; discriminate.
  - destruct v; try discriminate.
    destruct (check_length _ _ _); [discriminate|].
    destruct (collect_items _ _); discriminate.
  - destruct v; try discriminate.
    destruct (collect_fields _); discriminate.
  - intros Hv. apply first_member_valid in Hv. destruct Hv as [n Hin].
    apply in_map_iff in Hin. destruct Hin as [m [Hm Hin]].
    injection Hm as _ Hm. rewrite Forall_forall in H.
    exact (H m Hin v Hm).
Qed.

(** The attribute of a field of an accepted model. *)
Lemma field_attr (pbn : bool) (entries : list (string * value))
      (fields : list (field ftype)) (attrs : list (string * value))
      (n : string) (f : field ftype) :
  Forall2 (field_valid lax pbn entries) fields attrs ->
  find (fun g => String.eqb n (fname g)) fields = Some f ->
  exists x,
    dict_get n attrs = Some x
    /\ validate_field (validate lax (ftyp f)) pbn f entries = Valid x.
Proof.
  induction 1 as [|g [k x] fs attrs' [Hn Hr] _ IH]; simpl; [discriminate|].
  simpl in Hn, Hr. subst k.
  destruct (String.eqb n (fname g)).
  - intros Hf. injection Hf as <-. eauto.
  - exact IH.
Qed.

(** A required field holds an instance of its type. *)
Lemma required_field (check : value -> result value) (pbn : bool)
      (f : field ftype) (entries : list (string * value)) (x : value) :
  frequired f = true ->
  validate_field check pbn f entries = Valid x ->
  exists given, lookup_field pbn f entries = Some given /\ check given = Valid x.
Proof.
  unfold validate_field. intros Hreq.
  destruct (lookup_field pbn f entries) as [given|]; rewrite ?Hreq.
  - destruct given; try discriminate; eauto.
  - discriminate.
Qed.

(** An optional field is [None] or holds an instance of its type. *)
Lemma any_field (check : value -> result value) (pbn : bool)
      (f : field ftype) (entries : list (string * value)) (x : value) :
  validate_field check pbn f entries = Valid x ->
  x = VNone \/ exists given, check given = Valid x.
Proof.
  unfold validate_field.
  destruct (lookup_field pbn f entries) as [given|].
  - destruct given; try (right; eauto; fail).
    destruct (frequired f); [discriminate|]. intros H. injection H as <-. now left.
  - destruct (frequired f); [discriminate|]. intros H. injection H as <-. now left.
Qed.

End Inversion.

End ValidateFacts.

(** ** The walk of [resolve_assets] *)
Module WalkFacts.
Import Pydantic Assets Resolver.

Lemma bind_ok {A B} (m : M A) (k : A -> M B) (w w' : world) (a : A) :
  m w = Ok (a, w') -> bind m k w = k a w'.
Proof. intros H. unfold bind. now rewrite H. Qed.

Lemma bind_raise {A B} (m : M A) (k : A -> M B) (w : world) (e : exn) :
  m w = Raise e -> bind m k w = Raise e.
Proof. intros H. unfold bind. now rewrite H. Qed.

Section Walk.
Variable am : AssetManager.

(** The two loops of [resolve_assets]. *)
Fixpoint over_attrs (l : list (string * value)) (assets : asset_map)
  : M (list (string * value) * asset_map) :=
  match l with
  | [] => ret ([], assets)
  | (k, v) :: rest =>
      r1 <- resolve_assets am v assets ;;
      r2 <- over_attrs rest (snd r1) ;;
      ret ((k, fst r1) :: fst r2, snd r2)
  end.

Fixpoint over_items (l : list value) (assets : asset_map)
  : M (list value * asset_map) :=
  match l with
  | [] => ret ([], assets)
  | item :: rest =>
      r1 <- resolve_assets am item assets ;;
      r2 <- over_items rest (snd r1) ;;
      ret (fst r1 :: fst r2, snd r2)
  end.

Lemma resolve_assets_obj (cls : string) (attrs : list (string * value))
      (assets : asset_map) :
  resolve_assets am (VObj cls attrs) assets
  = if is_image_class cls then
      r <- resolve_image am attrs assets ;; ret (VObj cls (fst r), snd r)
    else
      r <- over_attrs attrs assets ;; ret (VObj cls (fst r), snd r).
Proof. reflexivity. Qed.

Lemma resolve_assets_list (items : list value) (assets : asset_map) :
  resolve_assets am (VList items) assets
  = (r <- over_items items assets ;; ret (VList (fst r), snd r)).
Proof. reflexivity. Qed.

(** The pass over the image modules alone, in the order of the walk. *)
Fixpoint resolve_all (imgs : list (list (string * value))) (assets : asset_map)
  : M (list (list (string * value)) * asset_map) :=
  match imgs with
  | [] => ret ([], assets)
  | attrs :: rest =>
      r1 <- resolve_image am attrs assets ;;
      r2 <- resolve_all rest (snd r1) ;;
      ret (fst r1 :: fst r2, snd r2)
  end.

Lemma resolve_all_app (l1 l2 : list (list (string * value)))
      (assets : asset_map) (w : world) :
  resolve_all (l1 ++ l2) assets w
  = match resolve_all l1 assets w with
    | Ok (r1, w1) =>
        match resolve_all l2 (snd r1) w1 with
        | Ok (r2, w2) => Ok ((fst r1 ++ fst r2, snd r2)%list, w2)
        | Raise e => Raise e
        end
    | Raise e => Raise e
    end.
Proof.
  revert assets w. induction l1 as [|x l1 IH]; intros assets w; simpl.
  - unfold ret. simpl. destruct (resolve_all l2 assets w) as [[[? ?] ?]|]; reflexivity.
  - unfold bind at 1.
    destruct (resolve_image am x assets w) as [[r1 w1]|e] eqn:E1.
    + unfold bind at 1. rewrite IH. unfold bind at 1. rewrite E1.
      unfold bind at 1.
      destruct (resolve_all l1 (snd r1) w1) as [[r2 w2]|e]; simpl; [|reflexivity].
      destruct (resolve_all l2 (snd r2) w2) as [[r3 w3]|e]; reflexivity.
    + unfold bind. now rewrite E1.
Qed.

(** The walk resolves the image modules it reaches, in order, and
    changes nothing but their [src]. *)
Definition walk_correct (obj : value) : Prop :=
  forall assets w,
    match resolve_all (images obj) assets w with
    | Ok (r, w') =>
        exists obj',
          resolve_assets am obj assets w = Ok ((obj', snd r), w')
          /\ images obj' = fst r
          /\ without_src obj' = without_src obj
    | Raise e => resolve_assets am obj assets w = Raise e
    end.

Lemma resolve_image_shape (attrs attrs' : list (string * value))
      (assets assets' : asset_map) (w w' : world) :
  resolve_image am attrs assets w = Ok ((attrs', assets'), w') ->
  exists ref url,
    src_of attrs = Some ref
    /\ resolve_description am attrs ref w = Ok (url, w')
    /\ attrs' = dict_set "src" (VStr url) attrs
    /\ assets' = dict_set ref url assets.
Proof.
  unfold resolve_image, src_of.
  destruct (dict_get "src" attrs) as [[]|]; try discriminate.
  unfold bind.
  destruct (resolve_description am attrs s w) as [[url w1]|e] eqn:E; [|discriminate].
  rewrite dict_get_set_same. unfold ret. intros H. injection H as <- <- <-.
  exists s, url. auto.
Qed.

Lemma over_items_walk (items : list value) :
  Forall walk_correct items ->
  forall assets w,
    match resolve_all (flat_map images items) assets w with
    | Ok (r, w') =>
        exists items',
          over_items items assets w = Ok ((items', snd r), w')
          /\ flat_map images items' = fst r
          /\ map without_src items' = map without_src items
    | Raise e => over_items items assets w = Raise e
    end.
Proof.
  induction 1 as [|x tl Hx _ IH]; intros assets w; simpl.
  - unfold ret. simpl. exists []. auto.
  - rewrite resolve_all_app. specialize (Hx assets w).
    destruct (resolve_all (images x) assets w) as [[r1 w1]|e].
    + destruct Hx as [x' [Hx1 [Hx2 Hx3]]].
      rewrite (bind_ok _ _ _ _ _ Hx1). simpl.
      specialize (IH (snd r1) w1).
      destruct (resolve_all (flat_map images tl) (snd r1) w1) as [[r2 w2]|e].
      * destruct IH as [tl' [Ht1 [Ht2 Ht3]]].
        rewrite (bind_ok _ _ _ _ _ Ht1). unfold ret. simpl.
        exists (x' :: tl'). simpl. repeat split; congruence.
      * now rewrite (bind_raise _ _ _ _ IH).
    + now rewrite (bind_raise _ _ _ _ Hx).
Qed.

Lemma over_attrs_walk (attrs : list (string * value)) :
  Forall (fun kv => walk_correct (snd kv)) attrs ->
  forall assets w,
    match resolve_all (flat_map (fun kv => images (snd kv)) attrs) assets w with
    | Ok (r, w') =>
        exists attrs',
          over_attrs attrs assets w = Ok ((attrs', snd r), w')
          /\ flat_map (fun kv => images (snd kv)) attrs' = fst r
          /\ map (fun kv => (fst kv, without_src (snd kv))) attrs'
             = map (fun kv => (fst kv, without_src (snd kv))) attrs
    | Raise e => over_attrs attrs assets w = Raise e
    end.
Proof.
  induction 1 as [|[k x] tl Hx _ IH]; intros assets w; simpl.
  - unfold ret. simpl. exists []. auto.
  - rewrite resolve_all_app. simpl in Hx. specialize (Hx assets w).
    destruct (resolve_all (images x) assets w) as [[r1 w1]|e].
    + destruct Hx as [x' [Hx1 [Hx2 Hx3]]].
      rewrite (bind_ok _ _ _ _ _ Hx1). simpl.
      specialize (IH (snd r1) w1).
      destruct (resolve_all (flat_map _ tl) (snd r1) w1) as [[r2 w2]|e].
      * destruct IH as [tl' [Ht1 [Ht2 Ht3]]].
        rewrite (bind_ok _ _ _ _ _ Ht1). unfold ret. simpl.
        exists ((k, x') :: tl'). simpl. repeat split; congruence.
      * now rewrite (bind_raise _ _ _ _ IH).
    + now rewrite (bind_raise _ _ _ _ Hx).
Qed.

Lemma walk_is_correct (obj : value) : walk_correct obj.
Proof.
  induction obj using value_walk_ind;
    try (intros assets w; simpl; unfold ret; simpl; eexists; eauto; fail).
  - (* list *)
    intros assets w. rewrite resolve_assets_list. simpl images.
    pose proof (over_items_walk items H assets w) as Hw.
    destruct (resolve_all (flat_map images items) assets w) as [[r w']|e].
    + destruct Hw as [items' [H1 [H2 H3]]].
      rewrite (bind_ok _ _ _ _ _ H1). unfold ret. simpl.
      exists (VList items'). simpl. repeat split; congruence.
    + now rewrite (bind_raise _ _ _ _ Hw).
  - (* object *)
    intros assets w. rewrite resolve_assets_obj. simpl images.
    destruct (is_image_class cls) eqn:Hcls.
    + simpl.
      destruct (resolve_image am attrs assets w) as [[[attrs' assets'] w']|e] eqn:E.
      * rewrite (bind_ok _ _ _ _ _ E), (bind_ok _ _ _ _ _ E).
        unfold ret. simpl. exists (VObj cls attrs'). simpl. rewrite Hcls.
        repeat split.
        apply resolve_image_shape in E.
        destruct E as [ref [url [_ [_ [-> _]]]]].
        now rewrite dict_set_set.
      * rewrite (bind_raise _ _ _ _ E). now rewrite (bind_raise _ _ _ _ E).
    + pose proof (over_attrs_walk attrs H assets w) as Hw.
      destruct (resolve_all (flat_map _ attrs) assets w) as [[r w']|e].
      * destruct Hw as [attrs' [H1 [H2 H3]]].
        rewrite (bind_ok _ _ _ _ _ H1). unfold ret. simpl.
        exists (VObj cls attrs'). simpl. rewrite Hcls. repeat split; congruence.
      * now rewrite (bind_raise _ _ _ _ Hw).
Qed.

Lemma resolve_assets_ok (obj obj' : value) (assets assets' : asset_map)
      (w w' : world) :
  resolve_assets am obj assets w = Ok ((obj', assets'), w') ->
  resolve_all (images obj) assets w = Ok ((images obj', assets'), w')
  /\ without_src obj' = without_src obj.
Proof.
  intros H. pose proof (walk_is_correct obj assets w) as Hw.
  destruct (resolve_all (images obj) assets w) as [[[imgs a] w1]|e].
  - destruct Hw as [obj1 [H1 [H2 H3]]]. rewrite H in H1.
    injection H1 as <- <- <-. simpl in H2. now subst.
  - congruence.
Qed.

Lemma resolve_assets_returns (obj : value) (assets assets' : asset_map)
      (w w' : world) (imgs' : list (list (string * value))) :
  resolve_all (images obj) assets w = Ok ((imgs', assets'), w') ->
  exists obj',
    resolve_assets am obj assets w = Ok ((obj', assets'), w')
    /\ images obj' = imgs'
    /\ without_src obj' = without_src obj.
Proof.
  intros H. pose proof (walk_is_correct obj assets w) as Hw.
  rewrite H in Hw. exact Hw.
Qed.

End Walk.

End WalkFacts.

(** ** One image module *)
Module ImageFacts.
Import Pydantic Assets Resolver ProviderFacts StrategyFacts WalkFacts.

Definition quiet (events : list event) : Prop :=
  forallb (fun e => negb (is_manager_call e)) events = true.

(** An image module as the model declares it: [src] and [alt] are strings. *)
Definition image_attrs_ok (attrs : list (string * value)) : Prop :=
  (exists s, dict_get "src" attrs = Some (VStr s))
  /\ (exists a, dict_get "alt" attrs = Some (VStr a)).

(** The query of [get_image] for a module: [obj.alt or description]. *)
Definition query_of (alt description : string) : string :=
  if String.eqb alt "" then description else alt.

Section Image.
Variable am : AssetManager.

(** With the default dimensions [get_image] returns, and it is one call
    of the manager. *)
Lemma get_image_default (description : string) (use_ai : bool) (w : world) :
  exists url w' rest,
    get_image am description 800 600 use_ai w = Ok (url, w')
    /\ trace w' = (trace w ++ GetImage description 800 600 use_ai :: rest)%list
    /\ quiet rest.
Proof.
  destruct (use_ai && is_dalle_or_mixed (policy am)) eqn:Hai.
  - apply andb_true_iff in Hai. destruct Hai as [-> Hp].
    destruct (get_image_generates am description 800 600 w s1024x1024 Hp eq_refl)
      as [url Hurl].
    rewrite Hurl. do 3 eexists. split; [reflexivity|]. simpl.
    split; [reflexivity|reflexivity].
  - destruct (policy am) eqn:Hp.
    + rewrite (get_image_unsplash am description 800 600 use_ai w Hp).
      do 3 eexists. split; [reflexivity|]. split; reflexivity.
    + assert (use_ai = false) as ->
          by (destruct use_ai; [simpl in Hai; discriminate | reflexivity]).
      rewrite get_image_search by (right; assumption).
      destruct (found _ _ _); do 3 eexists; (split; [reflexivity|]);
        simpl; rewrite <- app_assoc; split; reflexivity.
    + rewrite (get_image_placeholder am description 800 600 use_ai w Hp).
      do 3 eexists. split; [reflexivity|]. split; reflexivity.
    + assert (use_ai = false) as ->
          by (destruct use_ai; [simpl in Hai; discriminate | reflexivity]).
      rewrite get_image_search by (left; assumption).
      destruct (found _ _ _); do 3 eexists; (split; [reflexivity|]);
        simpl; rewrite <- app_assoc; split; reflexivity.
Qed.

Lemma social_icon_entry (platform : string) :
  dict_get platform (social_icons_from am [platform] [])
  = Some (library_get_social_icon (custom am) platform).
Proof. simpl. now rewrite String.eqb_refl. Qed.

Lemma alt_or_string (attrs : list (string * value)) (description a : string) :
  dict_get "alt" attrs = Some (VStr a) ->
  alt_or attrs description = Ok (query_of a description).
Proof.
  intros H. unfold alt_or, query_of. rewrite H. simpl.
  destruct (String.eqb a ""); reflexivity.
Qed.

(** The three branches of the classification. *)
Lemma resolve_description_logo (attrs : list (string * value))
      (description : string) (w : world) :
  PyStr.startswith description "logo-" = true ->
  resolve_description am attrs description w
  = Ok (library_get_logo (custom am) (PyStr.replace description "logo-" ""),
        logged w (GetLogo (PyStr.replace description "logo-" ""))).
Proof. intros H. unfold resolve_description. rewrite H. reflexivity. Qed.

Lemma resolve_description_social (attrs : list (string * value))
      (description : string) (w : world) :
  PyStr.startswith description "logo-" = false ->
  PyStr.startswith description "social-" = true ->
  resolve_description am attrs description w
  = Ok (library_get_social_icon (custom am)
          (PyStr.replace description "social-" ""),
        logged w (GetSocialIcons [PyStr.replace description "social-" ""])).
Proof.
  intros H1 H2. unfold resolve_description. rewrite H1, H2.
  unfold get_social_icons, bind, log, ret. simpl.
  now rewrite String.eqb_refl.
Qed.

Lemma resolve_description_generic (attrs : list (string * value))
      (description : string) (w : world) :
  PyStr.startswith description "logo-" = false ->
  PyStr.startswith description "social-" = false ->
  resolve_description am attrs description w
  = match alt_or attrs description with
    | Ok query => get_image am query 800 600 (use_ai_of description) w
    | Raise e => Raise e
    end.
Proof.
  intros H1 H2. unfold resolve_description. rewrite H1, H2.
  unfold bind, lift. destruct (alt_or attrs description); reflexivity.
Qed.

(** A resolution that returns is one call of the manager. *)
Lemma resolve_description_trace (attrs : list (string * value))
      (description url : string) (w w' : world) :
  resolve_description am attrs description w = Ok (url, w') ->
  exists call rest,
    trace w' = (trace w ++ call :: rest)%list
    /\ is_manager_call call = true /\ quiet rest.
Proof.
  destruct (PyStr.startswith description "logo-") eqn:H1.
  - rewrite resolve_description_logo by assumption.
    intros H. injection H as _ <-. do 2 eexists. repeat split.
  - destruct (PyStr.startswith description "social-") eqn:H2.
    + rewrite resolve_description_social by assumption.
      intros H. injection H as _ <-. do 2 eexists. repeat split.
    + rewrite resolve_description_generic by assumption.
      destruct (alt_or attrs description) as [query|e]; [|discriminate].
      destruct (get_image_default query (use_ai_of description) w)
        as [url1 [w1 [rest [Hg [Ht Hq]]]]].
      rewrite Hg. intros H. injection H as _ <-. eauto.
Qed.

Lemma resolve_description_returns (attrs : list (string * value))
      (description a : string) (w : world) :
  dict_get "alt" attrs = Some (VStr a) ->
  exists url w', resolve_description am attrs description w = Ok (url, w').
Proof.
  intros Halt.
  destruct (PyStr.startswith description "logo-") eqn:H1.
  - rewrite resolve_description_logo by assumption. eauto.
  - destruct (PyStr.startswith description "social-") eqn:H2.
    + rewrite resolve_description_social by assumption. eauto.
    + rewrite resolve_description_generic by assumption.
      rewrite (alt_or_string _ _ _ Halt).
      destruct (get_image_default (query_of a description)
                  (use_ai_of description) w)
        as [url [w' [rest [Hg _]]]].
      eauto.
Qed.

Lemma resolve_image_intro (attrs : list (string * value))
      (assets : asset_map) (w w' : world) (description url : string) :
  dict_get "src" attrs = Some (VStr description) ->
  resolve_description am attrs description w = Ok (url, w') ->
  resolve_image am attrs assets w
  = Ok ((dict_set "src" (VStr url) attrs, dict_set description url assets), w').
Proof.
  intros Hsrc Hd. unfold resolve_image. rewrite Hsrc.
  rewrite (bind_ok _ _ _ _ _ Hd). now rewrite dict_get_set_same.
Qed.

Lemma resolve_image_returns (attrs : list (string * value))
      (assets : asset_map) (w : world) :
  image_attrs_ok attrs ->
  exists r w', resolve_image am attrs assets w = Ok (r, w').
Proof.
  intros [[s Hsrc] [a Halt]].
  destruct (resolve_description_returns attrs s a w Halt) as [url [w' Hd]].
  rewrite (resolve_image_intro _ assets _ _ _ _ Hsrc Hd). eauto.
Qed.

(** Under the policies unsplash and placeholder the URL is a function of
    the reference and the alt text. *)
Lemma resolve_description_static (attrs1 attrs2 : list (string * value))
      (description url1 url2 : string) (w1 w2 w1' w2' : world) :
  policy am = unsplash \/ policy am = placeholder ->
  dict_get "alt" attrs1 = dict_get "alt" attrs2 ->
  resolve_description am attrs1 description w1 = Ok (url1, w1') ->
  resolve_description am attrs2 description w2 = Ok (url2, w2') ->
  url1 = url2.
Proof.
  intros Hp Halt.
  destruct (PyStr.startswith description "logo-") eqn:H1.
  - rewrite !resolve_description_logo by assumption. congruence.
  - destruct (PyStr.startswith description "social-") eqn:H2.
    + rewrite !resolve_description_social by assumption. congruence.
    + rewrite !resolve_description_generic by assumption.
      unfold alt_or. rewrite Halt.
      destruct (dict_get "alt" attrs2) as [alt|]; [|discriminate].
      destruct (truthy alt).
      * destruct alt; try discriminate.
        destruct Hp as [Hp|Hp].
        -- rewrite !(get_image_unsplash am _ 800 600 _ _ Hp). congruence.
        -- rewrite !(get_image_placeholder am _ 800 600 _ _ Hp). congruence.
      * destruct Hp as [Hp|Hp].
        -- rewrite !(get_image_unsplash am _ 800 600 _ _ Hp). congruence.
        -- rewrite !(get_image_placeholder am _ 800 600 _ _ Hp). congruence.
Qed.

End Image.

End ImageFacts.

(** ** The pass over a document *)
Module PassFacts.
Import Pydantic Assets Resolver ProviderFacts StrategyFacts WalkFacts ImageFacts
       ValidateFacts.

Definition calls (w : world) : nat :=
  List.length (filter is_manager_call (trace w)).

Definition refs_of (imgs : list (list (string * value))) : list string :=
  flat_map (fun attrs => match src_of attrs with Some s => [s] | None => [] end) imgs.

Section Pass.
Variable am : AssetManager.

(** The steps of a pass that returns. *)
Inductive resolved :
  list (list (string * value)) -> asset_map -> world ->
  list (list (string * value)) -> asset_map -> world -> Prop :=
| resolved_nil : forall assets w, resolved [] assets w [] assets w
| resolved_cons :
    forall attrs rest assets w description url w1 rest' assets' w',
      src_of attrs = Some description ->
      resolve_description am attrs description w = Ok (url, w1) ->
      resolved rest (dict_set description url assets) w1 rest' assets' w' ->
      resolved (attrs :: rest) assets w
               (dict_set "src" (VStr url) attrs :: rest') assets' w'.

Lemma resolve_all_resolved (imgs imgs' : list (list (string * value)))
      (assets assets' : asset_map) (w w' : world) :
  resolve_all am imgs assets w = Ok ((imgs', assets'), w') ->
  resolved imgs assets w imgs' assets' w'.
Proof.
  revert imgs' assets w. induction imgs as [|attrs rest IH];
    intros imgs' assets w; simpl.
  - unfold ret. intros H. injection H as <- <- <-. constructor.
  - destruct (resolve_image am attrs assets w) as [[[attrs1 assets1] w1]|e] eqn:E.
    + rewrite (bind_ok _ _ _ _ _ E). simpl.
      destruct (resolve_all am rest assets1 w1) as [[[rest1 assets2] w2]|e] eqn:E2.
      * rewrite (bind_ok _ _ _ _ _ E2). unfold ret. simpl.
        intros H. injection H as <- <- <-.
        apply resolve_image_shape in E.
        destruct E as [ref [url [Hsrc [Hd [-> ->]]]]].
        econstructor; eauto.
      * rewrite (bind_raise _ _ _ _ E2). discriminate.
    + rewrite (bind_raise _ _ _ _ E). discriminate.
Qed.

Lemma resolve_all_returns (imgs : list (list (string * value))) :
  Forall image_attrs_ok imgs ->
  forall assets w, exists r w', resolve_all am imgs assets w = Ok (r, w').
Proof.
  induction 1 as [|attrs rest Hok _ IH]; intros assets w; simpl.
  - unfold ret. eauto.
  - destruct (resolve_image_returns am attrs assets w Hok) as [r1 [w1 E]].
    rewrite (bind_ok _ _ _ _ _ E).
    destruct (IH (snd r1) w1) as [r2 [w2 E2]].
    rewrite (bind_ok _ _ _ _ _ E2). unfold ret. eauto.
Qed.

(** One call of the manager for every image module. *)
Lemma resolved_calls imgs assets w imgs' assets' w' :
  resolved imgs assets w imgs' assets' w' ->
  calls w' = calls w + List.length imgs.
Proof.
  induction 1 as [|attrs rest assets w d url w1 rest' assets' w' Hsrc Hd _ IH];
    simpl; [lia|].
  apply resolve_description_trace in Hd.
  destruct Hd as [call [evs [Ht [Hcall Hq]]]].
  rewrite IH. unfold calls. rewrite Ht, filter_app, length_app. simpl.
  rewrite Hcall. simpl.
  assert (Hnone : filter is_manager_call evs = []).
  { clear -Hq. unfold quiet in Hq. induction evs as [|e evs IH]; simpl in *; auto.
    apply andb_true_iff in Hq. destruct Hq as [He Hq].
    destruct (is_manager_call e); [discriminate | auto]. }
  rewrite Hnone. simpl. lia.
Qed.

(** The audit map gains the references, each one once. *)
Lemma resolved_keys imgs assets w imgs' assets' w' :
  resolved imgs assets w imgs' assets' w' ->
  (NoDup (keys assets) -> NoDup (keys assets'))
  /\ forall r, In r (keys assets') <-> In r (keys assets) \/ In r (refs_of imgs).
Proof.
  induction 1 as [|attrs rest assets w d url w1 rest' assets' w' Hsrc Hd _ IH];
    simpl.
  - split; [auto|]. intros r. tauto.
  - destruct IH as [IHnd IHin]. split.
    + intros Hnd. apply IHnd. now apply NoDup_keys_dict_set.
    + intros r. rewrite IHin, in_keys_dict_set, Hsrc, in_app_iff. simpl.
      intuition auto.
Qed.

(** Every module keeps its attributes but [src], which becomes the URL
    of its own resolution. *)
Definition step (attrs attrs' : list (string * value)) : Prop :=
  exists description url w1 w2,
    src_of attrs = Some description
    /\ resolve_description am attrs description w1 = Ok (url, w2)
    /\ attrs' = dict_set "src" (VStr url) attrs.

Lemma resolved_steps imgs assets w imgs' assets' w' :
  resolved imgs assets w imgs' assets' w' -> Forall2 step imgs imgs'.
Proof.
  induction 1; constructor; auto.
  unfold step. eauto 8.
Qed.

Lemma step_src (attrs attrs' : list (string * value)) :
  step attrs attrs' ->
  exists url, attrs' = dict_set "src" (VStr url) attrs /\ src_of attrs' = Some url.
Proof.
  intros [d [url [w1 [w2 [_ [_ ->]]]]]]. exists url. split; [reflexivity|].
  unfold src_of. now rewrite dict_get_set_same.
Qed.

Lemma step_alt (attrs attrs' : list (string * value)) :
  step attrs attrs' -> dict_get "alt" attrs' = dict_get "alt" attrs.
Proof.
  intros [d [url [w1 [w2 [_ [_ ->]]]]]].
  apply dict_get_set_other. discriminate.
Qed.

Lemma Forall2_nth {A B} (R : A -> B -> Prop) (l : list A) (l' : list B) :
  Forall2 R l l' ->
  forall i x x', nth_error l i = Some x -> nth_error l' i = Some x' -> R x x'.
Proof.
  induction 1 as [|a b l l' Hab _ IH]; intros [|i] x x'; simpl; try discriminate.
  - intros H1 H2. injection H1 as <-. injection H2 as <-. assumption.
  - apply IH.
Qed.

(** Two modules with the same reference and the same alt text get the
    same URL when the policy is unsplash or placeholder. *)
Lemma static_same_url imgs imgs' :
  policy am = unsplash \/ policy am = placeholder ->
  Forall2 step imgs imgs' ->
  forall i j x y x' y',
    nth_error imgs i = Some x -> nth_error imgs j = Some y ->
    nth_error imgs' i = Some x' -> nth_error imgs' j = Some y' ->
    src_of x = src_of y -> alt_of x = alt_of y ->
    alt_of x <> None ->
    src_of x' = src_of y'.
Proof.
  intros Hp Hsteps i j x y x' y' Hx Hy Hx' Hy' Hsrc Halt Hsome.
  pose proof (Forall2_nth _ _ _ Hsteps i x x' Hx Hx') as Sx.
  pose proof (Forall2_nth _ _ _ Hsteps j y y' Hy Hy') as Sy.
  destruct Sx as [dx [ux [wx [wx' [Hdx [Hrx ->]]]]]].
  destruct Sy as [dy [uy [wy [wy' [Hdy [Hry ->]]]]]].
  unfold src_of at 1 2. rewrite !dict_get_set_same.
  assert (dx = dy) by congruence. subst dy.
  f_equal.
  assert (Halt' : dict_get "alt" x = dict_get "alt" y).
  { unfold alt_of in Halt, Hsome.
    destruct (dict_get "alt" x) as [[]|]; try congruence;
      destruct (dict_get "alt" y) as [[]|]; congruence. }
  exact (resolve_description_static am x y dx ux uy wx wy wx' wy' Hp Halt' Hrx Hry).
Qed.

End Pass.

(** *** Documents of the model *)

Definition has_str_field (n : string) (fields : list (field ftype)) : bool :=
  match find (fun g => String.eqb n (fname g)) fields with
  | Some f => frequired f && match ftyp f with TStr => true | _ => false end
  | None => false
  end.

(** A type whose [ImageModule] declares [src] and [alt] as required
    strings. *)
Fixpoint image_typed (t : ftype) : bool :=
  match t with
  | TList elem _ _ => image_typed elem
  | TModel name _ fields =>
      (if is_image_class name
       then has_str_field "src" fields && has_str_field "alt" fields
       else true)
      && forallb (fun f => image_typed (ftyp f)) fields
  | TUnion members => forallb image_typed members
  | _ => true
  end.

Lemma check_int_valid ge le n d : check_int ge le n = Valid d -> d = VInt n.
Proof.
  unfold check_int.
  repeat match goal with
         | |- context [match ?o with Some _ => _ | None => _ end] => destruct o
         | |- context [if ?b then _ else _] => destruct b
         end; intros H; now inversion H.
Qed.

Lemma check_float_valid ge le x d : check_float ge le x = Valid d -> d = VFloat x.
Proof.
  unfold check_float. destruct (_ && _); intros H; now inversion H.
Qed.

Section Typed.
Variable lax : lax_mode.

Lemma str_field_attr (pbn : bool) (entries : list (string * value))
      (fields : list (field ftype)) (attrs : list (string * value)) (n : string) :
  Forall2 (field_valid lax pbn entries) fields attrs ->
  has_str_field n fields = true ->
  exists s, dict_get n attrs = Some (VStr s).
Proof.
  intros Hf Hs. unfold has_str_field in Hs.
  destruct (find _ fields) as [f|] eqn:Efind; [|discriminate].
  apply andb_true_iff in Hs. destruct Hs as [Hreq Hty].
  destruct (field_attr lax pbn entries fields attrs n f Hf Efind) as [x [Hx Hv]].
  destruct (required_field _ _ _ _ _ Hreq Hv) as [given [_ Hg]].
  destruct (ftyp f); try discriminate.
  simpl in Hg. destruct given; try discriminate. injection Hg as <-. eauto.
Qed.

Lemma validated_images (t : ftype) :
  image_typed t = true ->
  forall v d, validate lax t v = Valid d -> Forall image_attrs_ok (images d).
Proof.
  induction t using ftype_nested_ind; intros Ht v d Hv.
  - simpl in Hv. destruct v; inversion Hv. constructor.
  - simpl in Hv.
    assert (exists n, d = VInt n) as [n ->].
    { destruct v; try (destruct (coerce _ _); [|discriminate]);
        apply check_int_valid in Hv; eauto. }
    constructor.
  - simpl in Hv.
    assert (exists x, d = VFloat x) as [x ->].
    { destruct v; try (destruct (coerce _ _); [|discriminate]);
        apply check_float_valid in Hv; eauto. }
    constructor.
  - simpl in Hv.
    assert (exists b, d = VBool b) as [b ->].
    { destruct v; try (destruct (coerce _ _); [|discriminate]);
        inversion Hv; eauto. }
    constructor.
  - simpl in Hv. destruct v; try discriminate.
    destruct (existsb _ _); inversion Hv. constructor.
  - simpl in Hv. destruct v; inversion Hv. constructor.
  - apply validate_list_inv in Hv.
    destruct Hv as [items [xs [-> [-> [_ Hall]]]]]. simpl in *.
    induction Hall as [|i x items xs Hx _ IH]; simpl; [constructor|].
    apply Forall_app. split; [eapply IHt; eauto | exact IH].
  - apply validate_model_inv in Hv.
    destruct Hv as [entries [attrs [-> [-> Hfields]]]].
    simpl in Ht. apply andb_true_iff in Ht. destruct Ht as [Himg Hall].
    simpl. destruct (is_image_class name).
    + apply andb_true_iff in Himg. destruct Himg as [Hsrc Halt].
      constructor; [|constructor]. split.
      * exact (str_field_attr _ _ _ _ _ Hfields Hsrc).
      * exact (str_field_attr _ _ _ _ _ Hfields Halt).
    + clear Himg. induction Hfields as [|f [k x] fs attrs [_ Hx] _ IH]; simpl;
        [constructor|].
      simpl in Hall. apply andb_true_iff in Hall. destruct Hall as [Hf Hfs].
      inversion H as [|? ? Pf Pfs]; subst.
      apply Forall_app. split; [|now apply IH].
      simpl in Hx. destruct (any_field _ _ _ _ _ Hx) as [->|[given Hg]].
      * constructor.
      * exact (Pf Hf given x Hg).
  - apply validate_union_inv in Hv. destruct Hv as [m [Hin Hm]].
    simpl in Ht. rewrite forallb_forall in Ht. rewrite Forall_forall in H.
    exact (H m Hin (Ht m Hin) v d Hm).
Qed.

(** The pass returns on every document the model accepts. *)
Lemma resolve_assets_validated (am : AssetManager) (v d : value)
      (assets : asset_map) (w : world) :
  validate lax EmailTemplate v = Valid d ->
  exists d' assets' w',
    resolve_assets am d assets w = Ok ((d', assets'), w')
    /\ resolved am (images d) assets w (images d') assets' w'
    /\ without_src d' = without_src d.
Proof.
  intros Hv.
  pose proof (validated_images EmailTemplate eq_refl v d Hv) as Hok.
  destruct (resolve_all_returns am (images d) Hok assets w) as [[imgs' assets'] [w' E]].
  destruct (resolve_assets_returns am d assets assets' w w' imgs' E)
    as [d' [Hr [Hi Hw]]].
  exists d', assets', w'. split; [exact Hr|]. split; [|exact Hw].
  subst imgs'. now apply resolve_all_resolved.
Qed.

End Typed.

End PassFacts.

(** ** Sample documents *)
Module Documents.
Import Pydantic Assets Samples.

Definition image_json (src alt : string) : value :=
  VDict [("type", VStr "image"); ("src", VStr src); ("alt", VStr alt)].

Definition column_json (modules : list value) : value :=
  VDict [("weight", VInt 12); ("modules", VList modules)].

Definition row_json (columns : list value) : value :=
  VDict [("name", VStr "main"); ("columns", VList columns)].

Definition document_json (rows : list value) : value :=
  VDict [("template", VDict [("type", VStr "email"); ("rows", VList rows)])].

Definition one_column_json (modules : list value) : value :=
  document_json [row_json [column_json modules]].

(** What a validator makes of a wire form ([None] when it rejects it). *)
Definition accepted (t : ftype) (wire : value) : value :=
  match validate strict t wire with
  | Valid d => d
  | Invalid _ => VNone
  end.

(** Two image modules with the same reference and the same alt text. *)
Definition hero_twice_json : value :=
  one_column_json [image_json "hero-launch" "Launch"; image_json "hero-launch" "Launch"].

Definition hero_twice : value :=
  Eval vm_compute in accepted Resolver.EmailTemplate hero_twice_json.

(** A search that finds a different photo at every request. *)
Definition fresh_photos : services :=
  {| unsplash_access_key := Some "key";
     unsplash_api := fun n _ =>
       Some ["https://images.unsplash.com/photo-" ++ PyStr.of_int (Z.of_nat n)];
     images_api := fun _ _ _ => None |}.

(** A reference of 62 characters, and no alt text. *)
Definition long_reference : string :=
  "team-office-with-large-windows-and-plants-in-the-morning-light".

Definition long_reference_json : value :=
  one_column_json [image_json long_reference ""].

Definition long_reference_doc : value :=
  Eval vm_compute in accepted Resolver.EmailTemplate long_reference_json.

(** A logo, a button, a social icon and two generic images. *)
Definition newsletter_json : value :=
  one_column_json
    [ image_json "logo-white" "Logo";
      VDict [("type", VStr "button"); ("text", VStr "Read more");
             ("href", VStr "https://example.com");
             ("background-color", VStr "#2563eb")];
      image_json "team-office" "";
      image_json "team-office" "";
      image_json "social-Facebook" "Facebook" ].

Definition newsletter : value :=
  Eval vm_compute in accepted Resolver.EmailTemplate newsletter_json.

End Documents.

(** ** The layout of a document *)
Module LayoutFacts.
Import Pydantic Agent Resolver.

(** The number of modules of every column of every row. *)
Definition layout (doc : value) : list (list nat) :=
  map (fun row => map (fun column => List.length (modules_of column))
                      (columns_of row))
      (rows_of doc).

Lemma dict_get_map (f : value -> value) (k : string) (l : list (string * value)) :
  dict_get k (map (fun kv => (fst kv, f (snd kv))) l) = option_map f (dict_get k l).
Proof.
  induction l as [|[k' x] tl IH]; simpl; [reflexivity|].
  destruct (String.eqb k k'); [reflexivity | exact IH].
Qed.

(** Two objects that differ in the [src] of image modules only have the same
    attributes, up to the same difference. *)
Lemma same_attr (a b : value) (k : string) :
  without_src a = without_src b -> k <> "src" ->
  option_map without_src (getattr a k) = option_map without_src (getattr b k).
Proof.
  intros H Hk.
  destruct a as [| | | | | |ea|cls attrs];
    try (destruct b as [| | | | | |eb|cls' attrs']; simpl in H; try discriminate;
         try reflexivity;
         destruct (is_image_class cls'); discriminate).
  destruct b as [| | | | | |eb|cls' attrs']; simpl in H;
    try (destruct (is_image_class cls); discriminate).
  destruct (is_image_class cls) eqn:Ea; destruct (is_image_class cls') eqn:Eb;
    injection H as Hc Hattrs; subst cls'; try congruence; simpl.
  - assert (E : dict_get k attrs = dict_get k attrs').
    { rewrite <- (dict_get_set_other "src" k VNone attrs) by assumption.
      rewrite <- (dict_get_set_other "src" k VNone attrs') by assumption.
      now rewrite Hattrs. }
    now rewrite E.
  - rewrite <- !dict_get_map. now rewrite Hattrs.
Qed.

Lemma same_items (x y : option value) :
  option_map without_src x = option_map without_src y ->
  map without_src (items_of x) = map without_src (items_of y).
Proof.
  destruct x as [a|], y as [b|]; simpl; try discriminate; [|reflexivity].
  intros H. injection H as H.
  destruct a as [| | | | |la| |cls attrs];
    destruct b as [| | | | |lb| |cls' attrs']; simpl in *;
    try reflexivity; try discriminate;
    try (destruct (is_image_class cls'); discriminate);
    try (destruct (is_image_class cls); discriminate).
  now injection H.
Qed.

Lemma same_list_attr (a b : value) (k : string) :
  without_src a = without_src b -> k <> "src" ->
  map without_src (items_of (getattr a k)) = map without_src (items_of (getattr b k)).
Proof. intros H Hk. apply same_items. now apply same_attr. Qed.

Lemma map_pointwise_list {A B C} (f : A -> B) (g : A -> C) (l l' : list A) :
  (forall x y, f x = f y -> g x = g y) ->
  map f l = map f l' -> map g l = map g l'.
Proof.
  intros Hfg. revert l'. induction l as [|x tl IH]; intros [|y tl'] H;
    simpl in *; try discriminate; [reflexivity|].
  injection H as Hx Htl. f_equal; auto.
Qed.

(** Rows, columns and modules keep their number. *)
Lemma same_layout (a b : value) :
  without_src a = without_src b -> layout a = layout b.
Proof.
  intros H. unfold layout.
  assert (Hrows : map without_src (rows_of a) = map without_src (rows_of b)).
  { unfold rows_of.
    pose proof (same_attr a b "template" H ltac:(discriminate)) as Ht.
    destruct (getattr a "template") as [t|], (getattr b "template") as [t'|];
      simpl in Ht; try discriminate; [|reflexivity].
    injection Ht as Ht. apply same_list_attr; [exact Ht | discriminate]. }
  eapply map_pointwise_list; [|exact Hrows].
  intros row row' Hrow.
  assert (Hcols : map without_src (columns_of row) = map without_src (columns_of row'))
    by (apply same_list_attr; [exact Hrow | discriminate]).
  eapply map_pointwise_list; [|exact Hcols].
  intros col col' Hcol.
  assert (Hmods : map without_src (modules_of col) = map without_src (modules_of col'))
    by (apply same_list_attr; [exact Hcol | discriminate]).
  rewrite <- (length_map without_src (modules_of col)), Hmods.
  apply length_map.
Qed.

End LayoutFacts.

(** ** The asset resolver on the documents of its model *)
Module ResolverFacts.
Import Pydantic Assets Resolver Samples Documents.
Import ProviderFacts StrategyFacts WalkFacts ImageFacts PassFacts ValidateFacts
       LayoutFacts.

Lemma prefix_refl (s : string) : String.prefix s s = true.
Proof.
  induction s as [|c s IH]; simpl; [reflexivity|].
  destruct (ascii_dec c c); [exact IH | congruence].
Qed.

Lemma contains_unfold (sub s : string) :
  PyStr.contains sub s
  = String.prefix sub s
    || match s with
       | EmptyString => false
       | String _ tl => PyStr.contains sub tl
       end.
Proof. destruct s; reflexivity. Qed.

Lemma contains_suffix (p s : string) : PyStr.contains s (p ++ s) = true.
Proof.
  induction p as [|c p IH].
  - simpl. rewrite contains_unfold, prefix_refl. reflexivity.
  - change (String c p ++ s) with (String c (p ++ s)).
    rewrite contains_unfold, IH. apply orb_true_r.
Qed.

Lemma append_assoc (a b c : string) : (a ++ b) ++ c = a ++ (b ++ c).
Proof. induction a as [|x a IH]; simpl; [reflexivity | now rewrite IH]. Qed.

Lemma take_all (n : nat) (s : string) :
  String.length s <= n -> PyStr.take n s = s.
Proof.
  revert n. induction s as [|c s IH]; intros [|n] H; simpl in *; try reflexivity; try lia.
  f_equal. apply IH. lia.
Qed.

Lemma placeholder_url_contains (description : string) (width height : Z) :
  PyStr.contains (PyStr.quote (PyStr.take 50 description))
                 (placeholder_get_image_url description width height) = true.
Proof.
  unfold placeholder_get_image_url.
  rewrite <- !append_assoc. apply contains_suffix.
Qed.

Lemma references_refs (d : value) : references d = refs_of (images d).
Proof. reflexivity. Qed.

Lemma validated_alt (lax : lax_mode) (v d : value) (x : list (string * value))
      (i : nat) :
  validate lax EmailTemplate v = Valid d ->
  nth_error (images d) i = Some x ->
  alt_of x <> None /\ src_of x <> None.
Proof.
  intros Hv Hx.
  pose proof (validated_images lax EmailTemplate eq_refl v d Hv) as Hok.
  rewrite Forall_forall in Hok.
  destruct (Hok x (nth_error_In _ _ Hx)) as [[s Hs] [a Ha]].
  unfold alt_of, src_of. rewrite Hs, Ha. split; discriminate.
Qed.

(** C1, as stated, fails: two image modules with the reference
    ["hero-launch"] (and the same alt text) cost two calls of the manager
    and two searches, and end with different URLs. *)
Lemma same_reference_resolved_twice :
  references hero_twice = ["hero-launch"; "hero-launch"]
  /\ exists d' assets w',
       resolve_template (manager fresh_photos mixed) hero_twice world0
       = Ok ((d', assets), w')
       /\ trace w' = [ GetImage "Launch" 800 600 false;
                       SearchSpecificImage "Launch";
                       GetImage "Launch" 800 600 false;
                       SearchSpecificImage "Launch" ]
       /\ references d' = [ "https://images.unsplash.com/photo-0";
                            "https://images.unsplash.com/photo-1" ]
       /\ assets = [("hero-launch", "https://images.unsplash.com/photo-1")].
Proof.
  split; [reflexivity|].
  do 3 eexists. split; [vm_compute; reflexivity|].
  split; [reflexivity|]. split; reflexivity.
Qed.

(** C9: on every accepted document the pass returns, and the document it
    leaves differs from the one it was given in the [src] of image modules
    only: rows, columns and modules keep their number and order, and every
    other field its value. *)
Theorem resolution_rewrites_src_only (lax : lax_mode) (am : AssetManager)
        (wire d : value) (w : world) :
  validate lax EmailTemplate wire = Valid d ->
  exists d' assets w',
    resolve_template am d w = Ok ((d', assets), w')
    /\ without_src d' = without_src d
    /\ layout d' = layout d
    /\ Forall2 (fun x x' => exists url, x' = dict_set "src" (VStr url) x)
               (images d) (images d').
Proof.
  intros Hv. unfold resolve_template.
  destruct (resolve_assets_validated lax am wire d [] w Hv)
    as [d' [assets [w' [Hr [Hres Hframe]]]]].
  exists d', assets, w'. split; [exact Hr|]. split; [exact Hframe|].
  split; [now apply same_layout|].
  apply resolved_steps in Hres.
  eapply Forall2_impl; [|exact Hres].
  intros x x' Hstep. destruct (step_src am x x' Hstep) as [url [-> _]]. eauto.
Qed.

Lemma resolution_rewrites_src_only_witness :
  layout newsletter = [[5%nat]]
  /\ exists d' assets w',
       resolve_template (manager online mixed) newsletter world0
       = Ok ((d', assets), w')
       /\ without_src d' = without_src newsletter
       /\ layout d' = layout newsletter
       /\ Forall2 (fun x x' => exists url, x' = dict_set "src" (VStr url) x)
                  (images newsletter) (images d').
Proof.
  split; [reflexivity|].
  exact (resolution_rewrites_src_only strict (manager online mixed)
           newsletter_json newsletter world0 eq_refl).
Defined.

(** C8, as stated, fails: the placeholder URL holds the first 50 characters
    of a description, so the URL of a longer one does not contain its
    escaped form. *)
Lemma long_description_is_truncated :
  references long_reference_doc = [long_reference]
  /\ (forall n query, found (outside (manager online mixed)) n query = None)
  /\ exists d' assets w',
       resolve_template (manager online mixed) long_reference_doc world0
       = Ok ((d', assets), w')
       /\ references d'
          = ["https://placehold.co/800x600/e5e7eb/1f2937?text=team-office-with-large-windows-and-plants-in-the-m"]
       /\ PyStr.contains (PyStr.quote long_reference)
            "https://placehold.co/800x600/e5e7eb/1f2937?text=team-office-with-large-windows-and-plants-in-the-m"
          = false.
Proof.
  split; [reflexivity|]. split; [reflexivity|].
  do 3 eexists. split; [vm_compute; reflexivity|].
  split; vm_compute; reflexivity.
Qed.

End ResolverFacts.

(** ** The validator of [agent.py] *)
Module AgentFacts.
Import Pydantic Agent Documents ValidateFacts.

Section Accepted.
Variable lax : lax_mode.

(** A required attribute of an accepted model is an instance of its
    type. *)
Lemma required_attr (name : string) (pbn : bool) (fields : list (field ftype))
      (v d : value) (n : string) (t : ftype) :
  validate lax (TModel name pbn fields) v = Valid d ->
  find (fun g => String.eqb n (fname g)) fields = Some (Field n None true t) ->
  exists entries given x,
    v = VDict entries
    /\ dict_get n entries = Some given
    /\ getattr d n = Some x
    /\ validate lax t given = Valid x.
Proof.
  intros Hv Hfind. apply validate_model_inv in Hv.
  destruct Hv as [entries [attrs [-> [-> Hfields]]]].
  destruct (field_attr lax pbn entries fields attrs n _ Hfields Hfind)
    as [x [Hx Hvx]].
  destruct (required_field (validate lax t) pbn (Field n None true t) entries x
              eq_refl Hvx) as [given [Hl Hg]].
  exists entries, given, x. auto.
Qed.

(** A field that is rejected makes the model rejected. *)
Lemma collect_fields_invalid (rs : list (string * string * result value))
      (n key : string) (e : error) :
  In (n, key, Invalid e) rs -> exists e', collect_fields rs = Invalid e'.
Proof.
  induction rs as [|[[k0 k1] r] rest IH]; simpl; [tauto|].
  intros [H|H].
  - injection H as -> -> ->. eauto.
  - destruct r as [x|e0]; [|eauto].
    destruct (IH H) as [e' ->]. eauto.
Qed.

Lemma field_invalid (name : string) (pbn : bool) (fields : list (field ftype))
      (entries : list (string * value)) (f : field ftype) (e : error) :
  In f fields ->
  validate_field (validate lax (ftyp f)) pbn f entries = Invalid e ->
  exists e', validate lax (TModel name pbn fields) (VDict entries) = Invalid e'.
Proof.
  intros Hin Hf. simpl.
  destruct (collect_fields_invalid
              (map (fun g => (fname g, error_key pbn g entries,
                              validate_field (validate lax (ftyp g)) pbn g entries))
                   fields) (fname f) (error_key pbn f entries) e) as [e' ->];
    [|eauto].
  apply in_map_iff. exists f. now rewrite Hf.
Qed.

Lemma check_length_bounds (lo hi n : nat) :
  check_length (Some lo) (Some hi) n = None <-> (lo <= n <= hi)%nat.
Proof.
  unfold check_length.
  destruct (n <? lo)%nat eqn:E1; [apply Nat.ltb_lt in E1 | apply Nat.ltb_ge in E1].
  - split; [discriminate | lia].
  - destruct (hi <? n)%nat eqn:E2; [apply Nat.ltb_lt in E2 | apply Nat.ltb_ge in E2].
    + split; [discriminate | lia].
    + split; [lia | reflexivity].
Qed.

Lemma check_length_min (lo n : nat) :
  check_length (Some lo) None n = None <-> (lo <= n)%nat.
Proof.
  unfold check_length.
  destruct (n <? lo)%nat eqn:E1; [apply Nat.ltb_lt in E1 | apply Nat.ltb_ge in E1].
  - split; [discriminate | lia].
  - split; [lia | reflexivity].
Qed.

Lemma Forall2_in_left {A B} (R : A -> B -> Prop) (l : list A) (l' : list B) (a : A) :
  Forall2 R l l' -> In a l -> exists b, In b l' /\ R a b.
Proof.
  induction 1 as [|x y l l' Hxy _ IH]; simpl; [tauto|].
  intros [->|Hin]; [eauto|]. destruct (IH Hin) as [b [Hb Hab]]. eauto.
Qed.

Lemma Forall2_in_right {A B} (R : A -> B -> Prop) (l : list A) (l' : list B) (b : B) :
  Forall2 R l l' -> In b l' -> exists a, In a l /\ R a b.
Proof.
  induction 1 as [|x y l l' Hxy _ IH]; simpl; [tauto|].
  intros [->|Hin]; [eauto|]. destruct (IH Hin) as [a [Ha Hab]]. eauto.
Qed.

(** The rows of an accepted document, and the wire rows they come from. *)
Lemma accepted_rows (wire d : value) :
  validate lax EmailTemplate wire = Valid d ->
  exists entries tentries wire_rows,
    wire = VDict entries
    /\ dict_get "template" entries = Some (VDict tentries)
    /\ dict_get "rows" tentries = Some (VList wire_rows)
    /\ (1 <= List.length wire_rows)%nat
    /\ Forall2 (fun i x => validate lax Row i = Valid x) wire_rows (rows_of d).
Proof.
  intros Hv.
  destruct (required_attr _ _ _ _ _ "template" Template Hv eq_refl)
    as [entries [tgiven [t [-> [Hl [Ht Hvt]]]]]].
  destruct (required_attr _ _ _ _ _ "rows" (TList Row (Some 1%nat) None) Hvt eq_refl)
    as [tentries [rgiven [rows [-> [Hlr [Hrows Hvr]]]]]].
  apply validate_list_inv in Hvr.
  destruct Hvr as [items [xs [-> [-> [Hlen Hall]]]]].
  apply check_length_min in Hlen.
  exists entries, tentries, items.
  unfold rows_of. rewrite Ht, Hrows. simpl. auto.
Qed.

(** The columns of an accepted row. *)
Lemma accepted_columns (wire row : value) :
  validate lax Row wire = Valid row ->
  exists entries wire_columns,
    wire = VDict entries
    /\ dict_get "columns" entries = Some (VList wire_columns)
    /\ (1 <= List.length wire_columns <= 12)%nat
    /\ Forall2 (fun i x => validate lax Column i = Valid x)
               wire_columns (columns_of row).
Proof.
  intros Hv.
  destruct (required_attr _ _ _ _ _ "columns"
              (TList Column (Some 1%nat) (Some 12%nat)) Hv eq_refl)
    as [entries [given [cols [-> [Hl [Hc Hvc]]]]]].
  apply validate_list_inv in Hvc.
  destruct Hvc as [items [xs [-> [-> [Hlen Hall]]]]].
  apply check_length_bounds in Hlen.
  exists entries, items. unfold columns_of. rewrite Hc. simpl. auto.
Qed.

(** The modules of an accepted column. *)
Lemma accepted_modules (wire column : value) :
  validate lax Column wire = Valid column ->
  exists entries wire_modules,
    wire = VDict entries
    /\ dict_get "modules" entries = Some (VList wire_modules)
    /\ getattr column "modules" = Some (VList (modules_of column))
    /\ Forall2 (fun i x => validate lax Module_ i = Valid x)
               wire_modules (modules_of column).
Proof.
  intros Hv.
  destruct (required_attr _ _ _ _ _ "modules" (List_ Module_) Hv eq_refl)
    as [entries [given [mods [-> [Hl [Hm Hvm]]]]]].
  apply validate_list_inv in Hvm.
  destruct Hvm as [items [xs [-> [-> [_ Hall]]]]].
  exists entries, items. unfold modules_of. rewrite Hm. simpl. auto.
Qed.

End Accepted.

End AgentFacts.

(** ** Rows, columns and module variants *)
Module SchemaFacts.
Import Pydantic Agent Documents ValidateFacts AgentFacts.

(** [obj[key]] on the wire form. *)
Definition wire_get (key : string) (wire : value) : option value :=
  match wire with
  | VDict entries => dict_get key entries
  | _ => None
  end.

(** The modules of a wire form: [template.rows[*].columns[*].modules[*]]. *)
Definition wire_modules (wire : value) : list value :=
  flat_map
    (fun row =>
       flat_map (fun column => items_of (wire_get "modules" column))
                (items_of (wire_get "columns" row)))
    (items_of (match wire_get "template" wire with
               | Some t => wire_get "rows" t
               | None => None
               end)).

(** The error of a union none of whose variants has the tag: a literal
    error on [type] for every variant. *)
Definition variant_error (member : ftype) : string * error :=
  match member with
  | TModel name _ (Field _ _ _ (TLiteral tags) :: _) =>
      (name, at_field "type" (literal_error tags))
  | _ => (type_name member, wrong_type "model")
  end.

Definition unknown_variant (union : ftype) : error :=
  match union with
  | TUnion members => no_member (map variant_error members)
  | _ => wrong_type "union"
  end.

Definition simplified_union : ftype :=
  TUnion [Resolver.ImageModule; Resolver.ButtonModule; Resolver.Module_].

Section Schema.
Variable lax : lax_mode.

Lemma validate_list_length (elem : ftype) (mn mx : option nat)
      (items : list value) (e : error) :
  check_length mn mx (List.length items) = Some e ->
  validate lax (TList elem mn mx) (VList items) = Invalid e.
Proof. intros H. simpl. now rewrite H. Qed.

Lemma row_columns_rejected (entries : list (string * value))
      (columns : list value) :
  dict_get "columns" entries = Some (VList columns) ->
  (List.length columns = 0 \/ 12 < List.length columns)%nat ->
  exists e, validate lax Row (VDict entries) = Invalid e.
Proof.
  intros Hc Hlen.
  destruct (check_length (Some 1%nat) (Some 12%nat) (List.length columns))
    as [e|] eqn:E.
  - apply (field_invalid lax "Row" true _ entries
             (Field "columns" None true (TList Column (Some 1%nat) (Some 12%nat))) e).
    + right. left. reflexivity.
    + unfold validate_field, lookup_field.
      cbv beta iota delta [falias fname frequired ftyp].
      rewrite Hc. now apply validate_list_length.
  - apply check_length_bounds in E. lia.
Qed.

Lemma tagged_model_rejects (name : string) (pbn : bool) (tags : list string)
      (rest : list (field ftype)) (entries : list (string * value))
      (tag : string) :
  dict_get "type" entries = Some (VStr tag) ->
  existsb (String.eqb tag) tags = false ->
  validate lax (TModel name pbn (req "type" (TLiteral tags) :: rest))
           (VDict entries)
  = Invalid (at_field "type" (literal_error tags)).
Proof.
  intros Ht He. simpl. unfold validate_field, lookup_field. simpl.
  rewrite Ht, He. reflexivity.
Qed.

Lemma not_among (tag : string) (tags all : list string) :
  ~ In tag all -> incl tags all -> existsb (String.eqb tag) tags = false.
Proof.
  intros Hout Hincl. destruct (existsb (String.eqb tag) tags) eqn:E; [|reflexivity].
  apply existsb_exists in E. destruct E as [x [Hx Heq]].
  apply String.eqb_eq in Heq. subst x. elim Hout. now apply Hincl.
Qed.

Lemma unknown_tag_rejected (entries : list (string * value)) (tag : string) :
  dict_get "type" entries = Some (VStr tag) ->
  ~ In tag module_tags ->
  validate lax Module_ (VDict entries) = Invalid (unknown_variant Module_).
Proof.
  intros Ht Hout.
  change (first_member
            (map (fun m => (type_name m, validate lax m (VDict entries)))
                 [ButtonModule; DividerModule; HtmlModule; IconsModule;
                  ImageModule; ListModule; MenuModule; ParagraphModule;
                  TitleModule])
          = Invalid (unknown_variant Module_)).
  apply first_member_all_invalid.
  repeat (apply Forall2_cons || apply Forall2_nil);
    (split; [reflexivity|]);
    apply (tagged_model_rejects _ _ _ _ entries tag Ht);
    apply not_among with (all := module_tags); auto;
    intros x Hx; simpl in Hx; simpl; intuition auto.
Qed.

Lemma simplified_model_accepts (entries : list (string * value)) (tag : string) :
  dict_get "type" entries = Some (VStr tag) ->
  tag <> "image" -> tag <> "button" ->
  validate lax simplified_union (VDict entries)
  = Valid (VObj "Module" [("type", VStr tag)]).
Proof.
  intros Ht Hi Hb.
  apply String.eqb_neq in Hi, Hb.
  assert (H1 : validate lax Resolver.ImageModule (VDict entries)
               = Invalid (at_field "type" (literal_error ["image"]))).
  { apply (tagged_model_rejects _ _ _ _ entries tag Ht). simpl. now rewrite Hi. }
  assert (H2 : validate lax Resolver.ButtonModule (VDict entries)
               = Invalid (at_field "type" (literal_error ["button"]))).
  { apply (tagged_model_rejects _ _ _ _ entries tag Ht). simpl. now rewrite Hb. }
  assert (H3 : validate lax Resolver.Module_ (VDict entries)
               = Valid (VObj "Module" [("type", VStr tag)])).
  { simpl. unfold validate_field, lookup_field. simpl. now rewrite Ht. }
  change (first_member
            [ ("ImageModule", validate lax Resolver.ImageModule (VDict entries));
              ("ButtonModule", validate lax Resolver.ButtonModule (VDict entries));
              ("Module", validate lax Resolver.Module_ (VDict entries)) ]
          = Valid (VObj "Module" [("type", VStr tag)])).
  rewrite H1, H2, H3. reflexivity.
Qed.

Lemma document_with_unknown_tag (wire : value)
      (entries : list (string * value)) (tag : string) :
  In (VDict entries) (wire_modules wire) ->
  dict_get "type" entries = Some (VStr tag) ->
  ~ In tag module_tags ->
  exists e, validate lax EmailTemplate wire = Invalid e.
Proof.
  intros Hin Ht Hout.
  destruct (validate lax EmailTemplate wire) as [d|e] eqn:Hv; [|eauto].
  exfalso.
  destruct (accepted_rows lax wire d Hv)
    as [es [tes [wrows [-> [Htpl [Hrows [_ Hall]]]]]]].
  unfold wire_modules in Hin. simpl in Hin. rewrite Htpl in Hin. simpl in Hin.
  rewrite Hrows in Hin. simpl in Hin.
  apply in_flat_map in Hin. destruct Hin as [wrow [Hwrow Hin]].
  destruct (Forall2_in_left _ _ _ _ Hall Hwrow) as [row [_ Hrow]].
  destruct (accepted_columns lax wrow row Hrow)
    as [res [wcols [-> [Hcols [_ Hallc]]]]].
  simpl in Hin. rewrite Hcols in Hin. simpl in Hin.
  apply in_flat_map in Hin. destruct Hin as [wcol [Hwcol Hin]].
  destruct (Forall2_in_left _ _ _ _ Hallc Hwcol) as [col [_ Hcol]].
  destruct (accepted_modules lax wcol col Hcol)
    as [ces [wmods [-> [Hmods [_ Hallm]]]]].
  simpl in Hin. rewrite Hmods in Hin. simpl in Hin.
  destruct (Forall2_in_left _ _ _ _ Hallm Hin) as [m [_ Hm]].
  rewrite (unknown_tag_rejected entries tag Ht Hout) in Hm. discriminate.
Qed.

Lemma accepted_row_bounds (wire d : value) :
  validate lax EmailTemplate wire = Valid d ->
  rows_of d <> []
  /\ Forall (fun row =>
               (1 <= List.length (columns_of row) <= 12)%nat
               /\ Forall (fun column =>
                            getattr column "modules"
                            = Some (VList (modules_of column)))
                         (columns_of row))
            (rows_of d).
Proof.
  intros Hv.
  destruct (accepted_rows lax wire d Hv)
    as [es [tes [wrows [-> [Htpl [Hrows [Hlen Hall]]]]]]].
  split.
  - intros Hnil. rewrite Hnil in Hall. inversion Hall; subst. simpl in Hlen. lia.
  - apply Forall_forall. intros row Hrow.
    destruct (Forall2_in_right _ _ _ _ Hall Hrow) as [wrow [_ Hvrow]].
    destruct (accepted_columns lax wrow row Hvrow)
      as [res [wcols [-> [Hcols [Hclen Hallc]]]]].
    split.
    + rewrite <- (Forall2_length Hallc). exact Hclen.
    + apply Forall_forall. intros col Hcol.
      destruct (Forall2_in_right _ _ _ _ Hallc Hcol) as [wcol [_ Hvcol]].
      destruct (accepted_modules lax wcol col Hvcol)
        as [ces [wmods [_ [_ [Hm _]]]]].
      exact Hm.
Qed.

End Schema.

End SchemaFacts.

(** ** A row that is accepted *)
Module RowFacts.
Import Pydantic Agent Documents ValidateFacts AgentFacts SchemaFacts.

Definition fields_of (t : ftype) : list (field ftype) :=
  match t with
  | TModel _ _ fields => fields
  | _ => []
  end.

(** The attributes of a row given by its name and columns alone. *)
Definition plain_row (name : string) (columns : list value)
  : list (string * value) :=
  ("name", VStr name) :: ("columns", VList columns)
    :: map (fun f => (fname f, VNone)) (skipn 2 (fields_of Row)).

Lemma row_accepted (lax : lax_mode) (name : string) (columns xs : list value) :
  Forall2 (fun c x => validate lax Column c = Valid x) columns xs ->
  (1 <= List.length columns <= 12)%nat ->
  validate lax Row (VDict [("name", VStr name); ("columns", VList columns)])
  = Valid (VObj "Row" (plain_row name xs)).
Proof.
  intros Hcols Hlen.
  apply (validate_model_intro lax "Row" true).
  unfold plain_row. simpl map.
  apply Forall2_cons; [split; reflexivity|].
  apply Forall2_cons.
  - split; [reflexivity|].
    unfold validate_field, lookup_field.
    cbv beta iota delta [falias fname frequired ftyp req dict_get String.eqb
                         Ascii.eqb Bool.eqb snd].
    apply validate_list_intro; [|exact Hcols].
    now apply check_length_bounds.
  - repeat (apply Forall2_cons || apply Forall2_nil);
      (split; [reflexivity | lazy; reflexivity]).
Qed.

End RowFacts.

(** ** Round trip through the wire form *)
Module RoundTrip.
Import Pydantic ValidateFacts.

(** *** Types for which the wire form determines the instance *)

Fixpoint nodup_b (l : list string) : bool :=
  match l with
  | [] => true
  | x :: tl => negb (existsb (String.eqb x) tl) && nodup_b tl
  end.

(** The tags of a variant: its first field is [type: Literal[...]], required
    and without alias. *)
Definition member_tags (m : ftype) : option (list string) :=
  match m with
  | TModel _ _ (Field n None true (TLiteral tags) :: _) =>
      if String.eqb n "type" then Some tags else None
  | _ => None
  end.

Definition apart (m m' : ftype) : bool :=
  negb (String.eqb (type_name m) (type_name m'))
  && match member_tags m, member_tags m' with
     | Some tags, Some tags' =>
         forallb (fun t => negb (existsb (String.eqb t) tags)) tags'
     | _, _ => false
     end.

(** A union whose variants have names and tags of their own. *)
Fixpoint union_ok (members : list ftype) : bool :=
  match members with
  | [] => true
  | m :: rest =>
      match member_tags m with Some _ => true | None => false end
      && forallb (apart m) rest && union_ok rest
  end.

(** Under [populate_by_name] the name of an aliased field is the key of no
    field. *)
Definition names_clear (fields : list (field ftype)) : bool :=
  forallb (fun f => match falias f with
                    | Some _ => negb (existsb (String.eqb (fname f))
                                              (map wire_name fields))
                    | None => true
                    end) fields.

Fixpoint wf (t : ftype) : bool :=
  match t with
  | TList elem _ _ => wf elem
  | TModel _ _ fields =>
      nodup_b (map fname fields) && nodup_b (map wire_name fields)
      && names_clear fields
      && forallb (fun f => wf (ftyp f)) fields
  | TUnion members => union_ok members && forallb wf members
  | _ => true
  end.

(** What [model_dump] makes of the attributes of a model, field by field. *)
Fixpoint emitted (fields : list (field ftype)) (attrs : list (string * value))
  : list (string * value) :=
  match fields, attrs with
  | f :: fs, (_, x) :: rest =>
      match x with
      | VNone => emitted fs rest
      | _ => (wire_name f, model_dump (ftyp f) x) :: emitted fs rest
      end
  | _, _ => []
  end.

Lemma nodup_b_NoDup (l : list string) : nodup_b l = true -> NoDup l.
Proof.
  induction l as [|x tl IH]; simpl; [constructor|].
  intros H. apply andb_true_iff in H. destruct H as [Hx Htl].
  constructor; [|auto].
  intros Hin. apply negb_true_iff in Hx.
  assert (existsb (String.eqb x) tl = true); [|congruence].
  apply existsb_exists. exists x. split; [assumption | apply String.eqb_refl].
Qed.

Lemma not_existsb_notin (x : string) (l : list string) :
  existsb (String.eqb x) l = false -> ~ In x l.
Proof.
  intros H Hin.
  assert (existsb (String.eqb x) l = true); [|congruence].
  apply existsb_exists. exists x. split; [assumption | apply String.eqb_refl].
Qed.

Lemma dict_get_first {A} (k : string) (v : A) (d : list (string * A)) :
  dict_get k ((k, v) :: d) = Some v.
Proof. simpl. now rewrite String.eqb_refl. Qed.

Lemma dict_get_skip {A} (k k' : string) (v : A) (d : list (string * A)) :
  k <> k' -> dict_get k ((k', v) :: d) = dict_get k d.
Proof. intros H. simpl. apply String.eqb_neq in H. now rewrite H. Qed.

Lemma dump_not_none (t : ftype) (x : value) :
  x <> VNone -> model_dump t x <> VNone.
Proof.
  revert x. induction t using ftype_nested_ind; intros x Hx; simpl; auto.
  - destruct x; auto. discriminate.
  - destruct x; auto. discriminate.
  - destruct x; auto.
    induction H as [|m ms Hm _ IH]; [discriminate|].
    destruct (String.eqb (type_name m) cls); [|exact IH].
    apply Hm. discriminate.
Qed.

(** The attributes of an instance, looked up by name. *)
Lemma attrs_by_name {A} (attrs : list (string * A)) :
  NoDup (map fst attrs) ->
  Forall (fun a => dict_get (fst a) attrs = Some (snd a)) attrs.
Proof.
  induction attrs as [|[k x] tl IH]; simpl; [constructor|].
  intros Hnd. inversion Hnd as [|? ? Hout Htl]; subst.
  constructor; [simpl; now rewrite String.eqb_refl|].
  specialize (IH Htl). rewrite Forall_forall in *. intros [k' x'] Hin. simpl.
  destruct (String.eqb k' k) eqn:E.
  - apply String.eqb_eq in E. subst. elim Hout.
    apply in_map_iff. exists (k, x'). auto.
  - exact (IH (k', x') Hin).
Qed.

Lemma dump_fields_emitted (whole : list (string * value))
      (fields : list (field ftype)) (attrs : list (string * value)) :
  Forall2 (fun f a => dict_get (fname f) whole = Some (snd a)) fields attrs ->
  flat_map (fun f => match dict_get (fname f) whole with
                     | Some VNone => []
                     | Some x => [(wire_name f, model_dump (ftyp f) x)]
                     | None => []
                     end) fields
  = emitted fields attrs.
Proof.
  induction 1 as [|f [k x] fs rest Hf _ IH]; simpl; [reflexivity|].
  simpl in Hf. rewrite Hf, IH. destruct x; reflexivity.
Qed.

Lemma emitted_keys (fields : list (field ftype)) (attrs : list (string * value))
      (k : string) :
  In k (keys (emitted fields attrs)) -> In k (map wire_name fields).
Proof.
  revert attrs. induction fields as [|f fs IH]; intros [|[n x] rest]; simpl; try tauto.
  destruct x; simpl; intros H; try (destruct H as [H|H]; [now left|]);
    right; eapply IH; eassumption.
Qed.

Lemma emitted_absent (fields : list (field ftype)) (attrs : list (string * value))
      (k : string) :
  ~ In k (map wire_name fields) -> dict_get k (emitted fields attrs) = None.
Proof.
  intros H. apply dict_get_none_iff. intros Hin. apply H.
  eapply emitted_keys; eassumption.
Qed.

(** The entry of a field in the wire form: none for [None], otherwise the
    dump of its value. *)
Lemma emitted_lookup (fields : list (field ftype)) (attrs : list (string * value))
      (f : field ftype) (a : string * value) :
  NoDup (map wire_name fields) ->
  In (f, a) (combine fields attrs) ->
  dict_get (wire_name f) (emitted fields attrs)
  = match snd a with
    | VNone => None
    | x => Some (model_dump (ftyp f) x)
    end.
Proof.
  revert attrs. induction fields as [|g fs IH]; intros [|[n x] rest] Hnd Hin;
    simpl in Hin; try tauto.
  inversion Hnd as [|? ? Hout Hfs]; subst.
  destruct Hin as [Heq|Hin].
  - injection Heq as -> <-. simpl.
    destruct x; try apply dict_get_first.
    now apply emitted_absent.
  - assert (Hne : wire_name f <> wire_name g).
    { intros Heq. apply Hout. rewrite <- Heq.
      apply in_map. eapply in_combine_l. eassumption. }
    simpl. destruct x; rewrite ?(dict_get_skip _ _ _ _ Hne); now apply IH.
Qed.

End RoundTrip.

Module RoundTripProof.
Import Pydantic ValidateFacts RoundTrip.

Lemma Forall2_refine {A B} (R0 R : A -> B -> Prop) (l : list A) (l' : list B) :
  Forall2 R0 l l' ->
  (forall x y, In (x, y) (combine l l') -> R0 x y -> R x y) ->
  Forall2 R l l'.
Proof.
  induction 1 as [|x y l l' Hxy _ IH]; intros Himp; constructor.
  - apply Himp; [now left | assumption].
  - apply IH. intros x' y' Hin. apply Himp. now right.
Qed.

Lemma union_split_apart (before : list ftype) (m : ftype) (after : list ftype) :
  union_ok (before ++ m :: after) = true ->
  Forall (fun b => apart b m = true) before.
Proof.
  induction before as [|b rest IH]; simpl; [constructor|].
  intros H. apply andb_true_iff in H. destruct H as [H Hrest].
  apply andb_true_iff in H. destruct H as [_ Hb].
  constructor; [|now apply IH].
  rewrite forallb_app in Hb. apply andb_true_iff in Hb. destruct Hb as [_ Hb].
  simpl in Hb. apply andb_true_iff in Hb. tauto.
Qed.

Lemma member_tags_shape (m : ftype) (tags : list string) :
  member_tags m = Some tags ->
  exists name pbn rest,
    m = TModel name pbn (Field "type" None true (TLiteral tags) :: rest).
Proof.
  destruct m as [| | | | | | |name pbn fields|]; try discriminate.
  destruct fields as [|[n [a|] [|] t] rest]; try discriminate.
  destruct t; try discriminate. simpl.
  destruct (String.eqb n "type") eqn:E; [|discriminate].
  apply String.eqb_eq in E. subst n.
  intros H. injection H as <-. eauto.
Qed.

Lemma dump_union_member (before : list ftype) (m : ftype) (after : list ftype)
      (cls : string) (attrs : list (string * value)) :
  Forall (fun b => String.eqb (type_name b) cls = false) before ->
  type_name m = cls ->
  model_dump (TUnion (before ++ m :: after)) (VObj cls attrs)
  = model_dump m (VObj cls attrs).
Proof.
  intros Hb Hm. simpl. induction Hb as [|b rest Hne _ IH]; simpl.
  - now rewrite Hm, String.eqb_refl.
  - now rewrite Hne.
Qed.

Section RoundTrips.
Variable lax : lax_mode.

Definition round_trips (t : ftype) : Prop :=
  wf t = true ->
  forall v d,
    validate lax t v = Valid d -> validate lax t (model_dump t d) = Valid d.

Lemma optional_none (t : ftype) (pbn : bool) (f : field ftype)
      (entries : list (string * value)) :
  validate_field (validate lax t) pbn f entries = Valid VNone ->
  frequired f = false.
Proof.
  unfold validate_field.
  destruct (lookup_field pbn f entries) as [given|].
  - destruct given; try (intros H; now apply validate_not_none in H).
    destruct (frequired f); [discriminate | reflexivity].
  - destruct (frequired f); [discriminate | reflexivity].
Qed.

Lemma validate_field_given (check : value -> result value) (pbn : bool)
      (f : field ftype) (entries : list (string * value)) (given : value) :
  lookup_field pbn f entries = Some given ->
  given <> VNone ->
  validate_field check pbn f entries = check given.
Proof.
  intros Hl Hne. unfold validate_field. rewrite Hl.
  destruct given; congruence.
Qed.

Lemma round_trip_model (name : string) (pbn : bool)
      (fields : list (field ftype)) :
  Forall (fun f => round_trips (ftyp f)) fields ->
  round_trips (TModel name pbn fields).
Proof.
  intros IH Hwf v d Hv.
  apply validate_model_inv in Hv.
  destruct Hv as [entries [attrs [-> [-> Hfields]]]].
  simpl in Hwf.
  apply andb_true_iff in Hwf. destruct Hwf as [Hwf Hwfs].
  apply andb_true_iff in Hwf. destruct Hwf as [Hwf Hclear].
  apply andb_true_iff in Hwf. destruct Hwf as [Hnames Hwires].
  apply nodup_b_NoDup in Hnames, Hwires.
  assert (Hfst : map fst attrs = map fname fields).
  { clear -Hfields. induction Hfields as [|f a fs attrs [Hn _] _ IH]; simpl;
      [reflexivity | now rewrite Hn, IH]. }
  assert (Hby : Forall2 (fun f a => dict_get (fname f) attrs = Some (snd a))
                        fields attrs).
  { pose proof (attrs_by_name attrs) as Hall. rewrite Hfst in Hall.
    specialize (Hall Hnames). rewrite Forall_forall in Hall.
    eapply Forall2_refine; [exact Hfields|].
    intros f a Hin [Hn _]. rewrite <- Hn.
    apply Hall. eapply in_combine_r. eassumption. }
  change (validate lax (TModel name pbn fields)
            (VDict (flat_map
                      (fun f => match dict_get (fname f) attrs with
                                | Some VNone => []
                                | Some x => [(wire_name f, model_dump (ftyp f) x)]
                                | None => []
                                end) fields))
          = Valid (VObj name attrs)).
  rewrite (dump_fields_emitted attrs fields attrs Hby).
  apply validate_model_intro.
  eapply Forall2_refine; [exact Hfields|].
  intros f [k x] Hin [Hn Hx]. simpl in Hn, Hx. split; [exact Hn|]. simpl.
  pose proof (emitted_lookup fields attrs f (k, x) Hwires Hin) as Hlook.
  simpl in Hlook.
  assert (Hf : In f fields) by (eapply in_combine_l; eassumption).
  destruct (any_field _ _ _ _ _ Hx) as [->|[given Hgiven]].
  - (* the field is None: it is absent from the wire form *)
    assert (Hnone : lookup_field pbn f (emitted fields attrs) = None).
    { unfold lookup_field. unfold wire_name in Hlook.
      destruct (falias f) as [al|] eqn:Hal; [|exact Hlook].
      rewrite Hlook. destruct pbn; [|reflexivity].
      apply emitted_absent.
      unfold names_clear in Hclear. rewrite forallb_forall in Hclear.
      specialize (Hclear f Hf). rewrite Hal in Hclear.
      apply negb_true_iff in Hclear. now apply not_existsb_notin. }
    unfold validate_field. rewrite Hnone.
    now rewrite (optional_none _ _ _ _ Hx).
  - (* the field has a value: the wire form holds its dump *)
    assert (Hne : x <> VNone)
      by (intros ->; exact (validate_not_none lax _ _ Hgiven)).
    assert (Hsome : lookup_field pbn f (emitted fields attrs)
                    = Some (model_dump (ftyp f) x)).
    { unfold lookup_field. unfold wire_name in Hlook.
      destruct (falias f) as [al|]; rewrite Hlook; destruct x; congruence. }
    rewrite (validate_field_given _ _ _ _ _ Hsome (dump_not_none _ _ Hne)).
    rewrite Forall_forall in IH. rewrite forallb_forall in Hwfs.
    exact (IH f Hf (Hwfs f Hf) given x Hgiven).
Qed.

Lemma round_trip_list (elem : ftype) (mn mx : option nat) :
  round_trips elem -> round_trips (TList elem mn mx).
Proof.
  intros IH Hwf v d Hv. simpl in Hwf.
  apply validate_list_inv in Hv.
  destruct Hv as [items [xs [-> [-> [Hlen Hall]]]]].
  change (validate lax (TList elem mn mx) (VList (map (model_dump elem) xs))
          = Valid (VList xs)).
  apply validate_list_intro.
  - rewrite length_map, <- (Forall2_length Hall). exact Hlen.
  - clear Hlen. induction Hall as [|i x items xs Hx _ IHl]; simpl; constructor.
    + exact (IH Hwf i x Hx).
    + exact IHl.
Qed.

Lemma tagged_rejects (b : ftype) (tags : list string)
      (entries : list (string * value)) (tag : string) :
  member_tags b = Some tags ->
  dict_get "type" entries = Some (VStr tag) ->
  existsb (String.eqb tag) tags = false ->
  exists e, validate lax b (VDict entries) = Invalid e.
Proof.
  intros Hb Ht He. apply member_tags_shape in Hb.
  destruct Hb as [name [pbn [rest ->]]].
  simpl. unfold validate_field, lookup_field. simpl.
  rewrite Ht, He. eauto.
Qed.

(** The instance of a variant carries one of its tags, and so does its
    wire form. *)
Lemma member_tag (m : ftype) (tags : list string) (v d : value) :
  member_tags m = Some tags ->
  validate lax m v = Valid d ->
  exists attrs entries tag,
    d = VObj (type_name m) attrs
    /\ model_dump m d = VDict entries
    /\ dict_get "type" entries = Some (VStr tag)
    /\ existsb (String.eqb tag) tags = true.
Proof.
  intros Hm Hv. apply member_tags_shape in Hm.
  destruct Hm as [name [pbn [rest ->]]].
  apply validate_model_inv in Hv.
  destruct Hv as [es [attrs [-> [-> Hfields]]]].
  inversion Hfields as [|f [k x] fs attrs' [Hk Hx] Hrest]; subst.
  simpl in Hk, Hx. subst k.
  destruct (required_field _ pbn (Field "type" None true (TLiteral tags)) es x
              eq_refl Hx) as [given [_ Hg]].
  simpl in Hg. destruct given; try discriminate.
  destruct (existsb (String.eqb s) tags) eqn:E; [|discriminate].
  injection Hg as <-.
  do 3 eexists. split; [reflexivity|]. split; [reflexivity|].
  split; [|exact E]. reflexivity.
Qed.

Lemma round_trip_union (members : list ftype) :
  Forall round_trips members -> round_trips (TUnion members).
Proof.
  intros IH Hwf v d Hv. simpl in Hwf.
  apply andb_true_iff in Hwf. destruct Hwf as [Hok Hwfs].
  apply validate_union_inv in Hv. destruct Hv as [m [Hin Hm]].
  destruct (in_split _ _ Hin) as [before [after ->]].
  pose proof (union_split_apart before m after Hok) as Hapart.
  assert (Htags : exists tags, member_tags m = Some tags).
  { clear -Hok. induction before as [|b rest IHb]; simpl in Hok.
    - destruct (member_tags m); [eauto | discriminate].
    - apply andb_true_iff in Hok. destruct Hok as [_ Hok]. now apply IHb. }
  destruct Htags as [tags Htags].
  destruct (member_tag m tags v d Htags Hm)
    as [attrs [entries [tag [-> [Hdump [Htype Htag]]]]]].
  assert (Hnames : Forall (fun b => String.eqb (type_name b) (type_name m) = false)
                          before).
  { eapply Forall_impl; [|exact Hapart]. intros b Hb. unfold apart in Hb.
    apply andb_true_iff in Hb. destruct Hb as [Hb _].
    now apply negb_true_iff in Hb. }
  rewrite (dump_union_member before m after _ attrs Hnames eq_refl).
  change (first_member
            (map (fun m' => (type_name m',
                             validate lax m' (model_dump m (VObj (type_name m) attrs))))
                 (before ++ m :: after))
          = Valid (VObj (type_name m) attrs)).
  rewrite map_app. simpl map.
  rewrite Forall_forall in IH. rewrite forallb_forall in Hwfs.
  rewrite (IH m Hin (Hwfs m Hin) v _ Hm).
  apply first_member_first.
  rewrite Forall_forall. intros r Hr. apply in_map_iff in Hr.
  destruct Hr as [b [<- Hb]]. simpl.
  rewrite Forall_forall in Hapart. specialize (Hapart b Hb).
  unfold apart in Hapart. apply andb_true_iff in Hapart.
  destruct Hapart as [_ Hdis]. rewrite Htags in Hdis.
  destruct (member_tags b) as [tags'|] eqn:Hb'; [|discriminate].
  rewrite Hdump. apply (tagged_rejects b tags' entries tag Hb' Htype).
  rewrite forallb_forall in Hdis.
  apply existsb_exists in Htag. destruct Htag as [t [Ht Heq]].
  apply String.eqb_eq in Heq. subst t.
  specialize (Hdis tag Ht). now apply negb_true_iff in Hdis.
Qed.

(** Validating the wire form of an instance gives the instance back. *)
Lemma round_trip (t : ftype) : round_trips t.
Proof.
  induction t using ftype_nested_ind.
  - intros _ v d Hv. simpl in Hv. destruct v; inversion Hv; subst. reflexivity.
  - intros _ v d Hv. simpl in Hv.
    assert (exists n, check_int ge le n = Valid d) as [n Hn]
        by (destruct v; try (destruct (coerce _ _); [|discriminate]); eauto).
    pose proof Hn as Hd. apply PassFacts.check_int_valid in Hd. subst d.
    exact Hn.
  - intros _ v d Hv. simpl in Hv.
    assert (exists x, check_float ge le x = Valid d) as [x Hx]
        by (destruct v; try (destruct (coerce _ _); [|discriminate]); eauto).
    pose proof Hx as Hd. apply PassFacts.check_float_valid in Hd. subst d.
    exact Hx.
  - intros _ v d Hv. simpl in Hv.
    assert (exists b, d = VBool b) as [b ->]
        by (destruct v; try (destruct (coerce _ _); [|discriminate]);
            inversion Hv; eauto).
    reflexivity.
  - intros _ v d Hv. simpl in Hv. destruct v; try discriminate.
    destruct (existsb (String.eqb s) choices) eqn:E; inversion Hv; subst.
    simpl. now rewrite E.
  - intros _ v d Hv. simpl in Hv. destruct v; inversion Hv; subst. reflexivity.
  - now apply round_trip_list.
  - now apply round_trip_model.
  - now apply round_trip_union.
Qed.

End RoundTrips.

End RoundTripProof.

(** ** Claims on the validator of [agent.py] *)
Module ValidatorClaims.
Import Pydantic Agent Documents ValidateFacts AgentFacts SchemaFacts
       RowFacts RoundTrip RoundTripProof.

(** C4, as amended: in every document the validator accepts there is a
    row, every row has between 1 and 12 columns, and every column holds a
    list of modules (of any length); a row with no column or with more than
    12 is rejected; a row of 1 to 12 accepted columns is accepted. *)
Theorem rows_have_1_to_12_columns (lax : lax_mode) :
  (forall wire d,
      validate lax EmailTemplate wire = Valid d ->
      rows_of d <> []
      /\ Forall (fun row =>
                   (1 <= List.length (columns_of row) <= 12)%nat
                   /\ Forall (fun column =>
                                getattr column "modules"
                                = Some (VList (modules_of column)))
                             (columns_of row))
                (rows_of d)) /\
  (forall entries columns,
      dict_get "columns" entries = Some (VList columns) ->
      (List.length columns = 0 \/ 12 < List.length columns)%nat ->
      exists e, validate lax Row (VDict entries) = Invalid e) /\
  (forall name columns xs,
      Forall2 (fun c x => validate lax Column c = Valid x) columns xs ->
      (1 <= List.length columns <= 12)%nat ->
      exists row,
        validate lax Row (VDict [("name", VStr name); ("columns", VList columns)])
        = Valid row
        /\ columns_of row = xs).
Proof.
  split; [|split].
  - intros wire d Hv. exact (accepted_row_bounds lax wire d Hv).
  - intros entries columns. apply (row_columns_rejected lax).
  - intros name columns xs Hcols Hlen.
    exists (VObj "Row" (plain_row name xs)).
    split; [now apply (row_accepted lax) | reflexivity].
Qed.

Definition narrow_column_json : value :=
  VDict [("weight", VInt 1); ("modules", VList [])].

Definition narrow_column : value :=
  Eval vm_compute in accepted Column narrow_column_json.

Lemma rows_have_1_to_12_columns_witness :
  (exists e, validate strict Row (row_json []) = Invalid e)
  /\ (exists e, validate strict Row (row_json (repeat narrow_column_json 13))
                = Invalid e)
  /\ (exists row,
        validate strict Row
          (VDict [("name", VStr "one"); ("columns", VList [narrow_column_json])])
        = Valid row
        /\ columns_of row = [narrow_column])
  /\ (exists row,
        validate strict Row
          (VDict [("name", VStr "twelve");
                  ("columns", VList (repeat narrow_column_json 12))])
        = Valid row
        /\ columns_of row = repeat narrow_column 12).
Proof.
  destruct (rows_have_1_to_12_columns strict) as [_ [Hreject Haccept]].
  split; [|split; [|split]].
  - apply (Hreject _ []); [reflexivity | left; reflexivity].
  - apply (Hreject _ (repeat narrow_column_json 13)); [reflexivity|].
    right. simpl. lia.
  - apply (Haccept "one" [narrow_column_json] [narrow_column]).
    + repeat constructor.
    + simpl. lia.
  - apply (Haccept "twelve" (repeat narrow_column_json 12) (repeat narrow_column 12)).
    + repeat constructor.
    + simpl. lia.
Defined.

(** C4, as stated, fails: a column without modules is accepted. *)
Lemma column_without_modules_accepted :
  exists d,
    validate strict EmailTemplate (one_column_json []) = Valid d
    /\ map (fun row => map (fun column => List.length (modules_of column))
                           (columns_of row))
           (rows_of d)
       = [[0%nat]].
Proof.
  eexists. split; [vm_compute; reflexivity | reflexivity].
Qed.

(** C6, as amended: under the document model of [agent.py] a module whose
    type tag is outside the closed set is rejected by every variant with a
    literal error on [type], and a document that holds such a module is
    rejected.  The simplified model of [asset_manager.py] accepts a module
    with any tag but image and button (a tag of the closed set as well) as a
    base [Module], of which only the tag is kept. *)
Theorem unknown_module_tag (lax : lax_mode) (entries : list (string * value))
        (tag : string) :
  dict_get "type" entries = Some (VStr tag) ->
  (~ In tag module_tags ->
     validate lax Module_ (VDict entries) = Invalid (unknown_variant Module_)
     /\ (forall wire,
            In (VDict entries) (wire_modules wire) ->
            exists e, validate lax EmailTemplate wire = Invalid e))
  /\ (tag <> "image" -> tag <> "button" ->
      validate lax simplified_union (VDict entries)
      = Valid (VObj "Module" [("type", VStr tag)])).
Proof.
  intros Ht. split.
  - intros Hout. split.
    + exact (unknown_tag_rejected lax entries tag Ht Hout).
    + intros wire Hin.
      exact (document_with_unknown_tag lax wire entries tag Hin Ht Hout).
  - intros Hi Hb. exact (simplified_model_accepts lax entries tag Ht Hi Hb).
Qed.

Definition widget_entries : list (string * value) :=
  [("type", VStr "unknown-widget"); ("text", VStr "Hello")].

Definition paragraph_entries : list (string * value) :=
  [("type", VStr "paragraph"); ("text", VStr "Hello")].

Lemma unknown_module_tag_witness :
  validate strict Module_ (VDict widget_entries) = Invalid (unknown_variant Module_)
  /\ (forall wire,
         In (VDict widget_entries) (wire_modules wire) ->
         exists e, validate strict EmailTemplate wire = Invalid e)
  /\ validate strict simplified_union (VDict widget_entries)
     = Valid (VObj "Module" [("type", VStr "unknown-widget")])
  /\ validate strict simplified_union (VDict paragraph_entries)
     = Valid (VObj "Module" [("type", VStr "paragraph")]).
Proof.
  destruct (unknown_module_tag strict widget_entries "unknown-widget" eq_refl)
    as [Hfull Hsimplified].
  destruct (unknown_module_tag strict paragraph_entries "paragraph" eq_refl)
    as [_ Hparagraph].
  destruct Hfull as [Hmodule Hdocument]; [simpl; intuition discriminate|].
  split; [exact Hmodule|]. split; [exact Hdocument|]. split.
  - apply Hsimplified; discriminate.
  - apply Hparagraph; discriminate.
Defined.

(** C6, as stated, fails: the model of [asset_manager.py] accepts a document
    with a module of type ["unknown-widget"], as a [Module] without the
    other fields. *)
Lemma unknown_widget_accepted :
  exists d,
    validate strict Resolver.EmailTemplate (one_column_json [VDict widget_entries])
    = Valid d
    /\ flat_map (fun row => flat_map modules_of (columns_of row)) (rows_of d)
       = [VObj "Module" [("type", VStr "unknown-widget")]].
Proof.
  eexists. split; [vm_compute; reflexivity | reflexivity].
Qed.

(** A document with modules of several variants, aliases, a name in place
    of an alias, and custom fields. *)
Definition welcome_json : value :=
  VDict
    [("template",
      VDict
        [("type", VStr "email");
         ("rows",
          VList
            [VDict
               [("name", VStr "hero");
                ("columns",
                 VList
                   [VDict
                      [("weight", VInt 12);
                       ("modules",
                        VList
                          [VDict [("type", VStr "heading"); ("text", VStr "Welcome");
                                  ("title", VStr "h1");
                                  ("line-height", VFloat PyFloat.f_1_5)];
                           VDict [("type", VStr "image"); ("src", VStr "hero-launch");
                                  ("alt", VStr "Launch"); ("dynamicSrc", VStr "hero")];
                           VDict [("type", VStr "button"); ("text", VStr "Get started");
                                  ("background-color", VStr "#2563eb");
                                  ("padding-top", VInt 60);
                                  ("customFields",
                                   VDict [("tracking", VNone); ("id", VInt 7)])];
                           VDict [("type", VStr "icons");
                                  ("icons",
                                   VList
                                     [VDict [("image", VStr "https://cdn/f.png");
                                             ("height", VStr "32px");
                                             ("width", VStr "32px");
                                             ("textPosition", VStr "left")]])];
                           VDict [("type", VStr "menu");
                                  ("items",
                                   VList
                                     [VDict [("type", VStr "menu-item");
                                             ("link", VDict [("href", VStr "/")])]])]]);
                       ("background_color", VStr "#ffffff")]]);
                ("padding-top", VInt 20);
                ("display-condition", VDict [("type", VStr "segment")]);
                ("metadata", VDict [("campaign", VNone)])]]);
         ("settings", VDict [("linkColor", VStr "#2563eb"); ("width", VInt 600)]);
         ("metadata", VDict [("subject", VStr "Welcome")])])].

Definition welcome : value :=
  Eval vm_compute in accepted EmailTemplate welcome_json.

(** C7: validating the wire form of an accepted document (aliases as keys,
    absent fields left out) gives a document equal to it. *)
Theorem wire_round_trip (lax : lax_mode) (wire d : value) :
  validate lax EmailTemplate wire = Valid d ->
  validate lax EmailTemplate (model_dump EmailTemplate d) = Valid d.
Proof.
  intros Hv. apply (round_trip lax EmailTemplate) with (v := wire).
  - vm_compute. reflexivity.
  - exact Hv.
Qed.

Lemma wire_round_trip_witness :
  validate strict EmailTemplate (model_dump EmailTemplate welcome) = Valid welcome.
Proof.
  apply (wire_round_trip strict welcome_json welcome).
  vm_compute. reflexivity.
Defined.

End ValidatorClaims.

(** ** The marker of AI generation *)
Module MarkerFacts.
Import Pydantic Assets Resolver Samples Documents.

Definition banner_json (reference : string) : value :=
  one_column_json [image_json reference ""].

Definition capital_custom : value :=
  Eval vm_compute in accepted EmailTemplate (banner_json "Custom-banner").

Definition capital_generate : value :=
  Eval vm_compute in accepted EmailTemplate (banner_json "Generate-banner").

(** C3: ["generate"] is matched in any case, ["custom"] in lower case only.
    Under the policy dalle the reference ["Generate-banner"] reaches the
    generation service and ["Custom-banner"] does not. *)
Lemma custom_marker_case_sensitive :
  use_ai_of "custom-banner" = true
  /\ use_ai_of "Generate-banner" = true
  /\ PyStr.contains "custom" (PyStr.lower "Custom-banner") = true
  /\ use_ai_of "Custom-banner" = false
  /\ (exists d' assets w',
        resolve_template (manager online dalle) capital_generate world0
        = Ok ((d', assets), w')
        /\ trace w' = [ GetImage "Generate-banner" 800 600 true;
                        GenerateImage "Generate-banner" s1024x1024 ])
  /\ (exists d' assets w',
        resolve_template (manager online dalle) capital_custom world0
        = Ok ((d', assets), w')
        /\ trace w' = [ GetImage "Custom-banner" 800 600 false;
                        SearchSpecificImage "Custom-banner";
                        PlaceholderUrl "Custom-banner" 800 600 ]).
Proof.
  repeat split; try reflexivity.
  - do 3 eexists. split; [vm_compute; reflexivity | reflexivity].
  - do 3 eexists. split; [vm_compute; reflexivity | reflexivity].
Qed.

End MarkerFacts.

(** ** The URLs of the providers *)
Module UrlFacts.
Import Assets.

(** The characters [quote] leaves alone, and [%], [:], [?] and [=]. *)
Definition url_char (c : ascii) : bool :=
  let n := nat_of_ascii c in
  PyStr.quote_safe n || (n =? 37)%nat || (n =? 58)%nat || (n =? 63)%nat
  || (n =? 61)%nat.

Fixpoint url_text (s : string) : bool :=
  match s with
  | EmptyString => true
  | String c tl => url_char c && url_text tl
  end.

Lemma url_text_app (a b : string) :
  url_text (a ++ b) = url_text a && url_text b.
Proof.
  induction a as [|c a IH]; simpl; [reflexivity|].
  now rewrite IH, andb_assoc.
Qed.

Lemma quote_char (c : ascii) (tl : string) :
  PyStr.quote (String c tl) = PyStr.quote (String c "") ++ PyStr.quote tl.
Proof.
  destruct c as [[] [] [] [] [] [] [] []]; reflexivity.
Qed.

Lemma quote_char_text (c : ascii) : url_text (PyStr.quote (String c "")) = true.
Proof.
  destruct c as [[] [] [] [] [] [] [] []]; reflexivity.
Qed.

Lemma quote_text (s : string) : url_text (PyStr.quote s) = true.
Proof.
  induction s as [|c s IH]; [reflexivity|].
  now rewrite quote_char, url_text_app, quote_char_text, IH.
Qed.

Lemma uint_text (d : Decimal.uint) : url_text (NilEmpty.string_of_uint d) = true.
Proof. induction d; simpl; auto. Qed.

Lemma of_int_text (n : Z) : url_text (PyStr.of_int n) = true.
Proof.
  unfold PyStr.of_int, NilZero.string_of_int, NilZero.string_of_uint.
  destruct (Z.to_int n) as [d|d]; destruct d; simpl; auto using uint_text.
Qed.

(** X1: the URLs that the providers build from a description (the stock
    photo URL, the placeholder URL and the fallback URL of a failed
    generation) hold only letters, digits and [-._~/:?=%], whatever the
    description and the dimensions. *)
Theorem provider_urls_are_escaped (description : string) (width height : Z) :
  url_text (unsplash_get_image_url description width height) = true
  /\ url_text (placeholder_get_image_url description width height) = true
  /\ url_text (dalle_fallback_url description) = true.
Proof.
  unfold unsplash_get_image_url, placeholder_get_image_url, dalle_fallback_url.
  rewrite !url_text_app, !of_int_text, !quote_text. repeat split.
Qed.

End UrlFacts.

Module LibraryFacts.
Import Assets Samples ProviderFacts StrategyFacts.

Lemma lower_char_idempotent (c : ascii) :
  PyStr.lower_char (PyStr.lower_char c) = PyStr.lower_char c.
Proof. destruct c as [[] [] [] [] [] [] [] []]; reflexivity. Qed.

Lemma lower_idempotent (s : string) : PyStr.lower (PyStr.lower s) = PyStr.lower s.
Proof.
  induction s as [|c s IH]; simpl; [reflexivity|].
  now rewrite lower_char_idempotent, IH.
Qed.

Lemma append_not_empty (a : string) (c : ascii) (b : string) :
  a ++ String c b <> "".
Proof. destruct a; discriminate. Qed.

Definition platforms : list string :=
  ["facebook"; "twitter"; "instagram"; "linkedin"].

(** X2: the social icon of a platform is looked up by its lower-cased
    name: names that differ in case only get the same icon, a known
    platform gets the URL of its icon under the base URL, and the icon is
    empty exactly when the lower-cased name is none of the four platforms. *)
Theorem social_icon_by_lower_case (lib : CustomAssetLibrary) (platform : string) :
  library_get_social_icon lib (PyStr.lower platform)
  = library_get_social_icon lib platform
  /\ (forall other, PyStr.lower other = PyStr.lower platform ->
        library_get_social_icon lib other = library_get_social_icon lib platform)
  /\ (In (PyStr.lower platform) platforms ->
        library_get_social_icon lib platform
        = base_url lib ++ "/social/" ++ PyStr.lower platform ++ ".png")
  /\ (library_get_social_icon lib platform <> ""
      <-> In (PyStr.lower platform) platforms).
Proof.
  unfold library_get_social_icon. split; [now rewrite lower_idempotent|].
  split; [intros other ->; reflexivity|].
  remember (PyStr.lower platform) as k eqn:Hk. clear Hk.
  destruct (List.in_dec String.string_dec k platforms) as [Hin|Hout].
  - assert (E : get_or (social lib) k "" = base_url lib ++ "/social/" ++ k ++ ".png").
    { simpl in Hin. destruct Hin as [<-|[<-|[<-|[<-|[]]]]]; reflexivity. }
    rewrite E. split; [reflexivity|]. split; [intros _; exact Hin|].
    intros _. apply append_not_empty.
  - rewrite (unknown_key_default (social lib) k "" Hout).
    split; [intros H; contradiction|]. split; [congruence | intros H; contradiction].
Qed.

(** The comprehension keeps, for every key it has made, the icon of that
    key. *)
Lemma social_icons_from_spec (am : AssetManager) (requested : list string)
      (icons : list (string * string)) :
  NoDup (keys icons) ->
  (forall p, In p (keys icons) ->
     dict_get p icons = Some (library_get_social_icon (custom am) p)) ->
  let made := social_icons_from am requested icons in
  NoDup (keys made)
  /\ (forall p, In p (keys made) <-> In p (keys icons) \/ In p requested)
  /\ (forall p, In p (keys made) ->
        dict_get p made = Some (library_get_social_icon (custom am) p)).
Proof.
  revert icons. induction requested as [|q rest IH]; intros icons Hnd Hall; simpl.
  - split; [assumption|]. split; [intros p; tauto | assumption].
  - destruct (IH (dict_set q (library_get_social_icon (custom am) q) icons))
      as [H1 [H2 H3]].
    + now apply NoDup_keys_dict_set.
    + intros p Hp. destruct (String.string_dec p q) as [->|Hne].
      * apply dict_get_set_same.
      * rewrite dict_get_set_other by assumption. apply Hall.
        apply in_keys_dict_set in Hp. destruct Hp; [contradiction | assumption].
    + split; [exact H1|]. split; [|exact H3].
      intros p. rewrite H2, in_keys_dict_set. intuition auto.
Qed.

(** X3: [get_social_icons] returns a dict with one entry for every
    requested platform, under the name as it was given, duplicates merged;
    every entry is the library icon of its key, so the lookup of a requested
    platform never fails. *)
Theorem social_icons_of_platforms (am : AssetManager) (requested : list string)
        (w : world) :
  exists icons,
    get_social_icons am requested w = Ok (icons, logged w (GetSocialIcons requested))
    /\ NoDup (keys icons)
    /\ (forall p, In p (keys icons) <-> In p requested)
    /\ (forall p, In p requested ->
          dict_get p icons = Some (library_get_social_icon (custom am) p)).
Proof.
  exists (social_icons_from am requested []). split; [reflexivity|].
  destruct (social_icons_from_spec am requested []) as [H1 [H2 H3]].
  - constructor.
  - intros p [].
  - split; [exact H1|]. split.
    + intros p. rewrite H2. simpl. tauto.
    + intros p Hp. apply H3. apply H2. now right.
Qed.

End LibraryFacts.

Module ShapeFacts.
Import Pydantic Assets Resolver.

Lemma without_src_scalar (a b : value) :
  without_src a = without_src b ->
  match a with
  | VList _ | VObj _ _ => True
  | _ => b = a
  end.
Proof.
  destruct a; simpl; auto; destruct b; simpl; try congruence;
    try (destruct (is_image_class cls); congruence).
Qed.

Lemma without_src_list (items : list value) (b : value) :
  without_src (VList items) = without_src b ->
  exists items', b = VList items' /\ map without_src items = map without_src items'.
Proof.
  destruct b; simpl; try discriminate.
  - intros H. injection H as H. eauto.
  - destruct (is_image_class cls); discriminate.
Qed.

Lemma without_src_obj (cls : string) (attrs : list (string * value)) (b : value) :
  without_src (VObj cls attrs) = without_src b ->
  exists attrs',
    b = VObj cls attrs'
    /\ if is_image_class cls
       then dict_set "src" VNone attrs = dict_set "src" VNone attrs'
       else map (fun kv => (fst kv, without_src (snd kv))) attrs
            = map (fun kv => (fst kv, without_src (snd kv))) attrs'.
Proof.
  destruct b as [| | | | | | |cls' attrs']; simpl;
    try (destruct (is_image_class cls); discriminate).
  destruct (is_image_class cls) eqn:E, (is_image_class cls') eqn:E';
    intros H; injection H as Hc Ha; subst cls'; try congruence;
    exists attrs'; rewrite ?E; auto.
Qed.

(** Two objects that differ in the [src] of image modules only hold the
    same number of image modules. *)
Lemma same_number_of_images (a : value) :
  forall o, without_src a = without_src o ->
            List.length (images a) = List.length (images o).
Proof.
  induction a using value_walk_ind; intros o Hb;
    try (apply without_src_scalar in Hb; simpl in Hb; now subst o).
  - apply without_src_list in Hb. destruct Hb as [items' [-> Hmap]]. simpl.
    revert items' Hmap. induction H as [|x tl Hx _ IH]; intros [|y tl'] Hmap;
      simpl in *; try discriminate; [reflexivity|].
    injection Hmap as Hxy Htl. rewrite !length_app. f_equal; auto.
  - apply without_src_obj in Hb. destruct Hb as [attrs' [-> Hattrs]]. simpl.
    destruct (is_image_class cls); [reflexivity|].
    revert attrs' Hattrs. induction H as [|[k x] tl Hx _ IH]; intros [|[k' y] tl'] Hmap;
      simpl in *; try discriminate; [reflexivity|].
    injection Hmap as Hk Hxy Htl. rewrite !length_app. f_equal; auto.
Qed.

Lemma app_same_length {A} (a b c d : list A) :
  List.length a = List.length c -> (a ++ b = c ++ d)%list -> a = c /\ b = d.
Proof.
  revert c. induction a as [|x a IH]; intros [|y c] Hlen H; simpl in *; try discriminate.
  - auto.
  - injection H as -> H. injection Hlen as Hlen.
    destruct (IH c Hlen H) as [-> ->]. auto.
Qed.

Lemma dict_set_same_key {A} (k : string) (x : A) (a b : list (string * A)) :
  dict_set k x a = dict_set k x b ->
  dict_get k a = dict_get k b ->
  In k (keys a) ->
  a = b.
Proof.
  revert b. induction a as [|[k1 v1] a IH]; intros b Hset Hget Hin; [destruct Hin|].
  destruct b as [|[k2 v2] b]; simpl in Hset.
  - destruct (String.eqb k k1) eqn:E.
    + simpl in Hget. rewrite E in Hget. discriminate.
    + injection Hset as Hk Hv Ha. subst k1. now rewrite String.eqb_refl in E.
  - simpl in Hget. destruct (String.eqb k k1) eqn:E1, (String.eqb k k2) eqn:E2.
    + apply String.eqb_eq in E1, E2. subst k1 k2.
      injection Hset as Ha. injection Hget as Hv. now subst.
    + injection Hset as Hk Hv Ha. apply String.eqb_neq in E2. congruence.
    + injection Hset as Hk Hv Ha. apply String.eqb_neq in E1. congruence.
    + injection Hset as Hk Hv Ha. subst k2 v2. f_equal.
      apply IH; auto. simpl in Hin. destruct Hin as [Hin|Hin]; [|assumption].
      subst k1. now rewrite String.eqb_refl in E1.
Qed.

(** An object is determined by its image modules and by what is left of it
    without their [src]. *)
Lemma same_but_src (a : value) :
  forall o, without_src a = without_src o -> images a = images o -> a = o.
Proof.
  induction a using value_walk_ind; intros o Hb Hi;
    try (apply without_src_scalar in Hb; simpl in Hb; now subst o).
  - apply without_src_list in Hb. destruct Hb as [items' [-> Hmap]]. simpl in Hi.
    f_equal. revert items' Hmap Hi.
    induction H as [|x tl Hx _ IH]; intros [|y tl'] Hmap Hi;
      simpl in *; try discriminate; [reflexivity|].
    injection Hmap as Hxy Htl.
    destruct (app_same_length _ _ _ _ (same_number_of_images x y Hxy) Hi) as [H1 H2].
    f_equal; auto.
  - apply without_src_obj in Hb. destruct Hb as [attrs' [-> Hattrs]]. simpl in Hi.
    destruct (is_image_class cls); [congruence|].
    f_equal. revert attrs' Hattrs Hi.
    induction H as [|[k x] tl Hx _ IH]; intros [|[k' y] tl'] Hmap Hi;
      simpl in *; try discriminate; [reflexivity|].
    injection Hmap as Hk Hxy Htl. subst k'.
    destruct (app_same_length _ _ _ _ (same_number_of_images x y Hxy) Hi) as [H1 H2].
    f_equal; [f_equal|]; auto.
Qed.

End ShapeFacts.

(** ** Requests to the outside *)
Module RequestFacts.
Import Pydantic Assets Resolver Samples Documents.
Import ProviderFacts StrategyFacts WalkFacts ImageFacts PassFacts ValidateFacts.

(** The provider calls that are a request to the outside: every
    generation, and every search made with an access key. *)
Definition is_request (sv : services) (e : event) : bool :=
  match e with
  | GenerateImage _ _ => true
  | SearchSpecificImage _ => negb (no_access_key sv)
  | _ => false
  end.

Definition outside_requests (sv : services) (events : list event) : nat :=
  List.length (filter (is_request sv) events).

(** The dimensions [get_image] has by default, and the size of a
    generation they lead to. *)
Definition default_sized (e : event) : bool :=
  match e with
  | GetImage _ width height _ => (width =? 800)%Z && (height =? 600)%Z
  | UnsplashUrl _ width height => (width =? 800)%Z && (height =? 600)%Z
  | PlaceholderUrl _ width height => (width =? 800)%Z && (height =? 600)%Z
  | GenerateImage _ size =>
      match size with s1024x1024 => true | _ => false end
  | _ => true
  end.

(** A reference that the library answers. *)
Definition library_reference (description : string) : bool :=
  PyStr.startswith description "logo-" || PyStr.startswith description "social-".

(** A reference that [resolve_assets] marks for generation. *)
Definition asks_for_generation (description : string) : bool :=
  negb (library_reference description) && use_ai_of description.

Lemma outside_requests_app (sv : services) (a b : list event) :
  outside_requests sv (a ++ b) = outside_requests sv a + outside_requests sv b.
Proof. unfold outside_requests. now rewrite filter_app, length_app. Qed.

Lemma found_not_empty (sv : services) (n : nat) (query u : string) :
  found sv n query = Some u -> u <> "".
Proof.
  unfold found. destruct (no_access_key sv); [discriminate|].
  destruct (unsplash_api sv n query) as [[|first rest]|]; try discriminate.
  destruct (String.eqb first "") eqn:E; [discriminate|].
  intros H. injection H as <-. now apply String.eqb_neq.
Qed.

Lemma found_without_key (sv : services) (n : nat) (query : string) :
  no_access_key sv = true -> found sv n query = None.
Proof. intros H. unfold found. now rewrite H. Qed.

Lemma unsplash_url_not_empty (description : string) (width height : Z) :
  unsplash_get_image_url description width height <> "".
Proof. discriminate. Qed.

Lemma placeholder_url_not_empty (description : string) (width height : Z) :
  placeholder_get_image_url description width height <> "".
Proof. discriminate. Qed.

Section Step.
Variable am : AssetManager.

(** [get_image] when it does not generate: what it returns and what it
    calls. *)
Lemma get_image_plain (description : string) (width height : Z) (use_ai : bool)
      (w : world) :
  use_ai && is_dalle_or_mixed (policy am) = false ->
  exists url w' events,
    get_image am description width height use_ai w = Ok (url, w')
    /\ url <> ""
    /\ trace w' = (trace w ++ GetImage description width height use_ai :: events)%list
    /\ existsb is_generate events = false
    /\ requests w' = requests w + outside_requests (outside am) events
    /\ outside_requests (outside am) events <= 1
    /\ (policy am = unsplash \/ policy am = placeholder
        \/ no_access_key (outside am) = true ->
        outside_requests (outside am) events = 0)
    /\ Forall (fun e => match e with
                        | UnsplashUrl _ x y | PlaceholderUrl _ x y =>
                            x = width /\ y = height
                        | SearchSpecificImage _ => True
                        | _ => False
                        end) events.
Proof.
  intros Hai.
  assert (Hsearch :
    policy am = mixed \/ policy am = dalle ->
    exists url w' events,
      get_image am description width height false w = Ok (url, w')
      /\ url <> ""
      /\ trace w' = (trace w ++ GetImage description width height false :: events)%list
      /\ existsb is_generate events = false
      /\ requests w' = requests w + outside_requests (outside am) events
      /\ outside_requests (outside am) events <= 1
      /\ (policy am = unsplash \/ policy am = placeholder
          \/ no_access_key (outside am) = true ->
          outside_requests (outside am) events = 0)
      /\ Forall (fun e => match e with
                          | UnsplashUrl _ x y | PlaceholderUrl _ x y =>
                              x = width /\ y = height
                          | SearchSpecificImage _ => True
                          | _ => False
                          end) events).
  { intros Hp. rewrite get_image_search by assumption.
    destruct (found (outside am) (requests w) description) as [u|] eqn:Hf.
    + exists u. eexists. exists [SearchSpecificImage description].
      split; [reflexivity|]. split; [exact (found_not_empty _ _ _ _ Hf)|].
      unfold searched, logged, outside_requests. simpl.
      rewrite <- app_assoc. simpl.
      destruct (no_access_key (outside am)); simpl;
        repeat split; auto; try lia;
        try (intros [H|[H|H]]; destruct Hp as [Hp|Hp]; congruence);
        repeat constructor; auto.
    + exists (placeholder_get_image_url description width height). eexists.
      exists [SearchSpecificImage description; PlaceholderUrl description width height].
      split; [reflexivity|]. split; [apply placeholder_url_not_empty|].
      unfold searched, logged, outside_requests. simpl.
      rewrite <- app_assoc. simpl.
      destruct (no_access_key (outside am)); simpl;
        repeat split; auto; try lia;
        try (intros [H|[H|H]]; destruct Hp as [Hp|Hp]; congruence);
        repeat constructor; auto. }
  destruct (policy am) eqn:Hp.
  - rewrite (get_image_unsplash am description width height use_ai w Hp).
    exists (unsplash_get_image_url description width height). eexists.
    exists [UnsplashUrl description width height].
    split; [reflexivity|]. split; [apply unsplash_url_not_empty|].
    simpl. repeat split; auto; try lia; repeat constructor.
  - simpl in Hai. rewrite andb_true_r in Hai. subst use_ai. apply Hsearch. now right.
  - rewrite (get_image_placeholder am description width height use_ai w Hp).
    exists (placeholder_get_image_url description width height). eexists.
    exists [PlaceholderUrl description width height].
    split; [reflexivity|]. split; [apply placeholder_url_not_empty|].
    simpl. repeat split; auto; try lia; repeat constructor.
  - simpl in Hai. rewrite andb_true_r in Hai. subst use_ai. apply Hsearch. now left.
Qed.

(** One resolution: the events it adds, among them at most one request. *)
Lemma resolve_description_events (attrs : list (string * value))
      (description url : string) (w w' : world) :
  resolve_description am attrs description w = Ok (url, w') ->
  exists events,
    trace w' = (trace w ++ events)%list
    /\ requests w' = requests w + outside_requests (outside am) events
    /\ outside_requests (outside am) events <= 1
    /\ forallb default_sized events = true
    /\ (policy am = unsplash \/ policy am = placeholder
        \/ library_reference description = true
        \/ (no_access_key (outside am) = true
            /\ asks_for_generation description = false) ->
        outside_requests (outside am) events = 0).
Proof.
  unfold asks_for_generation, library_reference.
  destruct (PyStr.startswith description "logo-") eqn:H1.
  - rewrite resolve_description_logo by assumption.
    intros H. injection H as _ <-. eexists. split; [reflexivity|].
    simpl. repeat split; auto.
  - destruct (PyStr.startswith description "social-") eqn:H2.
    + rewrite resolve_description_social by assumption.
      intros H. injection H as _ <-. eexists. split; [reflexivity|].
      simpl. repeat split; auto.
    + rewrite resolve_description_generic by assumption.
      destruct (alt_or attrs description) as [query|e]; [|discriminate].
      destruct (use_ai_of description && is_dalle_or_mixed (policy am)) eqn:Hai.
      * apply andb_true_iff in Hai. destruct Hai as [-> Hp].
        destruct (get_image_generates am query 800 600 w s1024x1024 Hp eq_refl)
          as [u Hu].
        rewrite Hu. intros H. injection H as _ <-. eexists. split; [reflexivity|].
        simpl. split; [unfold outside_requests; simpl; lia|].
        split; [unfold outside_requests; simpl; lia|]. split; [reflexivity|].
        intros [Hs|[Hs|[Hs|[_ Hs]]]]; try discriminate; rewrite Hs in Hp; discriminate.
      * destruct (get_image_plain query 800 600 (use_ai_of description) w Hai)
          as [u [w1 [events [Hg [_ [Ht [_ [Hr [Hle [Hst Hdim]]]]]]]]]].
        rewrite Hg. intros H. injection H as _ <-.
        exists (GetImage query 800 600 (use_ai_of description) :: events).
        split; [exact Ht|].
        change (outside_requests (outside am)
                  (GetImage query 800 600 (use_ai_of description) :: events))
          with (outside_requests (outside am) events).
        split; [exact Hr|]. split; [exact Hle|]. split.
        -- simpl. clear -Hdim. induction Hdim as [|e l He _ IH]; simpl; [reflexivity|].
           rewrite IH, andb_true_r.
           destruct e; simpl; auto; try contradiction;
             destruct He as [-> ->]; reflexivity.
        -- intros [Hs|[Hs|[Hs|[Hs _]]]]; [apply Hst; auto | apply Hst; auto | discriminate
                                            | apply Hst; auto].
Qed.

(** The pass over the image modules. *)
Lemma resolved_events imgs assets w imgs' assets' w' :
  resolved am imgs assets w imgs' assets' w' ->
  exists events,
    trace w' = (trace w ++ events)%list
    /\ requests w' = requests w + outside_requests (outside am) events
    /\ outside_requests (outside am) events <= List.length imgs
    /\ forallb default_sized events = true
    /\ (policy am = unsplash \/ policy am = placeholder
        \/ (no_access_key (outside am) = true
            /\ Forall (fun r => asks_for_generation r = false) (refs_of imgs)) ->
        outside_requests (outside am) events = 0).
Proof.
  induction 1 as [|attrs rest assets w d url w1 rest' assets' w' Hsrc Hd _ IH].
  - exists []. rewrite app_nil_r. simpl. repeat split; auto.
  - apply resolve_description_events in Hd.
    destruct Hd as [ev1 [Ht1 [Hr1 [Hle1 [Hd1 Hs1]]]]].
    destruct IH as [ev2 [Ht2 [Hr2 [Hle2 [Hd2 Hs2]]]]].
    exists (ev1 ++ ev2)%list.
    rewrite outside_requests_app, forallb_app, Hd1, Hd2, Ht2, Ht1, Hr2, Hr1.
    rewrite app_assoc. simpl. repeat split; auto; try lia.
    simpl refs_of. rewrite Hsrc. simpl.
    intros Hs. rewrite Hs2, Hs1; [reflexivity| |].
    + destruct Hs as [Hs|[Hs|[Hk Hs]]]; auto.
      inversion Hs; subst. auto.
    + destruct Hs as [Hs|[Hs|[Hk Hs]]]; auto.
      inversion Hs; subst. auto.
Qed.

End Step.

(** X5: on an accepted document the pass only adds to the trace; the
    requests it sends are its generations and its searches with an access
    key, at most one for every image module, and none under the policies
    unsplash and placeholder. *)
Theorem requests_of_a_pass (lax : lax_mode) (am : AssetManager)
        (wire d : value) (w : world) :
  validate lax EmailTemplate wire = Valid d ->
  exists d' assets w' events,
    resolve_template am d w = Ok ((d', assets), w')
    /\ trace w' = (trace w ++ events)%list
    /\ requests w' = requests w + outside_requests (outside am) events
    /\ requests w' <= requests w + List.length (images d)
    /\ (policy am = unsplash \/ policy am = placeholder -> requests w' = requests w).
Proof.
  intros Hv. unfold resolve_template.
  destruct (resolve_assets_validated lax am wire d [] w Hv)
    as [d' [assets [w' [Hr [Hres _]]]]].
  destruct (resolved_events am _ _ _ _ _ _ Hres) as [events [Ht [Hq [Hle [_ Hs]]]]].
  exists d', assets, w', events. repeat split; auto; try lia.
  intros Hp. rewrite Hq, Hs; [lia|]. destruct Hp; auto.
Qed.

Lemma requests_of_a_pass_witness :
  exists d' assets w' events,
    resolve_template (manager online mixed) newsletter world0 = Ok ((d', assets), w')
    /\ trace w' = (trace world0 ++ events)%list
    /\ requests w' = requests world0 + outside_requests (outside (manager online mixed)) events
    /\ requests w' <= requests world0 + List.length (images newsletter)
    /\ (policy (manager online mixed) = unsplash
        \/ policy (manager online mixed) = placeholder -> requests w' = requests world0).
Proof.
  exact (requests_of_a_pass strict (manager online mixed) newsletter_json newsletter
           world0 eq_refl).
Defined.

(** X6: the pass calls [get_image] without dimensions: every provider
    call is made for 800 by 600, and every generation asks for the size
    1024x1024. *)
Theorem pass_asks_for_default_sizes (lax : lax_mode) (am : AssetManager)
        (wire d : value) (w : world) :
  validate lax EmailTemplate wire = Valid d ->
  exists d' assets w' events,
    resolve_template am d w = Ok ((d', assets), w')
    /\ trace w' = (trace w ++ events)%list
    /\ forallb default_sized events = true.
Proof.
  intros Hv. unfold resolve_template.
  destruct (resolve_assets_validated lax am wire d [] w Hv)
    as [d' [assets [w' [Hr [Hres _]]]]].
  destruct (resolved_events am _ _ _ _ _ _ Hres) as [events [Ht [_ [_ [Hd _]]]]].
  exists d', assets, w', events. auto.
Qed.

Lemma pass_asks_for_default_sizes_witness :
  exists d' assets w' events,
    resolve_template (manager online dalle) MarkerFacts.capital_generate world0
    = Ok ((d', assets), w')
    /\ trace w' = (trace world0 ++ events)%list
    /\ forallb default_sized events = true.
Proof.
  exact (pass_asks_for_default_sizes strict (manager online dalle)
           (MarkerFacts.banner_json "Generate-banner") MarkerFacts.capital_generate
           world0 eq_refl).
Defined.

(** X4: unless [use_ai] is set under the policy dalle or mixed,
    [get_image] returns a URL that is not empty, asks for no generation and
    sends at most one request, and none at all under the policies unsplash
    and placeholder. *)
Theorem get_image_without_generation (am : AssetManager) (description : string)
        (width height : Z) (use_ai : bool) (w : world) :
  use_ai && is_dalle_or_mixed (policy am) = false ->
  exists url w' events,
    get_image am description width height use_ai w = Ok (url, w')
    /\ url <> ""
    /\ trace w' = (trace w ++ GetImage description width height use_ai :: events)%list
    /\ existsb is_generate events = false
    /\ requests w <= requests w' <= S (requests w)
    /\ (policy am = unsplash \/ policy am = placeholder -> requests w' = requests w).
Proof.
  intros Hai.
  destruct (get_image_plain am description width height use_ai w Hai)
    as [url [w' [events [Hg [Hne [Ht [Hgen [Hr [Hle [Hst _]]]]]]]]]].
  exists url, w', events. repeat split; auto; try lia.
  intros Hp. rewrite Hr, Hst; [lia|]. destruct Hp; auto.
Qed.

Lemma get_image_without_generation_witness :
  exists url w' events,
    get_image (manager online dalle) "team office" 800 600 false world0 = Ok (url, w')
    /\ url <> ""
    /\ trace w'
       = (trace world0 ++ GetImage "team office" 800 600 false :: events)%list
    /\ existsb is_generate events = false
    /\ requests world0 <= requests w' <= S (requests world0)
    /\ (policy (manager online dalle) = unsplash
        \/ policy (manager online dalle) = placeholder -> requests w' = requests world0).
Proof.
  exact (get_image_without_generation (manager online dalle) "team office" 800 600
           false world0 eq_refl).
Defined.

End RequestFacts.

(** ** Policies that give the same result *)
Module PolicyFacts.
Import Pydantic Assets Resolver Samples Documents.
Import ProviderFacts StrategyFacts WalkFacts ImageFacts PassFacts ValidateFacts.
Import ShapeFacts RequestFacts.

Lemma src_of_some (attrs : list (string * value)) (description : string) :
  src_of attrs = Some description -> dict_get "src" attrs = Some (VStr description).
Proof.
  unfold src_of. destruct (dict_get "src" attrs) as [[]|]; congruence.
Qed.

Section Agree.
Variables am1 am2 : AssetManager.

(** The second manager gives the module the URL that the first one gives. *)
Definition agree_on (attrs : list (string * value)) : Prop :=
  forall description url w1 w1' w2,
    src_of attrs = Some description ->
    resolve_description am1 attrs description w1 = Ok (url, w1') ->
    exists w2', resolve_description am2 attrs description w2 = Ok (url, w2').

Lemma resolve_all_agree (imgs : list (list (string * value))) :
  Forall agree_on imgs ->
  forall assets w1 w2 r w1',
    resolve_all am1 imgs assets w1 = Ok (r, w1') ->
    exists w2', resolve_all am2 imgs assets w2 = Ok (r, w2').
Proof.
  induction 1 as [|attrs rest Ha _ IH]; intros assets w1 w2 r w1'; simpl.
  - unfold ret. intros H. injection H as <- <-. eauto.
  - destruct (resolve_image am1 attrs assets w1) as [[[attrs1 assets1] wa]|e] eqn:E;
      [|rewrite (bind_raise _ _ _ _ E); discriminate].
    rewrite (bind_ok _ _ _ _ _ E). simpl.
    destruct (resolve_all am1 rest assets1 wa) as [[r2 wb]|e] eqn:E2;
      [|rewrite (bind_raise _ _ _ _ E2); discriminate].
    rewrite (bind_ok _ _ _ _ _ E2). unfold ret. intros H. injection H as <- <-.
    apply resolve_image_shape in E.
    destruct E as [ref [url [Hsrc [Hd [-> ->]]]]].
    destruct (Ha ref url w1 wa w2 Hsrc Hd) as [wa2 Hd2].
    rewrite (bind_ok _ _ _ _ _
               (resolve_image_intro am2 attrs assets w2 wa2 ref url
                  (src_of_some _ _ Hsrc) Hd2)).
    simpl. destruct (IH _ _ wa2 _ _ E2) as [wb2 E3].
    rewrite (bind_ok _ _ _ _ _ E3). eauto.
Qed.

Lemma resolve_assets_agree (obj : value) :
  Forall agree_on (images obj) ->
  forall assets w1 w2 obj' assets' w1',
    resolve_assets am1 obj assets w1 = Ok ((obj', assets'), w1') ->
    exists w2', resolve_assets am2 obj assets w2 = Ok ((obj', assets'), w2').
Proof.
  intros Ha assets w1 w2 obj' assets' w1' H.
  destruct (resolve_assets_ok am1 _ _ _ _ _ _ H) as [Hall Hframe].
  destruct (resolve_all_agree _ Ha _ _ w2 _ _ Hall) as [w2' Hall2].
  destruct (resolve_assets_returns am2 _ _ _ _ _ _ Hall2) as [obj2 [Hr [Hi Hw]]].
  exists w2'. rewrite Hr. do 3 f_equal.
  apply same_but_src; congruence.
Qed.

End Agree.

(** The same manager with other services, and with another policy. *)
Definition with_outside (am : AssetManager) (sv : services) : AssetManager :=
  {| outside := sv; custom := custom am; policy := policy am |}.

Definition with_policy (am : AssetManager) (p : strategy) : AssetManager :=
  {| outside := outside am; custom := custom am; policy := p |}.

Lemma static_agree (am : AssetManager) (sv : services)
      (attrs : list (string * value)) :
  policy am = unsplash \/ policy am = placeholder ->
  agree_on am (with_outside am sv) attrs.
Proof.
  intros Hp description url w1 w1' w2 Hsrc.
  destruct (PyStr.startswith description "logo-") eqn:H1.
  - rewrite !resolve_description_logo by assumption.
    intros H. injection H as <- _. eauto.
  - destruct (PyStr.startswith description "social-") eqn:H2.
    + rewrite !resolve_description_social by assumption.
      intros H. injection H as <- _. eauto.
    + rewrite !resolve_description_generic by assumption.
      destruct (alt_or attrs description) as [query|e]; [|discriminate].
      destruct Hp as [Hp|Hp].
      * rewrite (get_image_unsplash am _ 800 600 _ _ Hp).
        rewrite (get_image_unsplash (with_outside am sv) _ 800 600 _ _ Hp).
        intros H. injection H as <- _. eauto.
      * rewrite (get_image_placeholder am _ 800 600 _ _ Hp).
        rewrite (get_image_placeholder (with_outside am sv) _ 800 600 _ _ Hp).
        intros H. injection H as <- _. eauto.
Qed.

Lemma without_key_agree (am : AssetManager) (attrs : list (string * value)) :
  policy am = mixed \/ policy am = dalle ->
  no_access_key (outside am) = true ->
  (forall r, src_of attrs = Some r -> asks_for_generation r = false) ->
  agree_on am (with_policy am placeholder) attrs.
Proof.
  intros Hp Hkey Hask description url w1 w1' w2 Hsrc.
  specialize (Hask description Hsrc).
  unfold asks_for_generation, library_reference in Hask.
  destruct (PyStr.startswith description "logo-") eqn:H1.
  - rewrite !resolve_description_logo by assumption.
    intros H. injection H as <- _. eauto.
  - destruct (PyStr.startswith description "social-") eqn:H2.
    + rewrite !resolve_description_social by assumption.
      intros H. injection H as <- _. eauto.
    + rewrite !resolve_description_generic by assumption.
      simpl in Hask. rewrite Hask.
      destruct (alt_or attrs description) as [query|e]; [|discriminate].
      rewrite get_image_search by assumption.
      rewrite (found_without_key _ _ _ Hkey).
      rewrite (get_image_placeholder (with_policy am placeholder) _ 800 600 _ _ eq_refl).
      intros H. injection H as <- _. eauto.
Qed.

Lemma Forall_references (P : string -> Prop) (obj : value) :
  Forall P (references obj) ->
  Forall (fun attrs => forall r, src_of attrs = Some r -> P r) (images obj).
Proof.
  unfold references. induction (images obj) as [|attrs rest IH]; simpl; [constructor|].
  intros H. apply Forall_app in H. destruct H as [H1 H2].
  constructor; [|auto].
  intros r Hr. rewrite Hr in H1. now inversion H1.
Qed.

(** X7: under the policies unsplash and placeholder the resolved
    template and the audit map are the same whatever the services answer
    and however many requests were sent before, and no request is sent. *)
Theorem static_policy_ignores_the_outside (lax : lax_mode) (am : AssetManager)
        (sv : services) (wire d : value) (w1 w2 : world) :
  validate lax EmailTemplate wire = Valid d ->
  policy am = unsplash \/ policy am = placeholder ->
  exists d' assets w1' w2',
    resolve_template am d w1 = Ok ((d', assets), w1')
    /\ resolve_template (with_outside am sv) d w2 = Ok ((d', assets), w2')
    /\ requests w1' = requests w1.
Proof.
  intros Hv Hp. unfold resolve_template.
  destruct (resolve_assets_validated lax am wire d [] w1 Hv)
    as [d' [assets [w1' [Hr [Hres _]]]]].
  assert (Ha : Forall (agree_on am (with_outside am sv)) (images d)).
  { apply Forall_forall. intros attrs _. now apply static_agree. }
  destruct (resolve_assets_agree am (with_outside am sv) d Ha [] w1 w2 d' assets w1' Hr)
    as [w2' Hr2].
  exists d', assets, w1', w2'. split; [exact Hr|]. split; [exact Hr2|].
  destruct (resolved_events am _ _ _ _ _ _ Hres) as [events [_ [Hq [_ [_ Hs]]]]].
  rewrite Hq, Hs; [lia|]. destruct Hp; auto.
Qed.

Lemma static_policy_ignores_the_outside_witness :
  exists d' assets w1' w2',
    resolve_template (manager online unsplash) newsletter world0 = Ok ((d', assets), w1')
    /\ resolve_template (with_outside (manager online unsplash) fresh_photos) newsletter
         {| requests := 7; trace := [] |}
       = Ok ((d', assets), w2')
    /\ requests w1' = requests world0.
Proof.
  apply (static_policy_ignores_the_outside strict (manager online unsplash)
           fresh_photos newsletter_json newsletter world0 {| requests := 7; trace := [] |}).
  - reflexivity.
  - left. reflexivity.
Defined.

(** X8: without an access key the policies mixed and dalle resolve a
    document to what the policy placeholder resolves it to, and send no
    request, provided no reference asks for a generation. *)
Theorem without_key_mixed_is_placeholder (lax : lax_mode) (am : AssetManager)
        (wire d : value) (w1 w2 : world) :
  validate lax EmailTemplate wire = Valid d ->
  policy am = mixed \/ policy am = dalle ->
  no_access_key (outside am) = true ->
  Forall (fun r => asks_for_generation r = false) (references d) ->
  exists d' assets w1' w2',
    resolve_template am d w1 = Ok ((d', assets), w1')
    /\ resolve_template (with_policy am placeholder) d w2 = Ok ((d', assets), w2')
    /\ requests w1' = requests w1.
Proof.
  intros Hv Hp Hkey Hask. unfold resolve_template.
  destruct (resolve_assets_validated lax am wire d [] w1 Hv)
    as [d' [assets [w1' [Hr [Hres _]]]]].
  assert (Ha : Forall (agree_on am (with_policy am placeholder)) (images d)).
  { eapply Forall_impl; [|exact (Forall_references _ _ Hask)].
    intros attrs Hattrs. now apply without_key_agree. }
  destruct (resolve_assets_agree am (with_policy am placeholder) d Ha [] w1 w2
              d' assets w1' Hr) as [w2' Hr2].
  exists d', assets, w1', w2'. split; [exact Hr|]. split; [exact Hr2|].
  destruct (resolved_events am _ _ _ _ _ _ Hres) as [events [_ [Hq [_ [_ Hs]]]]].
  rewrite Hq, Hs; [lia|]. right. right. split; [exact Hkey|exact Hask].
Qed.

Lemma without_key_mixed_is_placeholder_witness :
  exists d' assets w1' w2',
    resolve_template (manager offline mixed) newsletter world0 = Ok ((d', assets), w1')
    /\ resolve_template (with_policy (manager offline mixed) placeholder) newsletter world0
       = Ok ((d', assets), w2')
    /\ requests w1' = requests world0.
Proof.
  apply (without_key_mixed_is_placeholder strict (manager offline mixed)
           newsletter_json newsletter world0 world0).
  - reflexivity.
  - left. reflexivity.
  - reflexivity.
  - repeat constructor.
Defined.

End PolicyFacts.

(** ** The audit map *)
Module AuditFacts.
Import Pydantic Assets Resolver Samples Documents.
Import ProviderFacts StrategyFacts WalkFacts ImageFacts PassFacts ValidateFacts.

Lemma in_refs_of (r : string) (imgs : list (list (string * value))) :
  In r (refs_of imgs) <-> exists x, In x imgs /\ src_of x = Some r.
Proof.
  unfold refs_of. rewrite in_flat_map. split; intros [x [Hx Hr]]; exists x; split; auto.
  - destruct (src_of x); simpl in Hr; [|contradiction].
    destruct Hr as [->|[]]. reflexivity.
  - rewrite Hr. now left.
Qed.

(** No later module has the reference [r]. *)
Definition last_at (imgs : list (list (string * value))) (i : nat) (r : string) : Prop :=
  forall j y, i < j -> nth_error imgs j = Some y -> src_of y <> Some r.

Lemma last_at_tail (a : list (string * value)) (rest : list (list (string * value)))
      (i : nat) (r : string) :
  last_at (a :: rest) (S i) r <-> last_at rest i r.
Proof.
  unfold last_at. split; intros H j y Hj Hy.
  - apply (H (S j) y); [lia | exact Hy].
  - destruct j as [|j]; [lia|]. apply (H j y); [lia | exact Hy].
Qed.

Lemma last_at_head (a : list (string * value)) (rest : list (list (string * value)))
      (r : string) :
  last_at (a :: rest) 0 r <-> ~ In r (refs_of rest).
Proof.
  unfold last_at. rewrite in_refs_of. split.
  - intros H [y [Hy Hr]]. apply In_nth_error in Hy. destruct Hy as [j Hj].
    apply (H (S j) y); [lia | exact Hj | exact Hr].
  - intros H j y Hj Hy Hr. destruct j as [|j]; [lia|].
    apply H. exists y. split; [|exact Hr]. eapply nth_error_In. exact Hy.
Qed.

Lemma last_occurrence (imgs : list (list (string * value))) (r : string) :
  In r (refs_of imgs) ->
  exists i x, nth_error imgs i = Some x /\ src_of x = Some r /\ last_at imgs i r.
Proof.
  induction imgs as [|a rest IH]; [intros []|].
  intros Hin.
  destruct (List.in_dec String.string_dec r (refs_of rest)) as [Hrest|Hrest].
  - destruct (IH Hrest) as [i [x [Hi [Hx Hlast]]]].
    exists (S i), x. split; [exact Hi|]. split; [exact Hx|]. now apply last_at_tail.
  - exists 0, a. split; [reflexivity|]. split; [|now apply last_at_head].
    apply in_refs_of in Hin. destruct Hin as [x [[<-|Hx] Hr]]; [exact Hr|].
    elim Hrest. apply in_refs_of. eauto.
Qed.

Section Audit.
Variable am : AssetManager.

Lemma resolved_last imgs assets w imgs' assets' w' :
  resolved am imgs assets w imgs' assets' w' ->
  forall r,
    (~ In r (refs_of imgs) -> dict_get r assets' = dict_get r assets)
    /\ (forall i x x',
          nth_error imgs i = Some x -> nth_error imgs' i = Some x' ->
          src_of x = Some r -> last_at imgs i r ->
          exists url, src_of x' = Some url /\ dict_get r assets' = Some url).
Proof.
  induction 1 as [|attrs rest assets w d url w1 rest' assets' w' Hsrc Hd _ IH];
    intros r.
  - split; [reflexivity|]. intros [|i] x x'; discriminate.
  - destruct (IH r) as [IH1 IH2]. split.
    + intros Hout. rewrite in_refs_of in Hout.
      rewrite IH1.
      * apply dict_get_set_other. intros ->. apply Hout. exists attrs. simpl. auto.
      * rewrite in_refs_of. intros [x [Hx Hr]]. apply Hout. exists x. simpl. auto.
    + intros [|i] x x' Hx Hx' Hr Hlast; simpl in Hx, Hx'.
      * injection Hx as <-. injection Hx' as <-.
        assert (d = r) by congruence. subst d.
        exists url. split; [unfold src_of; now rewrite dict_get_set_same|].
        rewrite IH1 by (now apply last_at_head in Hlast).
        apply dict_get_set_same.
      * apply (IH2 i x x' Hx Hx' Hr). now apply last_at_tail in Hlast.
Qed.

End Audit.

(** X9: the audit map holds, for every reference, the URL that the last
    image module with that reference ended with; and every entry of the
    map is such a URL. *)
Theorem audit_map_holds_last_resolution (lax : lax_mode) (am : AssetManager)
        (wire d : value) (w : world) :
  validate lax EmailTemplate wire = Valid d ->
  exists d' assets w',
    resolve_template am d w = Ok ((d', assets), w')
    /\ (forall i x x' r,
          nth_error (images d) i = Some x -> nth_error (images d') i = Some x' ->
          src_of x = Some r -> last_at (images d) i r ->
          exists url, src_of x' = Some url /\ dict_get r assets = Some url)
    /\ (forall r url,
          dict_get r assets = Some url ->
          exists i x x',
            nth_error (images d) i = Some x /\ nth_error (images d') i = Some x'
            /\ src_of x = Some r /\ last_at (images d) i r
            /\ src_of x' = Some url).
Proof.
  intros Hv. unfold resolve_template.
  destruct (resolve_assets_validated lax am wire d [] w Hv)
    as [d' [assets [w' [Hr [Hres _]]]]].
  exists d', assets, w'. split; [exact Hr|].
  pose proof (resolved_last am _ _ _ _ _ _ Hres) as Hlast.
  split.
  - intros i x x' r Hx Hx' Hsrc Hl. exact (proj2 (Hlast r) i x x' Hx Hx' Hsrc Hl).
  - intros r url Hget.
    assert (Hin : In r (refs_of (images d))).
    { destruct (resolved_keys am _ _ _ _ _ _ Hres) as [_ Hkeys].
      assert (Hk : In r (keys assets)).
      { destruct (List.in_dec String.string_dec r (keys assets)) as [H|H]; [exact H|].
        apply dict_get_none_iff in H. congruence. }
      apply Hkeys in Hk. destruct Hk as [[]|Hk]. exact Hk. }
    destruct (last_occurrence _ _ Hin) as [i [x [Hx [Hsrc Hl]]]].
    pose proof (Forall2_length (resolved_steps am _ _ _ _ _ _ Hres)) as Hlen.
    destruct (nth_error (images d') i) as [x'|] eqn:Hx'.
    + destruct (proj2 (Hlast r) i x x' Hx Hx' Hsrc Hl) as [u [Hu Hg]].
      exists i, x, x'. repeat split; auto. congruence.
    + apply nth_error_None in Hx'.
      assert (i < List.length (images d)) by (apply nth_error_Some; congruence).
      lia.
Qed.

Lemma audit_map_holds_last_resolution_witness :
  exists d' assets w',
    resolve_template (manager fresh_photos mixed) hero_twice world0
    = Ok ((d', assets), w')
    /\ (forall i x x' r,
          nth_error (images hero_twice) i = Some x -> nth_error (images d') i = Some x' ->
          src_of x = Some r -> last_at (images hero_twice) i r ->
          exists url, src_of x' = Some url /\ dict_get r assets = Some url)
    /\ (forall r url,
          dict_get r assets = Some url ->
          exists i x x',
            nth_error (images hero_twice) i = Some x /\ nth_error (images d') i = Some x'
            /\ src_of x = Some r /\ last_at (images hero_twice) i r
            /\ src_of x' = Some url).
Proof.
  exact (audit_map_holds_last_resolution strict (manager fresh_photos mixed)
           hero_twice_json hero_twice world0 eq_refl).
Defined.

End AuditFacts.

(** ** References that the library answers *)
Module ReferenceFacts.
Import Pydantic Assets Resolver Samples Documents.
Import ProviderFacts StrategyFacts WalkFacts ImageFacts PassFacts ValidateFacts.
Import LibraryFacts.

Lemma replace_from_step (old new : string) (c : ascii) (tl : string) :
  PyStr.replace_from old new 0 (String c tl)
  = if String.prefix old (String c tl)
    then new ++ PyStr.replace_from old new (String.length old - 1) tl
    else String c (PyStr.replace_from old new 0 tl).
Proof. reflexivity. Qed.

Lemma replace_from_absent (old new s : string) :
  PyStr.contains old s = false -> PyStr.replace_from old new 0 s = s.
Proof.
  induction s as [|c s IH]; [reflexivity|].
  rewrite ResolverFacts.contains_unfold. intros H.
  apply orb_false_iff in H. destruct H as [Hp Hs].
  rewrite replace_from_step, Hp. f_equal. now apply IH.
Qed.

Lemma prefix_empty (s : string) : String.prefix "" s = true.
Proof. destruct s; reflexivity. Qed.

Lemma replace_logo (name : string) :
  PyStr.contains "logo-" name = false ->
  PyStr.replace ("logo-" ++ name) "logo-" "" = name.
Proof.
  intros H. unfold PyStr.replace. simpl. rewrite prefix_empty.
  now apply replace_from_absent.
Qed.

Lemma replace_social (name : string) :
  PyStr.contains "social-" name = false ->
  PyStr.replace ("social-" ++ name) "social-" "" = name.
Proof.
  intros H. unfold PyStr.replace. simpl. rewrite prefix_empty.
  now apply replace_from_absent.
Qed.

Lemma startswith_logo (name : string) :
  PyStr.startswith ("logo-" ++ name) "logo-" = true.
Proof. unfold PyStr.startswith. simpl. apply prefix_empty. Qed.

Lemma startswith_social (name : string) :
  PyStr.startswith ("social-" ++ name) "social-" = true.
Proof. unfold PyStr.startswith. simpl. apply prefix_empty. Qed.

Lemma resolve_image_object (am : AssetManager) (attrs attrs' : list (string * value))
      (assets assets' : asset_map) (w w' : world) :
  resolve_image am attrs assets w = Ok ((attrs', assets'), w') ->
  resolve_assets am (VObj "ImageModule" attrs) assets w
  = Ok ((VObj "ImageModule" attrs', assets'), w').
Proof.
  intros H. rewrite resolve_assets_obj. simpl.
  now rewrite (bind_ok _ _ _ _ _ H).
Qed.

(** X10: an image module whose reference is [logo-] or [social-]
    followed by a name (that does not hold the prefix again) gets the logo
    or the social icon of that name from the library, under every policy,
    with one call of the manager and no request; an unknown platform
    leaves the module with an empty [src]. *)
Theorem library_references_need_no_provider (am : AssetManager)
        (attrs : list (string * value)) (assets : asset_map) (w : world)
        (name : string) :
  (dict_get "src" attrs = Some (VStr ("logo-" ++ name)) ->
   PyStr.contains "logo-" name = false ->
   resolve_assets am (VObj "ImageModule" attrs) assets w
   = Ok ((VObj "ImageModule"
            (dict_set "src" (VStr (library_get_logo (custom am) name)) attrs),
          dict_set ("logo-" ++ name) (library_get_logo (custom am) name) assets),
         logged w (GetLogo name)))
  /\ (dict_get "src" attrs = Some (VStr ("social-" ++ name)) ->
      PyStr.contains "social-" name = false ->
      resolve_assets am (VObj "ImageModule" attrs) assets w
      = Ok ((VObj "ImageModule"
               (dict_set "src" (VStr (library_get_social_icon (custom am) name)) attrs),
             dict_set ("social-" ++ name)
                      (library_get_social_icon (custom am) name) assets),
            logged w (GetSocialIcons [name]))
      /\ (~ In (PyStr.lower name) platforms ->
          library_get_social_icon (custom am) name = "")).
Proof.
  split.
  - intros Hsrc Hname. apply resolve_image_object.
    apply resolve_image_intro; [exact Hsrc|].
    rewrite resolve_description_logo by apply startswith_logo.
    now rewrite replace_logo.
  - intros Hsrc Hname. split.
    + apply resolve_image_object.
      apply resolve_image_intro; [exact Hsrc|].
      rewrite resolve_description_social
        by (reflexivity || apply startswith_social).
      now rewrite replace_social.
    + intros Hout. unfold library_get_social_icon.
      now apply unknown_key_default.
Qed.

Lemma library_references_need_no_provider_witness :
  resolve_assets (manager online dalle)
    (VObj "ImageModule" [("type", VStr "image"); ("src", VStr "logo-white");
                         ("alt", VStr "Logo")]) [] world0
  = Ok ((VObj "ImageModule"
           [("type", VStr "image");
            ("src", VStr "https://your-cdn.com/assets/logo-white.png");
            ("alt", VStr "Logo")],
         [("logo-white", "https://your-cdn.com/assets/logo-white.png")]),
        {| requests := 0; trace := [GetLogo "white"] |})
  /\ resolve_assets (manager online dalle)
       (VObj "ImageModule" [("type", VStr "image"); ("src", VStr "social-Mastodon");
                            ("alt", VStr "Mastodon")]) [] world0
     = Ok ((VObj "ImageModule"
              [("type", VStr "image"); ("src", VStr ""); ("alt", VStr "Mastodon")],
            [("social-Mastodon", "")]),
           {| requests := 0; trace := [GetSocialIcons ["Mastodon"]] |}).
Proof.
  split.
  - apply (library_references_need_no_provider (manager online dalle)
             [("type", VStr "image"); ("src", VStr "logo-white"); ("alt", VStr "Logo")]
             [] world0 "white"); reflexivity.
  - apply (library_references_need_no_provider (manager online dalle)
             [("type", VStr "image"); ("src", VStr "social-Mastodon");
              ("alt", VStr "Mastodon")]
             [] world0 "Mastodon"); reflexivity.
Defined.

End ReferenceFacts.

(** ** The pass, module by module *)
Module ResolverClaims.
Import Pydantic Assets Resolver Samples Documents.
Import ProviderFacts StrategyFacts WalkFacts ImageFacts PassFacts ValidateFacts
       LayoutFacts ResolverFacts RequestFacts AuditFacts.

(** C1, as amended: the pass has no memoization.  On every accepted
    document it returns; the manager is called once for every image
    module, also when a reference repeats; the audit map holds exactly one
    entry per unique reference, and the entry of a reference is the URL
    that the last module with that reference ended with (a later
    resolution replaces the entry of an earlier one); and two modules with
    the same reference and the same alt text end with the same URL when the
    policy is unsplash or placeholder. *)
Theorem one_call_per_image_module (lax : lax_mode) (am : AssetManager)
        (wire d : value) (w : world) :
  validate lax EmailTemplate wire = Valid d ->
  exists d' assets w',
    resolve_template am d w = Ok ((d', assets), w')
    /\ calls w' = calls w + List.length (images d)
    /\ List.length (images d') = List.length (images d)
    /\ NoDup (keys assets)
    /\ (forall r, In r (keys assets) <-> In r (references d))
    /\ (forall i x x' r,
          nth_error (images d) i = Some x -> nth_error (images d') i = Some x' ->
          src_of x = Some r -> last_at (images d) i r ->
          exists url, src_of x' = Some url /\ dict_get r assets = Some url)
    /\ (policy am = unsplash \/ policy am = placeholder ->
        forall i j x y x' y',
          nth_error (images d) i = Some x -> nth_error (images d) j = Some y ->
          nth_error (images d') i = Some x' -> nth_error (images d') j = Some y' ->
          src_of x = src_of y -> alt_of x = alt_of y ->
          src_of x' = src_of y').
Proof.
  intros Hv. unfold resolve_template.
  destruct (resolve_assets_validated lax am wire d [] w Hv)
    as [d' [assets [w' [Hr [Hres _]]]]].
  exists d', assets, w'. split; [exact Hr|].
  split; [exact (resolved_calls am _ _ _ _ _ _ Hres)|].
  split; [symmetry; exact (Forall2_length (resolved_steps am _ _ _ _ _ _ Hres))|].
  destruct (resolved_keys am _ _ _ _ _ _ Hres) as [Hnd Hin].
  split; [apply Hnd; constructor|].
  split; [intros r; rewrite Hin, references_refs; simpl; tauto|].
  split.
  - intros i x x' r Hx Hx' Hsrc Hlast.
    exact (proj2 (resolved_last am _ _ _ _ _ _ Hres r) i x x' Hx Hx' Hsrc Hlast).
  - intros Hp i j x y x' y' Hx Hy Hx' Hy' Hsrc Halt.
    apply (static_same_url am _ _ Hp (resolved_steps am _ _ _ _ _ _ Hres)
             i j x y x' y'); auto.
    exact (proj1 (validated_alt lax wire d x i Hv Hx)).
Qed.

Lemma one_call_per_image_module_witness :
  exists d' assets w',
    resolve_template (manager fresh_photos mixed) hero_twice world0
    = Ok ((d', assets), w')
    /\ calls w' = calls world0 + List.length (images hero_twice)
    /\ List.length (images d') = List.length (images hero_twice)
    /\ NoDup (keys assets)
    /\ (forall r, In r (keys assets) <-> In r (references hero_twice))
    /\ (forall i x x' r,
          nth_error (images hero_twice) i = Some x ->
          nth_error (images d') i = Some x' ->
          src_of x = Some r -> last_at (images hero_twice) i r ->
          exists url, src_of x' = Some url /\ dict_get r assets = Some url)
    /\ (policy (manager fresh_photos mixed) = unsplash
        \/ policy (manager fresh_photos mixed) = placeholder ->
        forall i j x y x' y',
          nth_error (images hero_twice) i = Some x ->
          nth_error (images hero_twice) j = Some y ->
          nth_error (images d') i = Some x' -> nth_error (images d') j = Some y' ->
          src_of x = src_of y -> alt_of x = alt_of y ->
          src_of x' = src_of y').
Proof.
  exact (one_call_per_image_module strict (manager fresh_photos mixed)
           hero_twice_json hero_twice world0 eq_refl).
Defined.

(** *** The request that a module makes *)

(** Whether the resolution of an image module sends a request to the
    outside: a generation, or a search made with an access key. *)
Definition makes_request (am : AssetManager) (x : list (string * value)) : bool :=
  match src_of x with
  | Some reference =>
      negb (library_reference reference)
      && is_dalle_or_mixed (policy am)
      && (use_ai_of reference || negb (no_access_key (outside am)))
  | None => false
  end.

(** The request counter when the pass reaches the [i]-th image module: the
    requests made before the pass and by the earlier modules. *)
Definition request_number (am : AssetManager) (w : world)
           (imgs : list (list (string * value))) (i : nat) : nat :=
  requests w + List.length (filter (makes_request am) (firstn i imgs)).

Section Numbered.
Variable am : AssetManager.

Lemma resolve_description_requests (attrs : list (string * value))
      (description url : string) (w w1 : world) :
  src_of attrs = Some description ->
  resolve_description am attrs description w = Ok (url, w1) ->
  requests w1 = requests w + (if makes_request am attrs then 1 else 0).
Proof.
  intros Hsrc. unfold makes_request, library_reference. rewrite Hsrc.
  destruct (PyStr.startswith description "logo-") eqn:H1.
  - rewrite resolve_description_logo by assumption.
    intros H. injection H as _ <-. simpl. lia.
  - destruct (PyStr.startswith description "social-") eqn:H2.
    + rewrite resolve_description_social by assumption.
      intros H. injection H as _ <-. simpl. lia.
    + rewrite resolve_description_generic by assumption.
      destruct (alt_or attrs description) as [query|e]; [|discriminate].
      cbn [orb negb andb].
      destruct (use_ai_of description) eqn:Hai; destruct (policy am) eqn:Hp;
        cbn [is_dalle_or_mixed orb andb].
      * rewrite (get_image_unsplash am query 800 600 true w Hp).
        intros H. injection H as _ <-. simpl. lia.
      * destruct (get_image_generates am query 800 600 w s1024x1024) as [u Hu];
          [rewrite Hp; reflexivity | reflexivity |].
        rewrite Hu. intros H. injection H as _ <-. simpl. lia.
      * rewrite (get_image_placeholder am query 800 600 true w Hp).
        intros H. injection H as _ <-. simpl. lia.
      * destruct (get_image_generates am query 800 600 w s1024x1024) as [u Hu];
          [rewrite Hp; reflexivity | reflexivity |].
        rewrite Hu. intros H. injection H as _ <-. simpl. lia.
      * rewrite (get_image_unsplash am query 800 600 false w Hp).
        intros H. injection H as _ <-. simpl. lia.
      * rewrite get_image_search by (right; assumption).
        destruct (found (outside am) (requests w) query);
          intros H; injection H as _ <-; unfold searched, logged; simpl;
          destruct (no_access_key (outside am)); simpl; lia.
      * rewrite (get_image_placeholder am query 800 600 false w Hp).
        intros H. injection H as _ <-. simpl. lia.
      * rewrite get_image_search by (left; assumption).
        destruct (found (outside am) (requests w) query);
          intros H; injection H as _ <-; unfold searched, logged; simpl;
          destruct (no_access_key (outside am)); simpl; lia.
Qed.

(** Every module is resolved in the state that the earlier ones leave. *)
Lemma resolved_at imgs assets w imgs' assets' w' :
  resolved am imgs assets w imgs' assets' w' ->
  forall i x x',
    nth_error imgs i = Some x -> nth_error imgs' i = Some x' ->
    exists description url wi wi',
      src_of x = Some description
      /\ resolve_description am x description wi = Ok (url, wi')
      /\ requests wi = request_number am w imgs i
      /\ x' = dict_set "src" (VStr url) x.
Proof.
  induction 1 as [|attrs rest assets w d url w1 rest' assets' w' Hsrc Hd _ IH];
    intros [|i] x x' Hx Hx'; simpl in Hx, Hx'; try discriminate.
  - injection Hx as <-. injection Hx' as <-.
    exists d, url, w, w1. split; [exact Hsrc|]. split; [exact Hd|].
    split; [unfold request_number; simpl; lia | reflexivity].
  - destruct (IH i x x' Hx Hx') as (dx & ux & wi & wi' & Hsx & Hdx & Hn & Hx'').
    exists dx, ux, wi, wi'. split; [exact Hsx|]. split; [exact Hdx|].
    split; [|exact Hx''].
    rewrite Hn. unfold request_number.
    rewrite (resolve_description_requests attrs d url w w1 Hsrc Hd).
    cbn [firstn filter]. destruct (makes_request am attrs); simpl; lia.
Qed.

End Numbered.

(** A search that finds a photo at the first request only. *)
Definition one_photo : services :=
  {| unsplash_access_key := Some "key";
     unsplash_api := fun n _ =>
       match n with
       | O => Some ["https://images.unsplash.com/photo-0"]
       | S _ => Some []
       end;
     images_api := fun _ _ _ => None |}.

(** C8, as amended: on every accepted document the pass returns, under
    every policy, and an image module whose reference has no logo- or
    social- prefix and no custom/generate marker ends with a URL that is
    not empty.  Under the policy mixed (and dalle) that URL is the photo
    that the search made for its query finds (the query is the alt text,
    or the reference when the alt text is empty; the search is the request
    that follows those of the earlier modules), and the placeholder URL of
    the query when that search finds nothing; under the policies unsplash
    and placeholder it is the URL that the provider builds from the query.
    The placeholder URL contains the escaped first 50 characters of the
    query, hence the whole escaped query when it is no longer than that. *)
Theorem mixed_falls_back_to_placeholder (lax : lax_mode) (am : AssetManager)
        (wire d : value) (w : world) :
  validate lax EmailTemplate wire = Valid d ->
  exists d' assets w',
    resolve_template am d w = Ok ((d', assets), w')
    /\ List.length (images d') = List.length (images d)
    /\ forall i x x' reference alt,
         nth_error (images d) i = Some x -> nth_error (images d') i = Some x' ->
         src_of x = Some reference -> alt_of x = Some alt ->
         library_reference reference = false -> use_ai_of reference = false ->
         let query := query_of alt reference in
         let placeholder_url := placeholder_get_image_url query 800 600 in
         exists url,
           src_of x' = Some url
           /\ url <> ""
           /\ url = match policy am with
                    | unsplash => unsplash_get_image_url query 800 600
                    | placeholder => placeholder_url
                    | mixed | dalle =>
                        match found (outside am)
                                    (request_number am w (images d) i) query with
                        | Some photo => photo
                        | None => placeholder_url
                        end
                    end
           /\ PyStr.contains (PyStr.quote (PyStr.take 50 query))
                             placeholder_url = true
           /\ (String.length query <= 50 ->
               PyStr.contains (PyStr.quote query) placeholder_url = true).
Proof.
  intros Hv. unfold resolve_template.
  destruct (resolve_assets_validated lax am wire d [] w Hv)
    as [d' [assets [w' [Hr [Hres _]]]]].
  exists d', assets, w'. split; [exact Hr|].
  split; [symmetry; exact (Forall2_length (resolved_steps am _ _ _ _ _ _ Hres))|].
  intros i x x' reference alt Hx Hx' Href Halt Hlib Hai.
  set (query := query_of alt reference).
  set (placeholder_url := placeholder_get_image_url query 800 600).
  destruct (resolved_at am _ _ _ _ _ _ Hres i x x' Hx Hx')
    as (description & url & wi & wi' & Hsrc & Hd & Hn & ->).
  assert (description = reference) by congruence. subst description.
  unfold library_reference in Hlib. apply orb_false_iff in Hlib.
  destruct Hlib as [Hlogo Hsocial].
  rewrite resolve_description_generic in Hd by assumption.
  assert (Ha : dict_get "alt" x = Some (VStr alt)).
  { unfold alt_of in Halt. destruct (dict_get "alt" x) as [[]|]; congruence. }
  rewrite (alt_or_string _ _ _ Ha), Hai in Hd. fold query in Hd.
  exists url. split; [unfold src_of; now rewrite dict_get_set_same|].
  split.
  { destruct (get_image_plain am query 800 600 false wi eq_refl)
      as (url0 & w0 & events & Hg & Hne & _).
    congruence. }
  split.
  { destruct (policy am) eqn:Hp.
    - rewrite (get_image_unsplash am query 800 600 false wi Hp) in Hd.
      now injection Hd as <- _.
    - rewrite get_image_search in Hd by (right; assumption).
      rewrite Hn in Hd.
      destruct (found (outside am) (request_number am w (images d) i) query);
        now injection Hd as <- _.
    - rewrite (get_image_placeholder am query 800 600 false wi Hp) in Hd.
      now injection Hd as <- _.
    - rewrite get_image_search in Hd by (left; assumption).
      rewrite Hn in Hd.
      destruct (found (outside am) (request_number am w (images d) i) query);
        now injection Hd as <- _. }
  split; [apply placeholder_url_contains|].
  intros Hlen. unfold placeholder_url.
  rewrite <- (take_all 50 query Hlen) at 1. apply placeholder_url_contains.
Qed.

Lemma mixed_falls_back_to_placeholder_witness :
  exists d' assets w',
    resolve_template (manager one_photo mixed) newsletter world0
    = Ok ((d', assets), w')
    /\ List.length (images d') = List.length (images newsletter)
    /\ forall i x x' reference alt,
         nth_error (images newsletter) i = Some x ->
         nth_error (images d') i = Some x' ->
         src_of x = Some reference -> alt_of x = Some alt ->
         library_reference reference = false -> use_ai_of reference = false ->
         let query := query_of alt reference in
         let placeholder_url := placeholder_get_image_url query 800 600 in
         exists url,
           src_of x' = Some url
           /\ url <> ""
           /\ url = match policy (manager one_photo mixed) with
                    | unsplash => unsplash_get_image_url query 800 600
                    | placeholder => placeholder_url
                    | mixed | dalle =>
                        match found (outside (manager one_photo mixed))
                                    (request_number (manager one_photo mixed) world0
                                                    (images newsletter) i) query with
                        | Some photo => photo
                        | None => placeholder_url
                        end
                    end
           /\ PyStr.contains (PyStr.quote (PyStr.take 50 query))
                             placeholder_url = true
           /\ (String.length query <= 50 ->
               PyStr.contains (PyStr.quote query) placeholder_url = true).
Proof.
  exact (mixed_falls_back_to_placeholder strict (manager one_photo mixed)
           newsletter_json newsletter world0 eq_refl).
Defined.

(** The search is judged module by module: of two modules with the
    reference ["team-office"] the first ends with the photo that its search
    finds, the second, whose search finds nothing, with the placeholder. *)
Lemma fallback_is_per_module :
  map (request_number (manager one_photo mixed) world0 (images newsletter))
      [1; 2]%nat = [0; 1]%nat
  /\ exists d' assets w',
       resolve_template (manager one_photo mixed) newsletter world0
       = Ok ((d', assets), w')
       /\ references d'
          = [ "https://your-cdn.com/assets/logo-white.png";
              "https://images.unsplash.com/photo-0";
              "https://placehold.co/800x600/e5e7eb/1f2937?text=team-office";
              "https://your-cdn.com/assets/social/facebook.png" ].
Proof.
  split; [reflexivity|].
  do 3 eexists. split; [vm_compute; reflexivity | reflexivity].
Qed.

End ResolverClaims.

(** ** Instances of a model *)
Module InstanceFacts.
Import Pydantic ValidateFacts.

Definition int_in (ge le : option Z) (n : Z) : bool :=
  match ge with Some lo => (lo <=? n)%Z | None => true end
  && match le with Some hi => (n <=? hi)%Z | None => true end.

Definition length_in (min_length max_length : option nat) (n : nat) : bool :=
  match min_length with Some lo => (lo <=? n)%nat | None => true end
  && match max_length with Some hi => (n <=? hi)%nat | None => true end.

(** [d] is an instance of [t], as the class declares it: every attribute
    is of the type of its field, within its bounds, or [None] when the field
    is optional. *)
Fixpoint instance_of (t : ftype) (d : value) {struct t} : bool :=
  match t with
  | TStr => match d with VStr _ => true | _ => false end
  | TInt ge le => match d with VInt n => int_in ge le n | _ => false end
  | TFloat ge le =>
      match d with VFloat x => float_ge ge x && float_le le x | _ => false end
  | TBool => match d with VBool _ => true | _ => false end
  | TLiteral choices =>
      match d with VStr s => existsb (String.eqb s) choices | _ => false end
  | TDictAny => match d with VDict _ => true | _ => false end
  | TList elem min_length max_length =>
      match d with
      | VList items =>
          length_in min_length max_length (List.length items)
          && forallb (instance_of elem) items
      | _ => false
      end
  | TModel name _ fields =>
      match d with
      | VObj cls attrs =>
          String.eqb cls name
          && (fix attrs_of (fs : list (field ftype)) (l : list (string * value))
                {struct fs} : bool :=
                match fs, l with
                | [], [] => true
                | f :: fs', (k, x) :: l' =>
                    String.eqb k (fname f)
                    && match x with
                       | VNone => negb (frequired f)
                       | _ => instance_of (ftyp f) x
                       end
                    && attrs_of fs' l'
                | _, _ => false
                end) fields attrs
      | _ => false
      end
  | TUnion members => existsb (fun m => instance_of m d) members
  end.

(** The attributes of an instance, field by field. *)
Fixpoint attrs_of (fs : list (field ftype)) (l : list (string * value)) : bool :=
  match fs, l with
  | [], [] => true
  | f :: fs', (k, x) :: l' =>
      String.eqb k (fname f)
      && match x with
         | VNone => negb (frequired f)
         | _ => instance_of (ftyp f) x
         end
      && attrs_of fs' l'
  | _, _ => false
  end.

Lemma instance_of_model (name : string) (pbn : bool) (fields : list (field ftype))
      (cls : string) (attrs : list (string * value)) :
  instance_of (TModel name pbn fields) (VObj cls attrs)
  = String.eqb cls name && attrs_of fields attrs.
Proof.
  reflexivity.
Qed.

Lemma instance_not_none (t : ftype) : instance_of t VNone = false.
Proof.
  induction t using ftype_nested_ind; simpl; try reflexivity.
  induction H as [|m ms Hm _ IH]; simpl; [reflexivity|]. now rewrite Hm, IH.
Qed.

Lemma check_int_in (ge le : option Z) (n : Z) :
  check_int ge le n = Valid (VInt n) <-> int_in ge le n = true.
Proof.
  unfold check_int, int_in.
  destruct ge as [lo|], le as [hi|]; simpl;
    repeat match goal with
           | |- context [(?a <? ?b)%Z] =>
               let E := fresh "E" in
               destruct (a <? b)%Z eqn:E; [apply Z.ltb_lt in E | apply Z.ltb_ge in E]
           end;
    rewrite ?andb_true_iff, ?Z.leb_le; split; intros H; try discriminate;
    try reflexivity; try lia; auto.
Qed.

Lemma check_length_in (mn mx : option nat) (n : nat) :
  check_length mn mx n = None <-> length_in mn mx n = true.
Proof.
  unfold check_length, length_in.
  destruct mn as [lo|], mx as [hi|]; simpl;
    repeat match goal with
           | |- context [(?a <? ?b)%nat] =>
               let E := fresh "E" in
               destruct (a <? b)%nat eqn:E; [apply Nat.ltb_lt in E | apply Nat.ltb_ge in E]
           end;
    rewrite ?andb_true_iff, ?Nat.leb_le; split; intros H; try discriminate;
    try reflexivity; try lia; auto.
Qed.

Lemma check_float_in (ge le : option PyFloat.float) (x : PyFloat.float) :
  check_float ge le x = Valid (VFloat x) <-> float_ge ge x && float_le le x = true.
Proof.
  unfold check_float. destruct (float_ge ge x && float_le le x);
    split; intros H; try discriminate; reflexivity.
Qed.

Section Sound.
Variable lax : lax_mode.

Lemma optional_when_none (t : ftype) (pbn : bool) (f : field ftype)
      (entries : list (string * value)) :
  validate_field (validate lax t) pbn f entries = Valid VNone ->
  frequired f = false.
Proof.
  unfold validate_field.
  destruct (lookup_field pbn f entries) as [given|].
  - destruct given; try (intros H; now apply validate_not_none in H).
    destruct (frequired f); [discriminate | reflexivity].
  - destruct (frequired f); [discriminate | reflexivity].
Qed.

(** What the validator accepts is an instance of the model. *)
Lemma validate_sound (t : ftype) :
  forall v d, validate lax t v = Valid d -> instance_of t d = true.
Proof.
  induction t using ftype_nested_ind; intros v d Hv.
  - simpl in Hv. destruct v; inversion Hv. reflexivity.
  - simpl in Hv.
    assert (exists n, check_int ge le n = Valid d) as [n Hn]
        by (destruct v; try (destruct (coerce _ _); [|discriminate]); eauto).
    pose proof (PassFacts.check_int_valid _ _ _ _ Hn). subst d.
    simpl. now apply check_int_in.
  - simpl in Hv.
    assert (exists x, check_float ge le x = Valid d) as [x Hx]
        by (destruct v; try (destruct (coerce _ _); [|discriminate]); eauto).
    pose proof (PassFacts.check_float_valid _ _ _ _ Hx). subst d.
    simpl. now apply check_float_in.
  - simpl in Hv. destruct v; try (destruct (coerce _ _); [|discriminate]);
      inversion Hv; reflexivity.
  - simpl in Hv. destruct v; try discriminate.
    destruct (existsb (String.eqb s) choices) eqn:E; inversion Hv. simpl. exact E.
  - simpl in Hv. destruct v; inversion Hv. reflexivity.
  - apply validate_list_inv in Hv.
    destruct Hv as [items [xs [-> [-> [Hlen Hall]]]]]. simpl.
    apply andb_true_iff. split.
    + rewrite <- (Forall2_length Hall). now apply check_length_in.
    + clear Hlen. induction Hall as [|i x items xs Hx _ IH]; simpl; [reflexivity|].
      now rewrite (IHt i x Hx).
  - apply validate_model_inv in Hv.
    destruct Hv as [entries [attrs [-> [-> Hfields]]]].
    rewrite instance_of_model, String.eqb_refl. simpl.
    induction Hfields as [|f [k x] fs attrs [Hk Hx] _ IH]; [reflexivity|].
    inversion H as [|? ? Pf Pfs]; subst. simpl in Hk, Hx. subst k.
    simpl. rewrite String.eqb_refl, (IH Pfs), andb_true_r. simpl.
    destruct (any_field _ _ _ _ _ Hx) as [->|[given Hg]].
    + now rewrite (optional_when_none _ _ _ _ Hx).
    + rewrite (Pf given x Hg).
      destruct x; try reflexivity. now apply validate_not_none in Hg.
  - apply validate_union_inv in Hv. destruct Hv as [m [Hin Hm]].
    simpl. apply existsb_exists. exists m. split; [exact Hin|].
    rewrite Forall_forall in H. exact (H m Hin v d Hm).
Qed.

End Sound.

End InstanceFacts.

(** ** The wire form of an instance *)
Module ReloadFacts.
Import Pydantic ValidateFacts RoundTrip RoundTripProof InstanceFacts.

Definition attr_of (f : field ftype) (a : string * value) : Prop :=
  fst a = fname f
  /\ match snd a with
     | VNone => frequired f = false
     | x => instance_of (ftyp f) x = true
     end.

Lemma attrs_of_fields (fields : list (field ftype)) (attrs : list (string * value)) :
  attrs_of fields attrs = true <-> Forall2 attr_of fields attrs.
Proof.
  revert attrs. induction fields as [|f fs IH]; intros [|[k x] l]; simpl.
  - split; [constructor | reflexivity].
  - split; [discriminate | intros H; inversion H].
  - split; [discriminate | intros H; inversion H].
  - rewrite !andb_true_iff, IH. split.
    + intros [[Hk Hx] Hl]. constructor; [|exact Hl]. split.
      * now apply String.eqb_eq.
      * simpl. destruct x; auto. now apply negb_true_iff.
    + intros H. inversion H as [|? ? ? ? [Hk Hx] Hl]; subst. simpl in Hk, Hx.
      split; [split|exact Hl].
      * now apply String.eqb_eq.
      * destruct x; auto. now apply negb_true_iff.
Qed.

Lemma value_is_none (x : value) : x = VNone \/ x <> VNone.
Proof. destruct x; [now left | right; discriminate ..]. Qed.

Section Reload.
Variable lax : lax_mode.

(** Validating the wire form of an instance gives the instance back. *)
Definition reloads (t : ftype) : Prop :=
  forall d, instance_of t d = true -> validate lax t (model_dump t d) = Valid d.

(** The names and keys of the fields of a model are its own. *)
Definition fields_ok (fields : list (field ftype)) : bool :=
  nodup_b (map fname fields) && nodup_b (map wire_name fields)
  && names_clear fields.

Lemma reload_model (name : string) (pbn : bool) (fields : list (field ftype)) :
  fields_ok fields = true ->
  Forall (fun f => reloads (ftyp f)) fields ->
  reloads (TModel name pbn fields).
Proof.
  intros Hwf IH d Hd.
  destruct d as [| | | | | | |cls attrs]; try discriminate.
  rewrite instance_of_model in Hd. apply andb_true_iff in Hd.
  destruct Hd as [Hcls Hattrs]. apply String.eqb_eq in Hcls. subst cls.
  apply attrs_of_fields in Hattrs.
  unfold fields_ok in Hwf.
  apply andb_true_iff in Hwf. destruct Hwf as [Hwf Hclear].
  apply andb_true_iff in Hwf. destruct Hwf as [Hnames Hwires].
  apply nodup_b_NoDup in Hnames, Hwires.
  assert (Hfst : map fst attrs = map fname fields).
  { clear -Hattrs. induction Hattrs as [|f a fs attrs [Hn _] _ IH]; simpl;
      [reflexivity | now rewrite Hn, IH]. }
  assert (Hby : Forall2 (fun f a => dict_get (fname f) attrs = Some (snd a))
                        fields attrs).
  { pose proof (attrs_by_name attrs) as Hall. rewrite Hfst in Hall.
    specialize (Hall Hnames). rewrite Forall_forall in Hall.
    eapply Forall2_refine; [exact Hattrs|].
    intros f a Hin [Hn _]. rewrite <- Hn.
    apply Hall. eapply in_combine_r. eassumption. }
  change (validate lax (TModel name pbn fields)
            (VDict (flat_map
                      (fun f => match dict_get (fname f) attrs with
                                | Some VNone => []
                                | Some x => [(wire_name f, model_dump (ftyp f) x)]
                                | None => []
                                end) fields))
          = Valid (VObj name attrs)).
  rewrite (dump_fields_emitted attrs fields attrs Hby).
  apply validate_model_intro.
  eapply Forall2_refine; [exact Hattrs|].
  intros f [k x] Hin [Hn Hx]. simpl in Hn, Hx. split; [exact Hn|]. simpl.
  pose proof (emitted_lookup fields attrs f (k, x) Hwires Hin) as Hlook.
  simpl in Hlook.
  assert (Hf : In f fields) by (eapply in_combine_l; eassumption).
  destruct (value_is_none x) as [Hnone|Hsome].
  - subst x.
    assert (Habsent : lookup_field pbn f (emitted fields attrs) = None).
    { unfold lookup_field. unfold wire_name in Hlook.
      destruct (falias f) as [al|] eqn:Hal; [|exact Hlook].
      rewrite Hlook. destruct pbn; [|reflexivity].
      apply emitted_absent.
      unfold names_clear in Hclear. rewrite forallb_forall in Hclear.
      specialize (Hclear f Hf). rewrite Hal in Hclear.
      apply negb_true_iff in Hclear. now apply not_existsb_notin. }
    unfold validate_field. now rewrite Habsent, Hx.
  - assert (Hinst : instance_of (ftyp f) x = true) by (destruct x; congruence).
    assert (Hfound : lookup_field pbn f (emitted fields attrs)
                     = Some (model_dump (ftyp f) x)).
    { unfold lookup_field. unfold wire_name in Hlook.
      destruct (falias f) as [al|]; rewrite Hlook; destruct x; congruence. }
    rewrite (validate_field_given _ _ _ _ _ Hfound (dump_not_none _ _ Hsome)).
    rewrite Forall_forall in IH.
    exact (IH f Hf x Hinst).
Qed.

Lemma reload_list (elem : ftype) (mn mx : option nat) :
  reloads elem -> reloads (TList elem mn mx).
Proof.
  intros IH d Hd.
  destruct d as [| | | | |items| |]; try discriminate.
  simpl in Hd. apply andb_true_iff in Hd. destruct Hd as [Hlen Hall].
  change (validate lax (TList elem mn mx) (VList (map (model_dump elem) items))
          = Valid (VList items)).
  apply validate_list_intro.
  - rewrite length_map. now apply check_length_in.
  - clear Hlen. induction items as [|x items IHl]; simpl; constructor.
    + simpl in Hall. apply andb_true_iff in Hall. exact (IH x (proj1 Hall)).
    + simpl in Hall. apply andb_true_iff in Hall. exact (IHl (proj2 Hall)).
Qed.

(** An instance of a variant carries one of its tags, and so does its
    wire form. *)
Lemma instance_tag (m : ftype) (tags : list string) (d : value) :
  member_tags m = Some tags ->
  instance_of m d = true ->
  exists attrs entries tag,
    d = VObj (type_name m) attrs
    /\ model_dump m d = VDict entries
    /\ dict_get "type" entries = Some (VStr tag)
    /\ existsb (String.eqb tag) tags = true.
Proof.
  intros Hm Hd. apply member_tags_shape in Hm.
  destruct Hm as [name [pbn [rest ->]]].
  destruct d as [| | | | | | |cls attrs]; try discriminate.
  rewrite instance_of_model in Hd. apply andb_true_iff in Hd.
  destruct Hd as [Hcls Hattrs]. apply String.eqb_eq in Hcls. subst cls.
  destruct attrs as [|[k x] l]; [discriminate|].
  simpl in Hattrs. apply andb_true_iff in Hattrs. destruct Hattrs as [Hattrs _].
  apply andb_true_iff in Hattrs. destruct Hattrs as [Hk Hx].
  apply String.eqb_eq in Hk. subst k.
  destruct x; try discriminate.
  do 3 eexists. split; [reflexivity|]. split; [reflexivity|].
  split; [reflexivity | exact Hx].
Qed.

Lemma reload_union (members : list ftype) :
  union_ok members = true ->
  Forall reloads members -> reloads (TUnion members).
Proof.
  intros Hok IH d Hd.
  simpl in Hd. apply existsb_exists in Hd. destruct Hd as [m [Hin Hm]].
  destruct (in_split _ _ Hin) as [before [after ->]].
  pose proof (union_split_apart before m after Hok) as Hapart.
  assert (Htags : exists tags, member_tags m = Some tags).
  { clear -Hok. induction before as [|b rest IHb]; simpl in Hok.
    - destruct (member_tags m); [eauto | discriminate].
    - apply andb_true_iff in Hok. destruct Hok as [_ Hok]. now apply IHb. }
  destruct Htags as [tags Htags].
  destruct (instance_tag m tags d Htags Hm)
    as [attrs [entries [tag [-> [Hdump [Htype Htag]]]]]].
  assert (Hnames : Forall (fun b => String.eqb (type_name b) (type_name m) = false)
                          before).
  { eapply Forall_impl; [|exact Hapart]. intros b Hb. unfold apart in Hb.
    apply andb_true_iff in Hb. destruct Hb as [Hb _].
    now apply negb_true_iff in Hb. }
  rewrite (dump_union_member before m after _ attrs Hnames eq_refl).
  change (first_member
            (map (fun m' => (type_name m',
                             validate lax m' (model_dump m (VObj (type_name m) attrs))))
                 (before ++ m :: after))
          = Valid (VObj (type_name m) attrs)).
  rewrite map_app. simpl map.
  rewrite Forall_forall in IH.
  rewrite (IH m Hin _ Hm).
  apply first_member_first.
  rewrite Forall_forall. intros r Hr. apply in_map_iff in Hr.
  destruct Hr as [b [<- Hb]]. simpl.
  rewrite Forall_forall in Hapart. specialize (Hapart b Hb).
  unfold apart in Hapart. apply andb_true_iff in Hapart.
  destruct Hapart as [_ Hdis]. rewrite Htags in Hdis.
  destruct (member_tags b) as [tags'|] eqn:Hb'; [|discriminate].
  rewrite Hdump. apply (tagged_rejects lax b tags' entries tag Hb' Htype).
  rewrite forallb_forall in Hdis.
  apply existsb_exists in Htag. destruct Htag as [t [Ht Heq]].
  apply String.eqb_eq in Heq. subst t.
  specialize (Hdis tag Ht). now apply negb_true_iff in Hdis.
Qed.

Lemma reload_str : reloads TStr.
Proof. intros d Hd. destruct d; try discriminate. reflexivity. Qed.

Lemma reload_int (ge le : option Z) : reloads (TInt ge le).
Proof.
  intros d Hd. destruct d; try discriminate. simpl in *. now apply check_int_in.
Qed.

Lemma reload_literal (choices : list string) : reloads (TLiteral choices).
Proof.
  intros d Hd. destruct d; try discriminate. simpl in *. now rewrite Hd.
Qed.

Lemma reload (t : ftype) : wf t = true -> reloads t.
Proof.
  induction t using ftype_nested_ind; intros Hwf.
  - apply reload_str.
  - apply reload_int.
  - intros d Hd. destruct d; try discriminate. simpl in *. now apply check_float_in.
  - intros d Hd. destruct d; try discriminate. reflexivity.
  - apply reload_literal.
  - intros d Hd. destruct d; try discriminate. reflexivity.
  - apply reload_list. now apply IHt.
  - simpl in Hwf. apply andb_true_iff in Hwf. destruct Hwf as [Hok Hwfs].
    apply reload_model; [exact Hok|].
    rewrite forallb_forall in Hwfs. rewrite Forall_forall in *.
    intros f Hf. apply H; auto.
  - simpl in Hwf. apply andb_true_iff in Hwf. destruct Hwf as [Hok Hwfs].
    apply reload_union; [exact Hok|].
    rewrite forallb_forall in Hwfs. rewrite Forall_forall in *.
    intros m Hm. apply H; auto.
Qed.

End Reload.

End ReloadFacts.

(** ** The resolved template is an instance of the model *)
Module PreservationFacts.
Import Pydantic Assets Resolver ValidateFacts PassFacts.
Import ShapeFacts InstanceFacts ReloadFacts.

Lemma dict_set_other_value {A} (k : string) (x v : A) (a b : list (string * A)) :
  dict_set k x a = dict_set k x b ->
  dict_get k b = Some v ->
  In k (keys a) ->
  b = dict_set k v a.
Proof.
  intros Hset Hget Hin. symmetry.
  apply (dict_set_same_key k x).
  - now rewrite dict_set_set.
  - now rewrite dict_get_set_same.
  - apply in_keys_dict_set. now left.
Qed.

Lemma attrs_keys (fields : list (field ftype)) (attrs : list (string * value)) :
  Forall2 attr_of fields attrs -> keys attrs = map fname fields.
Proof.
  unfold keys. induction 1 as [|f a fs attrs [Hn _] _ IH]; simpl;
    [reflexivity | now rewrite Hn, IH].
Qed.

Lemma str_field_in (n : string) (fields : list (field ftype)) :
  has_str_field n fields = true -> In n (map fname fields).
Proof.
  unfold has_str_field.
  destruct (find (fun g => String.eqb n (fname g)) fields) as [f|] eqn:E; [|discriminate].
  intros _. apply find_some in E. destruct E as [Hin Heq].
  apply String.eqb_eq in Heq. subst n. now apply in_map.
Qed.

(** Giving a string to a required [str] field leaves an instance. *)
Lemma attrs_set_str (n u : string) (fields : list (field ftype))
      (attrs : list (string * value)) :
  Forall2 attr_of fields attrs ->
  has_str_field n fields = true ->
  Forall2 attr_of fields (dict_set n (VStr u) attrs).
Proof.
  induction 1 as [|f [k x] fs l [Hk Hx] Hrest IH]; [discriminate|].
  simpl in Hk. subst k. unfold has_str_field. simpl.
  destruct (String.eqb n (fname f)) eqn:E.
  - intros Hf. apply andb_true_iff in Hf. destruct Hf as [_ Hty].
    apply String.eqb_eq in E. constructor; [|exact Hrest].
    split; [exact E|]. simpl. destruct (ftyp f); try discriminate. reflexivity.
  - intros Hf. constructor; [now split|]. apply IH. exact Hf.
Qed.

Definition has_url (attrs : list (string * value)) : Prop :=
  exists u, src_of attrs = Some u.

Definition stays_instance (t : ftype) : Prop :=
  image_typed t = true ->
  forall d d',
    instance_of t d = true ->
    without_src d = without_src d' ->
    Forall has_url (images d') ->
    instance_of t d' = true.

Lemma stays_list (elem : ftype) (mn mx : option nat) :
  stays_instance elem -> stays_instance (TList elem mn mx).
Proof.
  intros IH Ht d d' Hd Hw Hu. simpl in Ht.
  destruct d as [| | | | |items| |]; try discriminate.
  apply without_src_list in Hw. destruct Hw as [items' [-> Hmap]].
  simpl in Hd, Hu |- *. apply andb_true_iff in Hd. destruct Hd as [Hlen Hall].
  apply andb_true_iff. split.
  - rewrite <- (length_map without_src items'), <- Hmap, length_map. exact Hlen.
  - clear Hlen. revert items' Hmap Hu.
    induction items as [|x items IHl]; intros [|y items'] Hmap Hu;
      simpl in *; try discriminate; [reflexivity|].
    injection Hmap as Hxy Hrest. apply Forall_app in Hu. destruct Hu as [Hy Hys].
    apply andb_true_iff in Hall. destruct Hall as [Hx Hxs].
    rewrite (IH Ht x y Hx Hxy Hy). simpl. now apply IHl.
Qed.

Lemma stays_model (name : string) (pbn : bool) (fields : list (field ftype)) :
  Forall (fun f => stays_instance (ftyp f)) fields ->
  stays_instance (TModel name pbn fields).
Proof.
  intros IH Ht d d' Hd Hw Hu.
  destruct d as [| | | | | | |cls attrs]; try discriminate.
  rewrite instance_of_model in Hd. apply andb_true_iff in Hd.
  destruct Hd as [Hcls Hattrs]. apply String.eqb_eq in Hcls. subst cls.
  apply attrs_of_fields in Hattrs.
  apply without_src_obj in Hw. destruct Hw as [attrs' [-> Hw]].
  rewrite instance_of_model, String.eqb_refl. simpl andb.
  apply attrs_of_fields.
  simpl in Ht. apply andb_true_iff in Ht. destruct Ht as [Himg Hall].
  simpl in Hu. destruct (is_image_class name).
  - apply andb_true_iff in Himg. destruct Himg as [Hsrc _].
    inversion Hu as [|? ? [u Hurl] _]; subst.
    unfold src_of in Hurl.
    destruct (dict_get "src" attrs') as [[]|] eqn:Hget; try discriminate.
    injection Hurl as ->.
    rewrite (dict_set_other_value "src" VNone (VStr u) attrs attrs' Hw Hget).
    + now apply attrs_set_str.
    + rewrite (attrs_keys _ _ Hattrs). now apply str_field_in.
  - clear Himg. revert attrs' Hw Hu.
    induction Hattrs as [|f [k x] fs l [Hk Hx] _ IHl]; intros [|[k' y] l'] Hw Hu;
      simpl in *; try discriminate; [constructor|].
    injection Hw as Hkk Hxy Hrest. subst k k'.
    apply Forall_app in Hu. destruct Hu as [Hy Hys].
    apply andb_true_iff in Hall. destruct Hall as [Hf Hfs].
    inversion IH as [|? ? Pf Pfs]; subst.
    constructor; [|now apply IHl].
    split; [reflexivity|]. simpl.
    destruct (value_is_none x) as [->|Hsome].
    + apply without_src_scalar in Hxy. simpl in Hxy. subst y. exact Hx.
    + assert (Hinst : instance_of (ftyp f) x = true) by (destruct x; congruence).
      pose proof (Pf Hf x y Hinst Hxy Hy) as Hy'.
      destruct y; auto. now rewrite instance_not_none in Hy'.
Qed.

Lemma stays (t : ftype) : stays_instance t.
Proof.
  induction t using ftype_nested_ind;
    try (intros _ d d' Hd Hw _; destruct d; try discriminate;
         apply without_src_scalar in Hw; simpl in Hw; now subst d').
  - now apply stays_list.
  - now apply stays_model.
  - intros Ht d d' Hd Hw Hu. simpl in *.
    apply existsb_exists in Hd. destruct Hd as [m [Hin Hm]].
    apply existsb_exists. exists m. split; [exact Hin|].
    rewrite Forall_forall in H. rewrite forallb_forall in Ht.
    exact (H m Hin (Ht m Hin) d d' Hm Hw Hu).
Qed.

End PreservationFacts.

(** ** The asset pipeline, from the template to the file *)
Module PipelineFacts.
Import Pydantic Assets Resolver Samples Documents Pipeline.
Import ValidateFacts WalkFacts PassFacts SchemaFacts RoundTrip RoundTripProof.
Import ShapeFacts InstanceFacts ReloadFacts PreservationFacts.

Lemma resolved_have_urls (am : AssetManager) imgs assets w imgs' assets' w' :
  resolved am imgs assets w imgs' assets' w' -> Forall has_url imgs'.
Proof.
  intros H. apply resolved_steps in H.
  induction H as [|x x' l l' Hs _ IH]; constructor; auto.
  destruct (step_src am x x' Hs) as [url [_ Hu]]. exists url. exact Hu.
Qed.

Lemma same_elements_same_length (l1 l2 : list string) :
  NoDup l1 -> NoDup l2 -> (forall x, In x l1 <-> In x l2) ->
  List.length l1 = List.length l2.
Proof.
  intros H1 H2 H. apply Nat.le_antisymm; apply NoDup_incl_length; auto;
    intros x Hx; now apply H.
Qed.

Section Simplified.
Variable lax : lax_mode.

(** The wire form of a module of the simplified model is accepted by the
    variant of its class, and by none before it. *)
Lemma reload_modules : reloads lax (TUnion [ImageModule; ButtonModule; Module_]).
Proof.
  intros d Hd.
  change (existsb (fun m => instance_of m d) [ImageModule; ButtonModule; Module_] = true)
    in Hd.
  apply existsb_exists in Hd. destruct Hd as [m [Hin Hd]].
  destruct Hin as [<-|[<-|[<-|[]]]].
  - pose proof (reload lax ImageModule eq_refl d Hd) as Hre.
    destruct d as [| | | | | | |cls attrs]; try discriminate.
    unfold ImageModule in Hd at 1.
    rewrite instance_of_model in Hd. apply andb_true_iff in Hd.
    destruct Hd as [Hcls _]. apply String.eqb_eq in Hcls. subst cls.
    change (first_member
              [ ("ImageModule",
                 validate lax ImageModule (model_dump ImageModule (VObj "ImageModule" attrs)));
                ("ButtonModule",
                 validate lax ButtonModule (model_dump ImageModule (VObj "ImageModule" attrs)));
                ("Module",
                 validate lax Module_ (model_dump ImageModule (VObj "ImageModule" attrs))) ]
            = Valid (VObj "ImageModule" attrs)).
    rewrite Hre. reflexivity.
  - pose proof (reload lax ButtonModule eq_refl d Hd) as Hre.
    destruct (instance_tag ButtonModule ["button"] d eq_refl Hd)
      as [attrs [entries [tag [-> [Hdump [Htype Htag]]]]]].
    change (type_name ButtonModule) with "ButtonModule" in Hdump, Hre |- *.
    assert (H1 : exists e, validate lax ImageModule
                             (model_dump ButtonModule (VObj "ButtonModule" attrs))
                           = Invalid e).
    { rewrite Hdump.
      apply (tagged_rejects lax ImageModule ["image"] entries tag eq_refl Htype).
      simpl in Htag |- *. rewrite orb_false_r in *. apply String.eqb_eq in Htag.
      now subst tag. }
    destruct H1 as [e H1].
    change (first_member
              [ ("ImageModule",
                 validate lax ImageModule
                   (model_dump ButtonModule (VObj "ButtonModule" attrs)));
                ("ButtonModule",
                 validate lax ButtonModule
                   (model_dump ButtonModule (VObj "ButtonModule" attrs)));
                ("Module",
                 validate lax Module_
                   (model_dump ButtonModule (VObj "ButtonModule" attrs))) ]
            = Valid (VObj "ButtonModule" attrs)).
    rewrite H1, Hre. reflexivity.
  - destruct d as [| | | | | | |cls attrs]; try discriminate.
    unfold Module_ in Hd at 1.
    rewrite instance_of_model in Hd. apply andb_true_iff in Hd.
    destruct Hd as [Hcls Hattrs]. apply String.eqb_eq in Hcls. subst cls.
    destruct attrs as [|[k x] rest]; [discriminate|].
    simpl in Hattrs.
    destruct rest; [|rewrite andb_false_r in Hattrs; discriminate].
    rewrite andb_true_r in Hattrs.
    apply andb_true_iff in Hattrs. destruct Hattrs as [Hk Hx].
    apply String.eqb_eq in Hk. subst k. destruct x; try discriminate.
    assert (H1 : exists e, validate lax ImageModule (VDict [("type", VStr s)])
                           = Invalid e).
    { simpl. unfold validate_field, lookup_field. simpl.
      destruct (String.eqb s "image"); simpl; eauto. }
    assert (H2 : exists e, validate lax ButtonModule (VDict [("type", VStr s)])
                           = Invalid e).
    { simpl. unfold validate_field, lookup_field. simpl.
      destruct (String.eqb s "button"); simpl; eauto. }
    destruct H1 as [e1 H1]. destruct H2 as [e2 H2].
    change (first_member
              [ ("ImageModule", validate lax ImageModule (VDict [("type", VStr s)]));
                ("ButtonModule", validate lax ButtonModule (VDict [("type", VStr s)]));
                ("Module", validate lax Module_ (VDict [("type", VStr s)])) ]
            = Valid (VObj "Module" [("type", VStr s)])).
    rewrite H1, H2. reflexivity.
Qed.

Lemma reload_email_template : reloads lax EmailTemplate.
Proof.
  apply reload_model; [reflexivity|]. repeat constructor.
  apply reload_model; [reflexivity|]. repeat constructor; [apply reload_literal|].
  apply reload_list.
  apply reload_model; [reflexivity|]. repeat constructor; [apply reload_str|].
  apply reload_list.
  apply reload_model; [reflexivity|]. repeat constructor; [apply reload_int|].
  apply reload_list. apply reload_modules.
Qed.

End Simplified.

(** X15: the template that the pass leaves is still an instance of the
    model it was parsed with, and validating its wire form gives it back. *)
Theorem resolved_template_is_a_document (lax : lax_mode) (am : AssetManager)
        (wire d : value) (w : world) :
  validate lax EmailTemplate wire = Valid d ->
  exists d' assets w',
    resolve_template am d w = Ok ((d', assets), w')
    /\ instance_of EmailTemplate d' = true
    /\ validate lax EmailTemplate (model_dump EmailTemplate d') = Valid d'.
Proof.
  intros Hv. unfold resolve_template.
  destruct (resolve_assets_validated lax am wire d [] w Hv)
    as [d' [assets [w' [Hr [Hres Hframe]]]]].
  exists d', assets, w'. split; [exact Hr|].
  assert (Hinst : instance_of EmailTemplate d' = true).
  { apply (stays EmailTemplate eq_refl d d').
    - exact (validate_sound lax _ _ _ Hv).
    - symmetry. exact Hframe.
    - exact (resolved_have_urls am _ _ _ _ _ _ Hres). }
  split; [exact Hinst|].
  exact (reload_email_template lax d' Hinst).
Qed.

Lemma resolved_template_is_a_document_witness :
  exists d' assets w',
    resolve_template (manager online mixed) newsletter world0 = Ok ((d', assets), w')
    /\ instance_of EmailTemplate d' = true
    /\ validate strict EmailTemplate (model_dump EmailTemplate d') = Valid d'.
Proof.
  exact (resolved_template_is_a_document strict (manager online mixed)
           newsletter_json newsletter world0 eq_refl).
Defined.

(** X16: on an accepted template [generate_template_with_assets]
    returns, and what [save_with_asset_metadata] writes of its result holds
    a template that validates to the resolved one, the audit map as it is,
    and the number of distinct references as the count. *)
Theorem saved_template_and_assets (lax : lax_mode) (am : AssetManager)
        (wire d : value) (w : world) :
  validate lax EmailTemplate wire = Valid d ->
  exists d' assets w',
    generate_template_with_assets d am w = Returned d' assets w'
    /\ (exists saved,
          wire_get "template" (save_with_asset_metadata d' assets) = Some saved
          /\ validate lax EmailTemplate saved = Valid d')
    /\ (exists entries urls,
          wire_get "assets" (save_with_asset_metadata d' assets) = Some (VDict entries)
          /\ dict_get "count" entries
             = Some (VInt (Z.of_nat (List.length
                                       (nodup String.string_dec (references d)))))
          /\ dict_get "urls" entries = Some (VDict urls)
          /\ (forall r url, dict_get r urls = Some (VStr url)
                            <-> dict_get r assets = Some url)
          /\ (forall r, In r (keys urls) <-> In r (references d))).
Proof.
  intros Hv.
  assert (Hobj : truthy d = true).
  { apply validate_model_inv in Hv. destruct Hv as [e [a [_ [-> _]]]]. reflexivity. }
  destruct (resolve_assets_validated lax am wire d [] w Hv)
    as [d' [assets [w' [Hr [Hres Hframe]]]]].
  exists d', assets, w'. unfold generate_template_with_assets.
  rewrite Hobj, Hr. split; [reflexivity|].
  destruct (resolved_keys am _ _ _ _ _ _ Hres) as [Hnd Hin].
  specialize (Hnd (NoDup_nil _)).
  assert (Hkeys : forall r, In r (keys assets) <-> In r (references d)).
  { intros r. rewrite Hin. simpl. tauto. }
  split.
  - eexists. split; [reflexivity|].
    apply (reload_email_template lax).
    apply (stays EmailTemplate eq_refl d d').
    + exact (validate_sound lax _ _ _ Hv).
    + symmetry. exact Hframe.
    + exact (resolved_have_urls am _ _ _ _ _ _ Hres).
  - do 2 eexists. split; [reflexivity|]. split; [|split; [reflexivity|split]].
    + simpl. do 3 f_equal. unfold keys in Hnd, Hkeys.
      rewrite <- (length_map fst assets).
      apply same_elements_same_length; auto.
      * apply NoDup_nodup.
      * intros x. rewrite nodup_In. apply Hkeys.
    + intros r url. clear. induction assets as [|[k u] rest IH]; simpl.
      * split; discriminate.
      * destruct (String.eqb r k); [|exact IH].
        split; intros H; injection H as <-; reflexivity.
    + intros r. rewrite <- Hkeys. unfold keys. rewrite map_map. simpl. tauto.
Qed.

Lemma saved_template_and_assets_witness :
  exists d' assets w',
    generate_template_with_assets newsletter (manager online mixed) world0
    = Returned d' assets w'
    /\ (exists saved,
          wire_get "template" (save_with_asset_metadata d' assets) = Some saved
          /\ validate strict EmailTemplate saved = Valid d')
    /\ (exists entries urls,
          wire_get "assets" (save_with_asset_metadata d' assets) = Some (VDict entries)
          /\ dict_get "count" entries
             = Some (VInt (Z.of_nat (List.length
                                       (nodup String.string_dec (references newsletter)))))
          /\ dict_get "urls" entries = Some (VDict urls)
          /\ (forall r url, dict_get r urls = Some (VStr url)
                            <-> dict_get r assets = Some url)
          /\ (forall r, In r (keys urls) <-> In r (references newsletter))).
Proof.
  exact (saved_template_and_assets strict (manager online mixed)
           newsletter_json newsletter world0 eq_refl).
Defined.

End PipelineFacts.

(** ** Accepted documents of [agent.py] *)
Module DocumentFacts.
Import Pydantic Agent Documents ValidateFacts LayoutFacts InstanceFacts ReloadFacts.

Lemma field_instance (fields : list (field ftype)) (attrs : list (string * value))
      (n : string) (f : field ftype) :
  Forall2 attr_of fields attrs ->
  find (fun g => String.eqb n (fname g)) fields = Some f ->
  exists x,
    dict_get n attrs = Some x
    /\ match x with
       | VNone => frequired f = false
       | _ => instance_of (ftyp f) x = true
       end.
Proof.
  induction 1 as [|g [k x] fs attrs' [Hn Hx] _ IH]; simpl; [discriminate|].
  simpl in Hn, Hx. subst k.
  destruct (String.eqb n (fname g)).
  - intros Hf. injection Hf as <-. exists x. split; [reflexivity | destruct x; exact Hx].
  - exact IH.
Qed.

(** A required attribute is an instance of its type. *)
Lemma required_instance (name : string) (pbn : bool) (fields : list (field ftype))
      (d : value) (n : string) (alias : option string) (t : ftype) :
  instance_of (TModel name pbn fields) d = true ->
  find (fun g => String.eqb n (fname g)) fields = Some (Field n alias true t) ->
  exists x, getattr d n = Some x /\ instance_of t x = true.
Proof.
  intros Hd Hfind. destruct d as [| | | | | | |cls attrs]; try discriminate.
  rewrite instance_of_model in Hd. apply andb_true_iff in Hd. destruct Hd as [_ Hd].
  apply attrs_of_fields in Hd.
  destruct (field_instance _ _ _ _ Hd Hfind) as [x [Hx Hi]].
  exists x. split; [exact Hx|]. simpl in Hi. destruct x; auto. discriminate.
Qed.

(** An optional attribute is [None] or an instance of its type. *)
Lemma optional_instance (name : string) (pbn : bool) (fields : list (field ftype))
      (d : value) (n : string) (alias : option string) (t : ftype) :
  instance_of (TModel name pbn fields) d = true ->
  find (fun g => String.eqb n (fname g)) fields = Some (Field n alias false t) ->
  exists x, getattr d n = Some x /\ (x = VNone \/ instance_of t x = true).
Proof.
  intros Hd Hfind. destruct d as [| | | | | | |cls attrs]; try discriminate.
  rewrite instance_of_model in Hd. apply andb_true_iff in Hd. destruct Hd as [_ Hd].
  apply attrs_of_fields in Hd.
  destruct (field_instance _ _ _ _ Hd Hfind) as [x [Hx Hi]].
  exists x. split; [exact Hx|]. simpl in Hi. destruct x; auto.
Qed.

Lemma list_instance (elem : ftype) (mn mx : option nat) (x : value) :
  instance_of (TList elem mn mx) x = true ->
  exists items,
    x = VList items
    /\ length_in mn mx (List.length items) = true
    /\ Forall (fun i => instance_of elem i = true) items.
Proof.
  destruct x; try discriminate. simpl. intros H.
  apply andb_true_iff in H. destruct H as [Hlen Hall].
  exists items. split; [reflexivity|]. split; [exact Hlen|].
  apply Forall_forall. now apply forallb_forall.
Qed.

Lemma literal_instance (choices : list string) (x : value) :
  instance_of (TLiteral choices) x = true -> exists s, x = VStr s /\ In s choices.
Proof.
  destruct x; try discriminate. simpl. intros H.
  apply existsb_exists in H. destruct H as [c [Hc Heq]].
  apply String.eqb_eq in Heq. subst c. eauto.
Qed.

Lemma str_instance (x : value) : instance_of TStr x = true -> exists s, x = VStr s.
Proof. destruct x; try discriminate. eauto. Qed.

Lemma int_instance (lo hi : Z) (x : value) :
  instance_of (IntIn lo hi) x = true -> exists n, x = VInt n /\ (lo <= n <= hi)%Z.
Proof.
  destruct x; try discriminate. simpl. unfold int_in. intros H.
  apply andb_true_iff in H. destruct H as [H1 H2].
  apply Z.leb_le in H1, H2. eauto.
Qed.

(** The parts of a document, a row and a column. *)
Lemma document_parts (d : value) :
  instance_of EmailTemplate d = true ->
  exists t type,
    getattr d "template" = Some t
    /\ instance_of Template t = true
    /\ getattr t "type" = Some (VStr type)
    /\ In type ["email"; "page"; "popup"]
    /\ getattr t "rows" = Some (VList (rows_of d))
    /\ rows_of d <> []
    /\ Forall (fun row => instance_of Row row = true) (rows_of d).
Proof.
  intros Hd.
  destruct (required_instance _ _ _ d "template" None Template Hd eq_refl)
    as [t [Ht Hit]].
  destruct (required_instance _ _ _ t "type" None
              (TLiteral ["email"; "page"; "popup"]) Hit eq_refl) as [x [Hx Hix]].
  destruct (literal_instance _ _ Hix) as [type [-> Htype]].
  destruct (required_instance _ _ _ t "rows" None (TList Row (Some 1%nat) None)
              Hit eq_refl) as [r [Hr Hir]].
  destruct (list_instance _ _ _ _ Hir) as [rows [-> [Hlen Hrows]]].
  exists t, type. unfold rows_of. rewrite Ht, Hr. cbn [items_of].
  split; [reflexivity|]. split; [exact Hit|]. split; [exact Hx|].
  split; [exact Htype|]. split; [reflexivity|]. split; [|exact Hrows].
  intros ->. discriminate.
Qed.

Lemma row_parts (row : value) :
  instance_of Row row = true ->
  exists name,
    getattr row "name" = Some (VStr name)
    /\ getattr row "columns" = Some (VList (columns_of row))
    /\ (1 <= List.length (columns_of row) <= 12)%nat
    /\ Forall (fun column => instance_of Column column = true) (columns_of row).
Proof.
  intros Hd.
  destruct (required_instance _ _ _ row "name" None TStr Hd eq_refl) as [x [Hx Hix]].
  destruct (str_instance _ Hix) as [name ->].
  destruct (required_instance _ _ _ row "columns" None
              (TList Column (Some 1%nat) (Some 12%nat)) Hd eq_refl) as [c [Hc Hic]].
  destruct (list_instance _ _ _ _ Hic) as [columns [-> [Hlen Hcols]]].
  exists name. unfold columns_of. rewrite Hc. cbn [items_of].
  unfold length_in in Hlen. apply andb_true_iff in Hlen. destruct Hlen as [H1 H2].
  apply Nat.leb_le in H1, H2.
  split; [exact Hx|]. split; [reflexivity|]. split; [split; assumption | exact Hcols].
Qed.

Lemma member_type (m : ftype) (tags : list string) (d : value) :
  RoundTrip.member_tags m = Some tags ->
  instance_of m d = true ->
  exists tag, getattr d "type" = Some (VStr tag) /\ In tag tags.
Proof.
  intros Hm Hd. apply RoundTripProof.member_tags_shape in Hm.
  destruct Hm as [name [pbn [rest ->]]].
  destruct (required_instance _ _ _ d "type" None (TLiteral tags) Hd eq_refl)
    as [x [Hx Hix]].
  destruct (literal_instance _ _ Hix) as [tag [-> Htag]]. eauto.
Qed.

Lemma module_type (m : value) :
  instance_of Module_ m = true ->
  exists tag, getattr m "type" = Some (VStr tag) /\ In tag module_tags.
Proof.
  intros Hm.
  change (existsb (fun member => instance_of member m)
            [ButtonModule; DividerModule; HtmlModule; IconsModule; ImageModule;
             ListModule; MenuModule; ParagraphModule; TitleModule] = true) in Hm.
  apply existsb_exists in Hm. destruct Hm as [member [Hin Hm]].
  assert (Htags : exists tags,
             RoundTrip.member_tags member = Some tags /\ incl tags module_tags).
  { simpl in Hin.
    repeat (destruct Hin as [<-|Hin];
            [eexists; split; [reflexivity|];
             intros x Hx; simpl in Hx |- *; intuition auto|]).
    destruct Hin. }
  destruct Htags as [tags [Htags Hincl]].
  destruct (member_type member tags m Htags Hm) as [tag [Ht Hin']].
  exists tag. split; [exact Ht|]. now apply Hincl.
Qed.

Lemma column_parts (column : value) :
  instance_of Column column = true ->
  exists weight,
    getattr column "weight" = Some (VInt weight)
    /\ (1 <= weight <= 12)%Z
    /\ getattr column "modules" = Some (VList (modules_of column))
    /\ Forall (fun m => exists tag,
                   getattr m "type" = Some (VStr tag) /\ In tag module_tags)
              (modules_of column).
Proof.
  intros Hd.
  destruct (required_instance _ _ _ column "weight" None (IntIn 1 12) Hd eq_refl)
    as [x [Hx Hix]].
  destruct (int_instance _ _ _ Hix) as [weight [-> Hw]].
  destruct (required_instance _ _ _ column "modules" None (List_ Module_) Hd eq_refl)
    as [ms [Hm Him]].
  destruct (list_instance _ _ _ _ Him) as [modules [-> [_ Hmods]]].
  exists weight. unfold modules_of. rewrite Hm. cbn [items_of].
  split; [exact Hx|]. split; [exact Hw|]. split; [reflexivity|].
  eapply Forall_impl; [|exact Hmods]. intros m. apply module_type.
Qed.

End DocumentFacts.

(** ** The summary and the first accesses of [main] *)
Module SummaryFacts.
Import Pydantic Agent Documents ValidateFacts LayoutFacts InstanceFacts ReloadFacts.
Import Summary DocumentFacts.

Lemma for_each_ok {A B} (f : A -> outcome B) (g : A -> B) (l : list A) :
  Forall (fun x => f x = Ok (g x)) l -> for_each f l = Ok (map g l).
Proof.
  induction 1 as [|x l Hx _ IH]; simpl; [reflexivity|].
  now rewrite Hx, IH.
Qed.

Lemma list_attr_ok (obj : value) (name : string) (items : list value) :
  getattr obj name = Some (VList items) -> list_attr obj name = Ok items.
Proof. intros H. unfold list_attr, attr. now rewrite H. Qed.

Lemma str_attr_ok (obj : value) (name s : string) :
  getattr obj name = Some (VStr s) -> str_attr obj name = Ok s.
Proof. intros H. unfold str_attr, attr. now rewrite H. Qed.

Lemma int_attr_ok (obj : value) (name : string) (n : Z) :
  getattr obj name = Some (VInt n) -> int_attr obj name = Ok n.
Proof. intros H. unfold int_attr, attr. now rewrite H. Qed.

(** The first modules that [main] reaches: those of [rows[0].columns[0]]. *)
Definition first_modules (d : value) : list value :=
  match rows_of d with
  | row :: _ =>
      match columns_of row with
      | column :: _ => modules_of column
      | [] => []
      end
  | [] => []
  end.

Lemma attr_ok (obj : value) (name : string) (x : value) :
  getattr obj name = Some x -> attr obj name = Ok x.
Proof. intros H. unfold attr. now rewrite H. Qed.

Lemma first_accesses (d : value) :
  instance_of EmailTemplate d = true ->
  (exists name, first_row_name d = Found name)
  /\ match first_modules d with
     | [] => first_module_type d = IndexError
     | _ :: _ =>
         exists tag, In tag module_tags /\ first_module_type d = Found tag
     end.
Proof.
  intros Hd.
  destruct (document_parts d Hd) as [t [type [Ht [_ [_ [_ [Hrows [Hne Hall]]]]]]]].
  unfold first_row_name, first_module_type, first_modules.
  rewrite !(attr_ok _ _ _ Ht). cbn [after].
  rewrite !(list_attr_ok _ _ _ Hrows). cbn [after].
  destruct (rows_of d) as [|row rest]; [congruence|]. cbn [first].
  inversion Hall as [|? ? Hrow _]; subst.
  destruct (row_parts row Hrow) as [name [Hname [Hcols [Hlen Hcall]]]].
  rewrite !(list_attr_ok _ _ _ Hcols). cbn [after].
  split.
  - exists name. unfold reached. now rewrite (str_attr_ok _ _ _ Hname).
  - destruct (columns_of row) as [|column crest]; [simpl in Hlen; lia|]. cbn [first].
    inversion Hcall as [|? ? Hcol _]; subst.
    destruct (column_parts column Hcol) as [weight [_ [_ [Hmods Hmall]]]].
    rewrite !(list_attr_ok _ _ _ Hmods). cbn [after].
    destruct (modules_of column) as [|m mrest]; [reflexivity|]. cbn [first].
    inversion Hmall as [|? ? [tag [Htag Hin]] _]; subst.
    exists tag. split; [exact Hin|].
    unfold reached. now rewrite (str_attr_ok _ _ _ Htag).
Qed.

Lemma for_each_returns {A B} (f : A -> outcome B) (l : list A) :
  Forall (fun x => exists y, f x = Ok y) l ->
  exists ys, for_each f l = Ok ys /\ List.length ys = List.length l.
Proof.
  induction 1 as [|x l [y Hy] _ [ys [IH Hlen]]]; simpl.
  - exists []. auto.
  - rewrite Hy, IH. simpl. exists (y :: ys). simpl. auto.
Qed.

Lemma total_modules_ok (rows : list value) :
  Forall (fun row => instance_of Row row = true) rows ->
  total_modules rows
  = Ok (list_sum
          (List.concat
             (map (fun row => map (fun column => List.length (modules_of column))
                                  (columns_of row)) rows))).
Proof.
  intros Hrows. unfold total_modules.
  rewrite (for_each_ok _
             (fun row => map (fun column => List.length (modules_of column))
                             (columns_of row))); [reflexivity|].
  eapply Forall_impl; [|exact Hrows]. intros row Hrow.
  destruct (row_parts row Hrow) as [name [_ [Hcols [_ Hcall]]]].
  rewrite (list_attr_ok _ _ _ Hcols). cbn [and_then].
  apply for_each_ok.
  eapply Forall_impl; [|exact Hcall]. intros column Hcol.
  destruct (column_parts column Hcol) as [weight [_ [_ [Hmods _]]]].
  now rewrite (list_attr_ok _ _ _ Hmods).
Qed.

Lemma module_types_ok (column : value) :
  instance_of Column column = true -> exists s, module_types column = Ok s.
Proof.
  intros Hcol.
  destruct (column_parts column Hcol) as [weight [_ [_ [Hmods Hall]]]].
  unfold module_types. rewrite (list_attr_ok _ _ _ Hmods). cbn [and_then].
  destruct (for_each_returns (fun m => str_attr m "type") (modules_of column))
    as [types [Ht _]].
  - eapply Forall_impl; [|exact Hall]. intros m [tag [Htag _]].
    exists tag. now apply str_attr_ok.
  - rewrite Ht. simpl. eauto.
Qed.

Lemma column_lines_ok (columns : list value) :
  Forall (fun column => instance_of Column column = true) columns ->
  forall j, exists lines,
    column_lines j columns = Ok lines /\ List.length lines = List.length columns.
Proof.
  induction 1 as [|column rest Hcol _ IH]; intros j; simpl.
  - exists []. auto.
  - destruct (module_types_ok column Hcol) as [types ->].
    destruct (IH (S j)) as [lines [-> Hlen]]. simpl.
    eexists. split; [reflexivity|]. simpl. now rewrite Hlen.
Qed.

Lemma row_lines_ok (rows : list value) :
  Forall (fun row => instance_of Row row = true) rows ->
  forall i, exists lines,
    row_lines i rows = Ok lines
    /\ List.length lines
       = List.length rows
         + list_sum (map (fun row => List.length (columns_of row)) rows).
Proof.
  induction 1 as [|row rest Hrow _ IH]; intros i; simpl.
  - exists []. auto.
  - destruct (row_parts row Hrow) as [name [Hname [Hcols [_ Hcall]]]].
    rewrite (list_attr_ok _ _ _ Hcols). cbn [and_then].
    destruct (for_each_returns column_weight (columns_of row)) as [weights [-> _]].
    { eapply Forall_impl; [|exact Hcall]. intros column Hcol.
      destruct (column_parts column Hcol) as [weight [Hw _]].
      unfold column_weight. rewrite (int_attr_ok _ _ _ Hw). simpl. eauto. }
    cbn [and_then]. rewrite (str_attr_ok _ _ _ Hname). cbn [and_then].
    destruct (column_lines_ok (columns_of row) Hcall 1) as [cols [-> Hclen]].
    cbn [and_then].
    destruct (IH (S i)) as [lines [-> Hlen]]. cbn [and_then].
    eexists. split; [reflexivity|].
    simpl. rewrite length_app, Hclen, Hlen. lia.
Qed.

Lemma optional_line_ok (obj : value) (name : string)
      (text : value -> outcome string) (x : value) :
  getattr obj name = Some x ->
  (x = VNone \/ exists s, text x = Ok s) ->
  exists lines, optional_line obj name text = Ok lines.
Proof.
  intros Hx Hcase. unfold optional_line. rewrite (attr_ok _ _ _ Hx). cbn [and_then].
  destruct Hcase as [->|[s Hs]]; [simpl; eauto|].
  destruct (truthy x); [|eauto]. rewrite Hs. simpl. eauto.
Qed.

Lemma settings_lines_ok (t : value) :
  instance_of Template t = true -> exists lines, settings_lines t = Ok lines.
Proof.
  intros Ht.
  destruct (optional_instance _ _ _ t "settings" None Settings Ht eq_refl)
    as [settings [Hs Hcase]].
  unfold settings_lines. rewrite (attr_ok _ _ _ Hs). cbn [and_then].
  destruct Hcase as [->|Hi]; [simpl; eauto|].
  destruct (truthy settings); [|eauto].
  destruct (optional_instance _ _ _ settings "width" None (IntIn 320 1440) Hi eq_refl)
    as [width [Hw Hwcase]].
  destruct (optional_line_ok settings "width" width_text width Hw) as [wl ->].
  { destruct Hwcase as [->|Hwi]; [now left|]. right.
    destruct (int_instance _ _ _ Hwi) as [n [-> _]]. simpl. eauto. }
  cbn [and_then].
  destruct (optional_instance _ _ _ settings "background_color"
              (Some "background-color") TStr Hi eq_refl) as [bg [Hb Hbcase]].
  destruct (optional_line_ok settings "background_color" (labelled "  Background: ")
              bg Hb) as [bl ->].
  { destruct Hbcase as [->|Hbi]; [now left|]. right.
    destruct (str_instance _ Hbi) as [c ->]. simpl. eauto. }
  simpl. eauto.
Qed.

Lemma metadata_lines_ok (t : value) :
  instance_of Template t = true -> exists lines, metadata_lines t = Ok lines.
Proof.
  intros Ht.
  destruct (optional_instance _ _ _ t "metadata" None Metadata Ht eq_refl)
    as [metadata [Hs Hcase]].
  unfold metadata_lines. rewrite (attr_ok _ _ _ Hs). cbn [and_then].
  destruct Hcase as [->|Hi]; [simpl; eauto|].
  destruct (truthy metadata); [|eauto].
  destruct (optional_instance _ _ _ metadata "title" None TStr Hi eq_refl)
    as [title [Hw Hwcase]].
  destruct (optional_line_ok metadata "title" (labelled "  Title: ") title Hw)
    as [wl ->].
  { destruct Hwcase as [->|Hwi]; [now left|]. right.
    destruct (str_instance _ Hwi) as [c ->]. simpl. eauto. }
  cbn [and_then].
  destruct (optional_instance _ _ _ metadata "subject" None TStr Hi eq_refl)
    as [subject [Hb Hbcase]].
  destruct (optional_line_ok metadata "subject" (labelled "  Subject: ") subject Hb)
    as [bl ->].
  { destruct Hbcase as [->|Hbi]; [now left|]. right.
    destruct (str_instance _ Hbi) as [c ->]. simpl. eauto. }
  simpl. eauto.
Qed.

Lemma length_concat_map {A B} (f : A -> list B) (l : list A) :
  List.length (List.concat (map f l)) = list_sum (map (fun x => List.length (f x)) l).
Proof.
  induction l as [|x l IH]; simpl; [reflexivity|].
  now rewrite length_app, IH.
Qed.



(** X13: on an accepted document [rows[0].name] is there, and
    [rows[0].columns[0].modules[0].type] is a type tag unless the first
    column of the first row has no module, in which case the access fails
    with an index error. *)
Theorem first_module_of_an_accepted_document (lax : lax_mode) (wire d : value) :
  validate lax EmailTemplate wire = Valid d ->
  (exists name, first_row_name d = Found name)
  /\ match first_modules d with
     | [] => first_module_type d = IndexError
     | _ :: _ =>
         exists tag, In tag module_tags /\ first_module_type d = Found tag
     end.
Proof.
  intros Hv. apply first_accesses. exact (validate_sound lax _ _ _ Hv).
Qed.

Definition empty_column_doc : value :=
  Eval vm_compute in accepted EmailTemplate (one_column_json []).

Lemma first_module_of_an_accepted_document_witness :
  first_modules empty_column_doc = []
  /\ (exists name, first_row_name empty_column_doc = Found name)
  /\ first_module_type empty_column_doc = IndexError
  /\ (exists tag, In tag module_tags
                  /\ first_module_type ValidatorClaims.welcome = Found tag).
Proof.
  split; [reflexivity|].
  destruct (first_module_of_an_accepted_document strict (one_column_json [])
              empty_column_doc eq_refl) as [Hname Hfirst].
  split; [exact Hname|]. split; [exact Hfirst|].
  destruct (first_module_of_an_accepted_document strict ValidatorClaims.welcome_json
              ValidatorClaims.welcome eq_refl) as [_ Hw].
  exact Hw.
Defined.

(** X12: in an accepted document every column has an integer weight
    from 1 to 12 and every module carries one of the ten type tags. *)
Theorem weights_and_tags_of_an_accepted_document (lax : lax_mode) (wire d : value) :
  validate lax EmailTemplate wire = Valid d ->
  Forall (fun row =>
            Forall (fun column =>
                      (exists weight,
                          getattr column "weight" = Some (VInt weight)
                          /\ (1 <= weight <= 12)%Z)
                      /\ Forall (fun m => exists tag,
                                     getattr m "type" = Some (VStr tag)
                                     /\ In tag module_tags)
                                (modules_of column))
                   (columns_of row))
         (rows_of d).
Proof.
  intros Hv. pose proof (validate_sound lax _ _ _ Hv) as Hd.
  destruct (document_parts d Hd) as [t [type [_ [_ [_ [_ [_ [_ Hall]]]]]]]].
  eapply Forall_impl; [|exact Hall]. intros row Hrow.
  destruct (row_parts row Hrow) as [name [_ [_ [_ Hcall]]]].
  eapply Forall_impl; [|exact Hcall]. intros column Hcol.
  destruct (column_parts column Hcol) as [weight [Hw [Hb [_ Hmods]]]].
  split; [eauto | exact Hmods].
Qed.

Lemma weights_and_tags_of_an_accepted_document_witness :
  Forall (fun row =>
            Forall (fun column =>
                      (exists weight,
                          getattr column "weight" = Some (VInt weight)
                          /\ (1 <= weight <= 12)%Z)
                      /\ Forall (fun m => exists tag,
                                     getattr m "type" = Some (VStr tag)
                                     /\ In tag module_tags)
                                (modules_of column))
                   (columns_of row))
         (rows_of ValidatorClaims.welcome).
Proof.
  apply (weights_and_tags_of_an_accepted_document strict ValidatorClaims.welcome_json
           ValidatorClaims.welcome).
  vm_compute. reflexivity.
Defined.

(** X11: what a validator returns is an instance of its model (every
    attribute of the type of its field, within its bounds, [None] for
    optional fields only); and for a model whose wire form is unambiguous,
    every instance is returned by the validator, on its own wire form. *)
Theorem instances_are_the_accepted_values (lax : lax_mode) (t : ftype) (d : value) :
  (forall wire, validate lax t wire = Valid d -> instance_of t d = true)
  /\ (RoundTrip.wf t = true -> instance_of t d = true ->
      validate lax t (model_dump t d) = Valid d).
Proof.
  split.
  - intros wire. apply validate_sound.
  - intros Hwf. now apply reload.
Qed.

Lemma instances_are_the_accepted_values_witness :
  instance_of EmailTemplate ValidatorClaims.welcome = true
  /\ validate strict EmailTemplate (model_dump EmailTemplate ValidatorClaims.welcome)
     = Valid ValidatorClaims.welcome.
Proof.
  destruct (instances_are_the_accepted_values strict EmailTemplate
              ValidatorClaims.welcome) as [Hsound Hreload].
  assert (Hi : instance_of EmailTemplate ValidatorClaims.welcome = true).
  { apply (Hsound ValidatorClaims.welcome_json). vm_compute. reflexivity. }
  split; [exact Hi|]. apply Hreload; [vm_compute; reflexivity | exact Hi].
Defined.

End SummaryFacts.

(** ** The size asked of the image generation

    [_get_dalle_size] compares the float [width / height] with [1.5] and
    [0.7].  The quotient of two [int]s is rounded to the nearest float; for
    dimensions below [2^49] the rounding cannot cross either bound, so the
    size is given by the two integer comparisons [2 * width > 3 * height] and
    [10 * width < 7 * height]. *)
Module RatioFacts.
Import Assets Samples FloatFacts ProviderFacts.
Local Open Scope Z_scope.

Ltac compare_to_order :=
  repeat match goal with
         | H : (?a ?= ?b) = Lt |- _ => change (a < b) in H
         | H : (?a ?= ?b) = Gt |- _ => change (a > b) in H
         | H : (?a ?= ?b) = Eq |- _ => apply Z.compare_eq in H
         | |- (?a ?= ?b) = Lt => change (a < b)
         | |- (?a ?= ?b) = Gt => change (a > b)
         | |- (?a ?= ?b) = Eq => apply Z.compare_eq_iff
         end.

(** *** Binary digits *)

Lemma digits_spec (p : positive) :
  2 ^ (Zdigits2 (Zpos p) - 1) <= Zpos p < 2 ^ Zdigits2 (Zpos p).
Proof.
  induction p as [p IH|p IH|]; cbn [Zdigits2 digits2_pos] in *.
  - rewrite Pos2Z.inj_succ. set (d := Zpos (digits2_pos p)) in *.
    assert (Hd : 0 < d) by (unfold d; lia).
    replace (Z.succ d - 1) with (Z.succ (d - 1)) by lia.
    rewrite !Z.pow_succ_r by lia. rewrite (Pos2Z.inj_xI p).
    replace (2 ^ d) with (2 * 2 ^ (d - 1)) in IH
      by (rewrite <- Z.pow_succ_r by lia; f_equal; lia).
    replace (2 ^ d) with (2 * 2 ^ (d - 1))
      by (rewrite <- Z.pow_succ_r by lia; f_equal; lia).
    lia.
  - rewrite Pos2Z.inj_succ. set (d := Zpos (digits2_pos p)) in *.
    assert (Hd : 0 < d) by (unfold d; lia).
    replace (Z.succ d - 1) with (Z.succ (d - 1)) by lia.
    rewrite !Z.pow_succ_r by lia. rewrite (Pos2Z.inj_xO p).
    replace (2 ^ d) with (2 * 2 ^ (d - 1)) in IH
      by (rewrite <- Z.pow_succ_r by lia; f_equal; lia).
    replace (2 ^ d) with (2 * 2 ^ (d - 1))
      by (rewrite <- Z.pow_succ_r by lia; f_equal; lia).
    lia.
  - split; [apply Z.leb_le | apply Z.ltb_lt]; reflexivity.
Qed.

Lemma digits_unique (m k : Z) :
  0 < k -> 2 ^ (k - 1) <= m < 2 ^ k -> Zdigits2 m = k.
Proof.
  intros Hk [Hlo Hhi].
  assert (0 < 2 ^ (k - 1)) by (apply Z.pow_pos_nonneg; lia).
  destruct m as [|p|p]; try lia.
  pose proof (digits_spec p) as [Hl Hh].
  set (d := Zdigits2 (Zpos p)) in *.
  assert (Hd : 0 < d) by (unfold d; simpl; lia).
  destruct (Z.lt_trichotomy d k) as [Hlt|[Heq|Hgt]]; [|assumption|].
  - assert (2 ^ d <= 2 ^ (k - 1)) by (apply Z.pow_le_mono_r; lia). lia.
  - assert (2 ^ k <= 2 ^ (d - 1)) by (apply Z.pow_le_mono_r; lia). lia.
Qed.

(** *** The position of a quotient between two mantissas

    [located N D m l]: the number [N / D] lies in [[m, m + 1)], and [l] tells
    where: on [m], below the middle, on it, or above. *)
Definition located (N D m : Z) (l : location) : Prop :=
  match l with
  | loc_Exact => N = m * D
  | loc_Inexact c => m * D < N < (m + 1) * D /\ (2 * (N - m * D) ?= D) = c
  end.

Lemma new_location_spec (h r : Z) :
  0 <= r < h ->
  new_location h r = if r =? 0 then loc_Exact else loc_Inexact (2 * r ?= h).
Proof.
  intros Hr. unfold new_location, new_location_even, new_location_odd.
  destruct (Z.even h) eqn:Ev; destruct (r =? 0) eqn:Er; try reflexivity.
  f_equal.
  assert (Hodd : Z.odd h = true) by (rewrite <- Z.negb_even, Ev; reflexivity).
  apply Z.odd_spec in Hodd. destruct Hodd as [k Hk].
  destruct (Z.compare_spec (2 * r + 1) h), (Z.compare_spec (2 * r) h);
    try reflexivity; lia.
Qed.

Lemma located_division (q h r : Z) :
  0 <= r < h -> located (q * h + r) h q (new_location h r).
Proof.
  intros Hr. rewrite new_location_spec by assumption.
  destruct (r =? 0) eqn:Er; cbn [located].
  - apply Z.eqb_eq in Er. lia.
  - apply Z.eqb_neq in Er. split; [lia|]. f_equal. lia.
Qed.

Lemma shr_1_spec (m : Z) (r s : bool) :
  0 <= m ->
  exists m' b,
    shr_1 (Build_shr_record m r s) = Build_shr_record m' b (r || s)
    /\ m = 2 * m' + Z.b2z b /\ 0 <= m'.
Proof.
  intros Hm. destruct m as [|[p|p|]|p]; try lia; simpl.
  - exists 0, false. split; [reflexivity|]. simpl. lia.
  - exists (Zpos p), true. split; [reflexivity|]. cbn [Z.b2z]. lia.
  - exists (Zpos p), false. split; [reflexivity|]. cbn [Z.b2z]. lia.
  - exists 0, true. split; [reflexivity|]. simpl. lia.
Qed.

Lemma shr_1_located (N D q : Z) (l : location) :
  0 <= q -> 0 < D -> located N D q l ->
  exists m b,
    shr_1 (shr_record_of_loc q l) = Build_shr_record m b (shr_s (shr_1 (shr_record_of_loc q l)))
    /\ q = 2 * m + Z.b2z b /\ 0 <= m
    /\ located N (2 * D) m (loc_of_shr_record (shr_1 (shr_record_of_loc q l))).
Proof.
  intros Hq HD Hl.
  destruct l as [|[]]; cbn [shr_record_of_loc];
    match goal with
    | |- context [shr_1 (Build_shr_record q ?r ?s)] =>
        destruct (shr_1_spec q r s Hq) as (m & b & E & Hm & Hm0)
    end;
    rewrite E; exists m, b; cbn [shr_s];
    (split; [reflexivity|]); (split; [assumption|]); (split; [assumption|]);
    subst q; destruct b; cbn [loc_of_shr_record orb located Z.b2z] in *;
    try match type of Hl with _ /\ _ => destruct Hl as [Hl Hc] end; compare_to_order;
    repeat split; compare_to_order; lia.
Qed.

Lemma loc_of_record (m : Z) (l : location) :
  loc_of_shr_record (shr_record_of_loc m l) = l.
Proof. destruct l as [|[]]; reflexivity. Qed.

(** *** One rounding *)

Lemma shr_fexp_53 (m e : Z) (l : location) :
  Zdigits2 m = 53 -> -1074 <= e ->
  shr_fexp 53 1024 m e l = (shr_record_of_loc m l, e).
Proof.
  intros Hd He. unfold shr_fexp. rewrite Hd. unfold fexp, emin.
  replace (Z.max (53 + e - 53) (3 - 1024 - 53) - e) with 0 by lia.
  reflexivity.
Qed.

Lemma shr_fexp_54 (m e : Z) (l : location) :
  Zdigits2 m = 54 -> -1075 <= e ->
  shr_fexp 53 1024 m e l = (shr_1 (shr_record_of_loc m l), e + 1).
Proof.
  intros Hd He. unfold shr_fexp. rewrite Hd. unfold fexp, emin.
  replace (Z.max (54 + e - 53) (3 - 1024 - 53) - e) with 1 by lia.
  reflexivity.
Qed.

(** Rounding to nearest, ties to even, stays within half a unit. *)
Lemma nearest_even_located (N D m : Z) (l : location) :
  0 < D -> located N D m l ->
  m <= round_nearest_even m l <= m + 1
  /\ 2 * Z.abs (N - round_nearest_even m l * D) <= D.
Proof.
  intros HD Hl. destruct l as [|[]]; cbn [round_nearest_even located] in *.
  - split; lia.
  - destruct Hl as [Hl Hc]. compare_to_order.
    destruct (Z.even m); split; lia.
  - destruct Hl as [Hl Hc]. compare_to_order. split; lia.
  - destruct Hl as [Hl Hc]. compare_to_order. split; lia.
Qed.

Lemma round_step (N D m0 e : Z) (l0 : location) :
  0 < D -> located N D m0 l0 -> 2 ^ 52 <= m0 < 2 ^ 53 -> -1074 <= e ->
  exists m k,
    shr_fexp 53 1024 (round_nearest_even m0 l0) e loc_Exact
    = (Build_shr_record m false false, e + k)
    /\ 2 ^ 52 <= m < 2 ^ 53 /\ 0 <= k <= 1
    /\ 2 * Z.abs (N - m * (2 ^ k * D)) <= 2 ^ k * D.
Proof.
  intros HD Hl Hm0 He.
  destruct (nearest_even_located N D m0 l0 HD Hl) as [Hb Hn].
  set (m1 := round_nearest_even m0 l0) in *. clearbody m1.
  destruct (Z.eq_dec m1 (2 ^ 53)) as [->|Hne].
  - exists (2 ^ 52), 1. rewrite shr_fexp_54 by (try reflexivity; lia).
    split; [reflexivity|]. split; [lia|]. split; [lia|].
    change (2 ^ 1) with 2.
    replace (2 ^ 52 * (2 * D)) with (2 ^ 53 * D) by (change (2 ^ 53) with (2 ^ 52 * 2); ring).
    lia.
  - exists m1, 0. rewrite shr_fexp_53 by (try lia; apply digits_unique; lia).
    rewrite Z.add_0_r. split; [reflexivity|]. split; [lia|]. split; [lia|].
    change (2 ^ 0) with 1. rewrite !Z.mul_1_l. exact Hn.
Qed.

(** A quotient of 53 or 54 digits is rounded to a mantissa of 53 digits, at
    most half a unit of the last place away. *)
Lemma round_located (N D q e : Z) (l : location) :
  0 < D -> located N D q l -> 2 ^ 52 <= q < 2 ^ 54 -> -1074 <= e <= 900 ->
  exists m k,
    binary_round_aux 53 1024 false q e l = S754_finite false (Z.to_pos m) (e + k)
    /\ 2 ^ 52 <= m < 2 ^ 53 /\ 0 <= k <= 2
    /\ 2 * Z.abs (N - m * (2 ^ k * D)) <= 2 ^ k * D.
Proof.
  intros HD Hl Hq He. unfold binary_round_aux.
  destruct (Z_lt_le_dec q (2 ^ 53)) as [Hlt|Hge].
  - rewrite shr_fexp_53 by (try lia; apply digits_unique; lia).
    rewrite shr_record_m, loc_of_record.
    destruct (round_step N D q e l HD Hl ltac:(lia) ltac:(lia))
      as (m & k & E & Hm & Hk & Hn).
    rewrite E. cbn [shr_m]. exists m, k.
    destruct m as [|p|p]; try lia.
    replace (e + k <=? 1024 - 53) with true by (symmetry; apply Z.leb_le; lia).
    split; [reflexivity|]. split; [assumption|]. split; [lia|]. exact Hn.
  - rewrite shr_fexp_54 by (try lia; apply digits_unique; lia).
    destruct (shr_1_located N D q l ltac:(lia) HD Hl)
      as (m0 & b & E0 & Hq0 & Hm0 & Hl0).
    set (mrs := shr_1 (shr_record_of_loc q l)) in *.
    assert (Hm0' : 2 ^ 52 <= m0 < 2 ^ 53).
    { destruct b; cbn [Z.b2z] in Hq0; lia. }
    assert (Em : shr_m mrs = m0) by (rewrite E0; reflexivity).
    rewrite Em.
    destruct (round_step N (2 * D) m0 (e + 1) (loc_of_shr_record mrs)
                ltac:(lia) Hl0 Hm0' ltac:(lia))
      as (m & k & E & Hm & Hk & Hn).
    rewrite E. cbn [shr_m]. exists m, (1 + k).
    destruct m as [|p|p]; try lia.
    replace (e + 1 + k <=? 1024 - 53) with true by (symmetry; apply Z.leb_le; lia).
    split; [f_equal; lia|]. split; [assumption|]. split; [lia|].
    replace (2 ^ (1 + k) * D) with (2 ^ k * (2 * D))
      by (rewrite Z.pow_add_r by lia; change (2 ^ 1) with 2; ring).
    exact Hn.
Qed.

(** *** The division of two sizes *)

Lemma div_core (w h : Z) :
  0 < w < 2 ^ 51 -> 0 < h < 2 ^ 51 ->
  exists q r e,
    SFdiv_core_binary 53 1024 w 0 h 0 = (q, e, new_location h r)
    /\ -1074 <= e <= -3
    /\ w * 2 ^ (- e) = q * h + r /\ 0 <= r < h
    /\ 2 ^ 52 <= q < 2 ^ 54.
Proof.
  intros Hw Hh. unfold SFdiv_core_binary.
  destruct w as [|pw|pw]; try lia. destruct h as [|ph|ph]; try lia.
  pose proof (digits_spec pw) as Hdw. pose proof (digits_spec ph) as Hdh.
  pose proof (digits_bound (Zpos pw) 51 ltac:(lia) ltac:(lia) (proj2 Hw)) as Hw51.
  pose proof (digits_bound (Zpos ph) 51 ltac:(lia) ltac:(lia) (proj2 Hh)) as Hh51.
  set (d1 := Zdigits2 (Zpos pw)) in *. set (d2 := Zdigits2 (Zpos ph)) in *.
  assert (Hd1 : 0 < d1) by (unfold d1; simpl; lia).
  assert (Hd2 : 0 < d2) by (unfold d2; simpl; lia).
  assert (He : Z.min (fexp 53 1024 (d1 + 0 - (d2 + 0))) (0 - 0) = d1 - d2 - 53)
    by (unfold fexp, emin; lia).
  rewrite He. set (e := d1 - d2 - 53) in *.
  assert (Hs : 0 - 0 - e = - e) by lia. rewrite Hs.
  assert (Hm' : match - e with
                | 0 => Zpos pw
                | Zpos _ => Z.shiftl (Zpos pw) (- e)
                | Zneg _ => 0
                end = Zpos pw * 2 ^ (- e)).
  { destruct (- e) as [|n|n] eqn:En; try lia.
    rewrite Z.shiftl_mul_pow2 by lia. reflexivity. }
  rewrite Hm'.
  pose proof (Z.div_eucl_eq (Zpos pw * 2 ^ (- e)) (Zpos ph) ltac:(lia)) as Heq.
  pose proof (Z.mod_pos_bound (Zpos pw * 2 ^ (- e)) (Zpos ph) ltac:(lia)) as Hmod.
  unfold Z.modulo in Hmod.
  destruct (Z.div_eucl (Zpos pw * 2 ^ (- e)) (Zpos ph)) as [q r].
  exists q, r, e. split; [reflexivity|]. split; [unfold e; lia|].
  split; [lia|]. split; [assumption|].
  set (B := 2 ^ (d2 - 1)) in *.
  assert (HB : 0 < B) by (apply Z.pow_pos_nonneg; lia).
  assert (HB2 : 2 ^ d2 = 2 * B).
  { unfold B. rewrite <- Z.pow_succ_r by lia. f_equal. lia. }
  assert (Hlow : 2 ^ (d1 - 1) * 2 ^ (- e) = 2 ^ 53 * B).
  { unfold B. rewrite <- !Z.pow_add_r by lia. f_equal. unfold e. lia. }
  assert (Hhigh : 2 ^ d1 * 2 ^ (- e) = 2 ^ 54 * B).
  { unfold B. rewrite <- !Z.pow_add_r by lia. f_equal. unfold e. lia. }
  assert (HP : 0 < 2 ^ (- e)) by (apply Z.pow_pos_nonneg; lia).
  set (P := 2 ^ (- e)) in *. set (W := Zpos pw) in *. set (H := Zpos ph) in *.
  rewrite HB2 in Hdh.
  assert (H1 : 2 ^ 53 * B <= W * P) by nia.
  assert (H2 : W * P < 2 ^ 54 * B) by nia.
  clearbody P W H B. clear Hlow Hhigh Hdw Hm'.
  change (2 ^ 53) with 9007199254740992 in *.
  change (2 ^ 54) with 18014398509481984 in *.
  change (2 ^ 52) with 4503599627370496 in *.
  split; nia.
Qed.

(** [w / h] for two sizes: the float nearest to the quotient. *)
Lemma truediv_rounds (w h : Z) :
  0 < w < 2 ^ 51 -> 0 < h < 2 ^ 51 ->
  exists m e,
    int_truediv w h = Ok (S754_finite false (Z.to_pos m) e)
    /\ 2 ^ 52 <= m < 2 ^ 53 /\ -1074 <= e <= -1
    /\ 2 * Z.abs (w * 2 ^ (- e) - m * h) <= h.
Proof.
  intros Hw Hh. unfold int_truediv.
  replace (h =? 0) with false by (symmetry; apply Z.eqb_neq; lia).
  destruct (div_core w h Hw Hh) as (q & r & e & Hc & He & Hqr & Hr & Hq).
  destruct (round_located (q * h + r) h q e (new_location h r)
              ltac:(lia) (located_division q h r Hr) Hq ltac:(lia))
    as (m & k & E & Hm & Hk & Hn).
  exists m, (e + k).
  destruct w as [|pw|pw]; try lia. destruct h as [|ph|ph]; try lia.
  unfold PyFloat.of_int_exact, SFdiv, PyFloat.prec, PyFloat.emax.
  rewrite Hc. cbn [xorb]. rewrite E.
  split; [reflexivity|]. split; [assumption|]. split; [lia|].
  set (A := 2 ^ (- (e + k))).
  assert (HT : 0 < 2 ^ k) by (apply Z.pow_pos_nonneg; lia).
  assert (HA : 2 ^ (- e) = A * 2 ^ k).
  { unfold A. rewrite <- Z.pow_add_r by lia. f_equal. lia. }
  rewrite <- Hqr, HA in Hn.
  replace (Zpos pw * (A * 2 ^ k) - m * (2 ^ k * Zpos ph))
    with (2 ^ k * (Zpos pw * A - m * Zpos ph)) in Hn by ring.
  rewrite Z.abs_mul, (Z.abs_eq (2 ^ k)) in Hn by lia.
  set (X := Z.abs (Zpos pw * A - m * Zpos ph)) in *.
  clearbody X. set (T := 2 ^ k) in *. clearbody T. nia.
Qed.

(** *** The two comparisons *)

Lemma gt_1_5 (m e : Z) :
  0 < m ->
  PyFloat.gt (S754_finite false (Z.to_pos m) e) PyFloat.f_1_5
  = (-52 <? e) || ((e =? -52) && (6755399441055744 <? m)).
Proof.
  intros Hm. destruct m as [|p|p]; try lia.
  unfold PyFloat.gt, PyFloat.f_1_5, SFltb, SFcompare. cbn [Z.to_pos].
  destruct (Z.compare_spec (-52) e) as [<-|Hlt|Hgt].
  - change (-52 <? -52) with false. change (-52 =? -52) with true.
    cbn [orb andb]. unfold Z.ltb. cbn [Z.compare]. unfold Pos.compare.
    destruct (Pos.compare_cont Eq 6755399441055744 p); reflexivity.
  - replace (-52 <? e) with true by (symmetry; apply Z.ltb_lt; lia). reflexivity.
  - replace (-52 <? e) with false by (symmetry; apply Z.ltb_ge; lia).
    replace (e =? -52) with false by (symmetry; apply Z.eqb_neq; lia).
    reflexivity.
Qed.

Lemma lt_0_7 (m e : Z) :
  0 < m ->
  PyFloat.lt (S754_finite false (Z.to_pos m) e) PyFloat.f_0_7
  = (e <? -53) || ((e =? -53) && (m <? 6305039478318694)).
Proof.
  intros Hm. destruct m as [|p|p]; try lia.
  unfold PyFloat.lt, PyFloat.f_0_7, SFltb, SFcompare. cbn [Z.to_pos].
  destruct (Z.compare_spec e (-53)) as [->|Hlt|Hgt].
  - change (-53 <? -53) with false. change (-53 =? -53) with true.
    cbn [orb andb]. unfold Z.ltb. cbn [Z.compare]. unfold Pos.compare.
    destruct (Pos.compare_cont Eq p 6305039478318694); reflexivity.
  - replace (e <? -53) with true by (symmetry; apply Z.ltb_lt; lia). reflexivity.
  - replace (e <? -53) with false by (symmetry; apply Z.ltb_ge; lia).
    replace (e =? -53) with false by (symmetry; apply Z.eqb_neq; lia).
    reflexivity.
Qed.

(** The rounded quotient is above [1.5] exactly when the quotient is. *)
Lemma above_1_5 (w h m e : Z) :
  0 < w -> 0 < h < 2 ^ 52 -> 2 ^ 52 <= m < 2 ^ 53 -> e <= 0 ->
  2 * Z.abs (w * 2 ^ (- e) - m * h) <= h ->
  (-52 <? e) || ((e =? -52) && (6755399441055744 <? m)) = (3 * h <? 2 * w).
Proof.
  intros Hw Hh Hm He Hn.
  change (2 ^ 52) with 4503599627370496 in *.
  change (2 ^ 53) with 9007199254740992 in *.
  assert (Hlo : 4503599627370496 * h <= m * h) by nia.
  assert (Hhi : m * h <= 9007199254740991 * h) by nia.
  destruct (Z.lt_trichotomy e (-52)) as [Hlt|[->|Hgt]].
  - replace (-52 <? e) with false by (symmetry; apply Z.ltb_ge; lia).
    replace (e =? -52) with false by (symmetry; apply Z.eqb_neq; lia).
    cbn [orb andb]. symmetry. apply Z.ltb_ge.
    assert (HA : 2 ^ 53 <= 2 ^ (- e)) by (apply Z.pow_le_mono_r; lia).
    change (2 ^ 53) with 9007199254740992 in HA.
    set (A := 2 ^ (- e)) in *. clearbody A.
    assert (HwA : 9007199254740992 * w <= w * A) by nia.
    lia.
  - change (- -52) with 52 in Hn. change (2 ^ 52) with 4503599627370496 in Hn.
    change (-52 <? -52) with false. change (-52 =? -52) with true.
    cbn [orb andb].
    destruct (Z.ltb_spec 6755399441055744 m) as [Hlt|Hge]; symmetry.
    + apply Z.ltb_lt.
      assert (Hmh : 6755399441055745 * h <= m * h) by nia. lia.
    + apply Z.ltb_ge.
      assert (Hmh : m * h <= 6755399441055744 * h) by nia. lia.
  - replace (-52 <? e) with true by (symmetry; apply Z.ltb_lt; lia).
    cbn [orb]. symmetry. apply Z.ltb_lt.
    assert (HA : 2 ^ (- e) <= 2 ^ 51) by (apply Z.pow_le_mono_r; lia).
    change (2 ^ 51) with 2251799813685248 in HA.
    set (A := 2 ^ (- e)) in *. clearbody A.
    assert (HwA : w * A <= 2251799813685248 * w) by nia.
    lia.
Qed.

(** The rounded quotient is below the float [0.7] exactly when the quotient
    is below seven tenths. *)
Lemma below_0_7 (w h m e : Z) :
  0 < w -> 0 < h < 2 ^ 49 -> 2 ^ 52 <= m < 2 ^ 53 -> e <= 0 ->
  2 * Z.abs (w * 2 ^ (- e) - m * h) <= h ->
  (e <? -53) || ((e =? -53) && (m <? 6305039478318694)) = (10 * w <? 7 * h).
Proof.
  intros Hw Hh Hm He Hn.
  change (2 ^ 52) with 4503599627370496 in *.
  change (2 ^ 53) with 9007199254740992 in *.
  change (2 ^ 49) with 562949953421312 in *.
  assert (Hlo : 4503599627370496 * h <= m * h) by nia.
  assert (Hhi : m * h <= 9007199254740991 * h) by nia.
  destruct (Z.lt_trichotomy e (-53)) as [Hlt|[->|Hgt]].
  - replace (e <? -53) with true by (symmetry; apply Z.ltb_lt; lia).
    cbn [orb]. symmetry. apply Z.ltb_lt.
    assert (HA : 2 ^ 54 <= 2 ^ (- e)) by (apply Z.pow_le_mono_r; lia).
    change (2 ^ 54) with 18014398509481984 in HA.
    set (A := 2 ^ (- e)) in *. clearbody A.
    assert (HwA : 18014398509481984 * w <= w * A) by nia.
    lia.
  - change (- -53) with 53 in Hn. change (2 ^ 53) with 9007199254740992 in Hn.
    change (-53 <? -53) with false. change (-53 =? -53) with true.
    cbn [orb andb].
    destruct (Z.ltb_spec m 6305039478318694) as [Hlt|Hge]; symmetry.
    + apply Z.ltb_lt.
      assert (Hmh : m * h <= 6305039478318693 * h) by nia. lia.
    + apply Z.ltb_ge.
      assert (Hmh : 6305039478318694 * h <= m * h) by nia. lia.
  - replace (e <? -53) with false by (symmetry; apply Z.ltb_ge; lia).
    replace (e =? -53) with false by (symmetry; apply Z.eqb_neq; lia).
    cbn [orb andb]. symmetry. apply Z.ltb_ge.
    assert (HA : 2 ^ (- e) <= 2 ^ 52) by (apply Z.pow_le_mono_r; lia).
    change (2 ^ 52) with 4503599627370496 in HA.
    set (A := 2 ^ (- e)) in *. clearbody A.
    assert (HwA : w * A <= 4503599627370496 * w) by nia.
    lia.
Qed.

(** The size by the integer comparisons. *)
Definition size_of (width height : Z) : dalle_size :=
  if 3 * height <? 2 * width then s1792x1024
  else if 10 * width <? 7 * height then s1024x1792
  else s1024x1024.

Lemma dalle_size_of_sizes (width height : Z) :
  0 <= width < 2 ^ 49 -> 0 < height < 2 ^ 49 ->
  get_dalle_size width height = Ok (size_of width height).
Proof.
  intros Hw Hh. unfold get_dalle_size, size_of.
  destruct (Z.eq_dec width 0) as [->|Hne].
  - unfold int_truediv.
    replace (height =? 0) with false by (symmetry; apply Z.eqb_neq; lia).
    destruct height as [|ph|ph]; try lia. cbn.
    replace (3 * Zpos ph <? 0) with false by (symmetry; apply Z.ltb_ge; lia).
    reflexivity.
  - assert (H51 : 2 ^ 49 < 2 ^ 51) by (vm_compute; reflexivity).
    destruct (truediv_rounds width height ltac:(lia) ltac:(lia))
      as (m & e & E & Hm & He & Hn).
    rewrite E.
    assert (Hm0 : 0 < m) by (change (2 ^ 52) with 4503599627370496 in Hm; lia).
    rewrite gt_1_5, lt_0_7 by assumption.
    assert (H52 : 2 ^ 49 < 2 ^ 52) by (vm_compute; reflexivity).
    rewrite (above_1_5 width height m e) by (try assumption; lia).
    rewrite (below_0_7 width height m e) by (try assumption; lia).
    destruct (3 * height <? 2 * width); [reflexivity|].
    destruct (10 * width <? 7 * height); reflexivity.
Qed.

(** Beyond [2^52] the rounding of the quotient shows: a width above one and
    a half times the height whose quotient is rounded to [1.5]. *)
Lemma rounded_quotient_of_large_sizes :
  get_dalle_size (3 * 2 ^ 52 + 1) (2 ^ 53) = Ok s1024x1024
  /\ size_of (3 * 2 ^ 52 + 1) (2 ^ 53) = s1792x1024.
Proof. split; vm_compute; reflexivity. Qed.

(** X17. For a width from 0 and a height from 1, both below [2^49],
    [_get_dalle_size] returns, and its result is [1792x1024] when
    [2 * width > 3 * height], [1024x1792] when [10 * width < 7 * height], and
    [1024x1024] otherwise; with [use_ai] under the strategies dalle and
    mixed, [get_image] asks the image generation for exactly that size (one
    request) and returns what it gives. *)
Theorem dalle_size_by_aspect_ratio (am : AssetManager) (description : string)
        (width height : Z) (w : world) :
  0 <= width < 2 ^ 49 -> 0 < height < 2 ^ 49 ->
  get_dalle_size width height
  = Ok (if 3 * height <? 2 * width then s1792x1024
        else if 10 * width <? 7 * height then s1024x1792
        else s1024x1024)
  /\ (is_dalle_or_mixed (policy am) = true ->
      exists url,
        get_image am description width height true w
        = Ok (url,
              {| requests := S (requests w);
                 trace := trace w
                          ++ [GetImage description width height true;
                              GenerateImage description
                                (if 3 * height <? 2 * width then s1792x1024
                                 else if 10 * width <? 7 * height then s1024x1792
                                 else s1024x1024)] |})).
Proof.
  intros Hw Hh.
  pose proof (dalle_size_of_sizes width height Hw Hh) as Hs. unfold size_of in Hs.
  split; [exact Hs|].
  intros Hp. rewrite get_image_ai by assumption. rewrite Hs.
  destruct (generate_image_returns (outside am) description
              (if 3 * height <? 2 * width then s1792x1024
               else if 10 * width <? 7 * height then s1024x1792
               else s1024x1024)
              {| requests := requests w;
                 trace := trace w ++ [GetImage description width height true] |})
    as [url Hg].
  exists url. rewrite Hg. cbn [requests trace]. rewrite <- app_assoc. reflexivity.
Qed.

Lemma dalle_size_by_aspect_ratio_witness :
  get_dalle_size 1920 1080 = Ok s1792x1024
  /\ get_dalle_size 600 900 = Ok s1024x1792
  /\ get_dalle_size 800 600 = Ok s1024x1024
  /\ exists url,
       get_image (manager offline mixed) "hero" 1920 1080 true world0
       = Ok (url, {| requests := 1;
                     trace := [GetImage "hero" 1920 1080 true;
                               GenerateImage "hero" s1792x1024] |}).
Proof.
  split; [|split; [|split]].
  - exact (proj1 (dalle_size_by_aspect_ratio (manager offline mixed) "hero"
                    1920 1080 world0 ltac:(lia) ltac:(lia))).
  - exact (proj1 (dalle_size_by_aspect_ratio (manager offline mixed) "hero"
                    600 900 world0 ltac:(lia) ltac:(lia))).
  - exact (proj1 (dalle_size_by_aspect_ratio (manager offline mixed) "hero"
                    800 600 world0 ltac:(lia) ltac:(lia))).
  - exact (proj2 (dalle_size_by_aspect_ratio (manager offline mixed) "hero"
                    1920 1080 world0 ltac:(lia) ltac:(lia)) eq_refl).
Defined.

End RatioFacts.
